(** * ReactBroX: the React component analyzer (ReactComponentAnalyzer.ts)

    A shallow embedding of [ReactComponentAnalyzer]: the Babel syntax
    tree it reads, the order in which [traverse] hands nodes to its
    visitors, and the analyzer's own methods ([extractComponentName],
    [extractComponentDetails], [extractStateFromUseState],
    [countVariableUsage], [extractHookInfo], [extractContextInfo],
    [detectStoreUsage], [addStoreInfo], [analyzeComponent]), followed by
    the properties of these methods. *)

From stdpp Require Import base option list strings pretty.
From Stdlib Require Import Ascii Lia.

Open Scope string_scope.
Open Scope list_scope.
Set Warnings "-register-all".

(** ** JavaScript values the analyzer renders *)

(** [NumericLiteral.value] is a JavaScript number and the analyzer only
    ever calls [toString()] on it.  The number type and its rendering
    belong to the JavaScript runtime, so they are an interface here. *)
Class JsNumber := {
  number : Type;
  number_toString : number -> string
}.

(** Numbers for the worked inputs below: non-negative integers in the
    safe range, which [toString()] prints in plain decimal. *)
Definition decimal_numbers : JsNumber :=
  {| number := N; number_toString := fun n => pretty n |}.

(** [true.toString()] and [false.toString()]. *)
Definition boolean_toString (b : bool) : string :=
  if b then "true" else "false".

(** [xs.join(sep)] on an array of strings. *)
Definition join (sep : string) (xs : list string) : string :=
  String.concat sep xs.

(** JavaScript truthiness of a string: only the empty string is falsy. *)
Definition truthy (s : string) : bool :=
  match s with
  | EmptyString => false
  | String _ _ => true
  end.

(** A loop whose body may throw, over an accumulator: the body runs on
    each element in order, and the first exception ([None]) ends the
    loop. *)
Definition forEach {A R : Type} (body : A -> R -> option R)
  : list A -> R -> option R :=
  fix loop (l : list A) (acc : R) : option R :=
    match l with
    | [] => Some acc
    | x :: rest =>
        match body x acc with
        | Some acc' => loop rest acc'
        | None => None
        end
    end.

(** [line]/[column] of [node.loc.start]. *)
Record Position := { line : nat; column : nat }.

Section Analyzer.
Context `{JsNumber}.

(** ** The syntax tree

    The node types of the Babel AST that a function component is made
    of.  Fields are listed in the order of Babel's visitor keys, which
    is the order [traverse] descends into them.  [loc] is kept on
    [CallExpression], the only node whose position the analyzer reads;
    [None] stands for a tree that carries no positions.  A hole in an
    array literal or array pattern is [None].  A numeric literal has
    its [value] and, as [extra.raw], the text it was written as. *)
Inductive node : Type :=
  | File (program : node)
  | Program (body : list node)
  | FunctionDeclaration (id : option node) (params : list node) (body : node)
  | VariableDeclaration (declarations : list node)
  | VariableDeclarator (id : node) (init : option node)
  | ExpressionStatement (expression : node)
  | ReturnStatement (argument : option node)
  | BlockStatement (body : list node)
  | IfStatement (test : node) (consequent : node) (alternate : option node)
  | ExportDefaultDeclaration (declaration : node)
  | ExportNamedDeclaration (declaration : option node)
  | Identifier (name : string)
  | StringLiteral (value : string)
  | NumericLiteral (value : number) (raw : string)
  | BooleanLiteral (value : bool)
  | NullLiteral
  | ArrayExpression (elements : list (option node))
  | ObjectExpression (properties : list node)
  | ObjectProperty (key : node) (value : node)
  | SpreadElement (argument : node)
  | CallExpression (callee : node) (arguments : list node)
                   (loc : option Position)
  | MemberExpression (object : node) (property : node)
  | ArrowFunctionExpression (params : list node) (body : node)
  | FunctionExpression (id : option node) (params : list node) (body : node)
  | ArrayPattern (elements : list (option node))
  | ObjectPattern (properties : list node)
  | RestElement (argument : node)
  | AssignmentPattern (left : node) (right : node)
  | JSXElement (openingElement : node) (children : list node)
               (closingElement : option node)
  | JSXOpeningElement (name : node) (attributes : list node)
  | JSXClosingElement (name : node)
  | JSXAttribute (name : node) (value : option node)
  | JSXIdentifier (name : string)
  | JSXExpressionContainer (expression : node)
  | JSXText (value : string).

(** The [name] property of a node: present on identifiers only. *)
Definition name_of (n : node) : option string :=
  match n with
  | Identifier s => Some s
  | JSXIdentifier s => Some s
  | _ => None
  end.

(** ** Traversal: paths, scopes and visiting order *)

(** What a visitor sees of a Babel [NodePath]: [path.node],
    [path.parent] and [path.scope.block]. *)
Record NodePath := {
  path_node : node;
  path_parent : node;
  path_scope_block : node
}.

Definition isFunction (n : node) : bool :=
  match n with
  | FunctionDeclaration _ _ _ | FunctionExpression _ _ _
  | ArrowFunctionExpression _ _ => true
  | _ => false
  end.

Definition isPattern (n : node) : bool :=
  match n with
  | ArrayPattern _ | ObjectPattern _ | AssignmentPattern _ _ => true
  | _ => false
  end.

Definition isScopable (n : node) : bool :=
  match n with
  | Program _ | BlockStatement _ => true
  | _ => isFunction n
  end.

(** Babel's [isScope(node, parent)]: the body block of a function
    shares the function's scope, a pattern directly under a function
    opens one. *)
Definition isScope (n parent : node) : bool :=
  match n with
  | BlockStatement _ => negb (isFunction parent)
  | _ => if isPattern n && isFunction parent then true else isScopable n
  end.

(** Pre-order walk below [parent]: the path of [n], then the paths of
    its children, field by field in visitor-key order. *)
Fixpoint walk (parent scope n : node) : list NodePath :=
  let sc := if isScope n parent then n else scope in
  let one := walk n sc in
  let opt := fun o : option node =>
    match o with Some x => one x | None => [] end in
  let many := flat_map one in
  let holes := flat_map opt in
  {| path_node := n; path_parent := parent; path_scope_block := sc |} ::
  match n with
  | File p => one p
  | Program b => many b
  | FunctionDeclaration i ps b => opt i ++ many ps ++ one b
  | VariableDeclaration ds => many ds
  | VariableDeclarator i e => one i ++ opt e
  | ExpressionStatement e => one e
  | ReturnStatement a => opt a
  | BlockStatement b => many b
  | IfStatement t c a => one t ++ one c ++ opt a
  | ExportDefaultDeclaration d => one d
  | ExportNamedDeclaration d => opt d
  | Identifier _ | StringLiteral _ | NumericLiteral _ _ | BooleanLiteral _
  | NullLiteral | JSXIdentifier _ | JSXText _ => []
  | ArrayExpression es => holes es
  | ObjectExpression ps => many ps
  | ObjectProperty k v => one k ++ one v
  | SpreadElement a => one a
  | CallExpression c args _ => one c ++ many args
  | MemberExpression o p => one o ++ one p
  | ArrowFunctionExpression ps b => many ps ++ one b
  | FunctionExpression i ps b => opt i ++ many ps ++ one b
  | ArrayPattern es => holes es
  | ObjectPattern ps => many ps
  | RestElement a => one a
  | AssignmentPattern l r => one l ++ one r
  | JSXElement o cs c => one o ++ many cs ++ opt c
  | JSXOpeningElement n' attrs => one n' ++ many attrs
  | JSXClosingElement n' => one n'
  | JSXAttribute n' v => one n' ++ opt v
  | JSXExpressionContainer e => one e
  end.

(** [traverse(root, visitor)]: Babel does not visit [root] itself; it
    descends into its fields and calls the visitor on entering each
    node below it.  The visitors of this file never change the tree, so
    a traversal is its list of paths in visiting order. *)
Definition traverse (root : node) : list NodePath :=
  match walk root root root with
  | [] => []
  | _ :: below => below
  end.

(** The nodes directly below a node, in visiting order. *)
Definition children (n : node) : list node :=
  match n with
  | File p => [p]
  | Program b => b
  | FunctionDeclaration i ps b => option_list i ++ ps ++ [b]
  | VariableDeclaration ds => ds
  | VariableDeclarator i e => i :: option_list e
  | ExpressionStatement e => [e]
  | ReturnStatement a => option_list a
  | BlockStatement b => b
  | IfStatement t c a => t :: c :: option_list a
  | ExportDefaultDeclaration d => [d]
  | ExportNamedDeclaration d => option_list d
  | Identifier _ | StringLiteral _ | NumericLiteral _ _ | BooleanLiteral _
  | NullLiteral | JSXIdentifier _ | JSXText _ => []
  | ArrayExpression es => omap id es
  | ObjectExpression ps => ps
  | ObjectProperty k v => [k; v]
  | SpreadElement a => [a]
  | CallExpression c args _ => c :: args
  | MemberExpression o p => [o; p]
  | ArrowFunctionExpression ps b => ps ++ [b]
  | FunctionExpression i ps b => option_list i ++ ps ++ [b]
  | ArrayPattern es => omap id es
  | ObjectPattern ps => ps
  | RestElement a => [a]
  | AssignmentPattern l r => [l; r]
  | JSXElement o cs c => o :: cs ++ option_list c
  | JSXOpeningElement n' attrs => n' :: attrs
  | JSXClosingElement n' => [n']
  | JSXAttribute n' v => n' :: option_list v
  | JSXExpressionContainer e => [e]
  end.

(** A path without its scope: the node and its parent. *)
Definition shape (p : NodePath) : node * node :=
  (path_node p, path_parent p).

(** ** What the analyzer reports *)

Record HookInfo := {
  hook_name : string;
  hook_dependencies : option (list string);
  hook_callLocation : Position;
  hook_value : option string
}.

Record StateInfo := {
  state_name : string;
  state_initialValue : option string;
  state_setter : string;
  state_usageCount : option nat
}.

Record ContextInfo := {
  context_name : string;
  context_type : option string;
  context_usageLocations : list Position;
  context_value : option string
}.

Record PropInfo := {
  prop_name : string;
  prop_type : string;
  prop_required : bool;
  prop_defaultValue : option string;
  prop_description : option string;
  prop_usageCount : option nat
}.

Inductive StoreType : Type :=
  | redux | mobx | recoil | zustand | jotai | other.

Inductive StoreCategory : Type := actions | selectors.

Record StoreInfo := {
  store_type : StoreType;
  store_actions : list string;
  store_selectors : list string
}.

Record ComponentInfo := {
  name : string;
  filePath : string;
  hooks : list HookInfo;
  states : list StateInfo;
  contexts : list ContextInfo;
  props : list PropInfo;
  description : option string;
  storeUsage : option (list StoreInfo)
}.

#[global] Instance StoreType_eq_dec : EqDecision StoreType.
Proof. solve_decision. Defined.

(** ** Component identity: [extractComponentName] *)

Definition is_upper (c : ascii) : bool :=
  (Ascii.leb "A" c && Ascii.leb c "Z")%char.

Definition is_lower (c : ascii) : bool :=
  (Ascii.leb "a" c && Ascii.leb c "z")%char.

Definition is_digit (c : ascii) : bool :=
  (Ascii.leb "0" c && Ascii.leb c "9")%char.

Fixpoint all_chars (ok : ascii -> bool) (s : string) : bool :=
  match s with
  | EmptyString => true
  | String c rest => ok c && all_chars ok rest
  end.

(** [/^[A-Z][A-Za-z0-9]*$/.test(str)]. *)
Definition isPascalCase (str : string) : bool :=
  match str with
  | EmptyString => false
  | String c rest =>
      is_upper c &&
      all_chars (fun d => is_upper d || is_lower d || is_digit d) rest
  end.

(** [isPascalCase(x.name)] where [x] may lack a [name]: the test then
    runs on the text of [undefined] and fails. *)
Definition isPascalCaseName (x : option string) : bool :=
  match x with
  | Some s => isPascalCase s
  | None => false
  end.

(** [s.split(sep)] where [sep] matches single characters; the result
    is never empty. *)
Fixpoint split (is_sep : ascii -> bool) (s : string) : list string :=
  match s with
  | EmptyString => [EmptyString]
  | String c rest =>
      if is_sep c then EmptyString :: split is_sep rest
      else match split is_sep rest with
           | piece :: pieces => String c piece :: pieces
           | [] => [String c EmptyString]
           end
  end.

(** [filePath.split(/[\/\\]/)], last part, then [.split('.')[0]]. *)
Definition fileNameWithoutExt (filePath : string) : string :=
  let pathParts :=
    split (fun c => (Ascii.eqb c "/" || Ascii.eqb c "\")%char) filePath in
  let fileName := List.last pathParts EmptyString in
  List.hd EmptyString (split (fun c => Ascii.eqb c "."%char) fileName).

(** The two variables the visitors of [extractComponentName] close
    over. *)
Record NameSearch := {
  componentName : option string;
  foundInAST : bool
}.

Definition isFunctionValue (n : node) : bool :=
  match n with
  | ArrowFunctionExpression _ _ | FunctionExpression _ _ _ => true
  | _ => false
  end.

(** One visitor call of the traversal in [extractComponentName]: the
    [FunctionDeclaration], [VariableDeclarator] and
    [ExportDefaultDeclaration] handlers. *)
Definition nameVisitor (baseName : string) (st : NameSearch) (p : NodePath)
  : NameSearch :=
  match path_node p with
  | FunctionDeclaration (Some i) _ _ =>
      if isPascalCaseName (name_of i)
      then {| componentName := name_of i; foundInAST := true |}
      else st
  | VariableDeclarator (Identifier x) (Some init) =>
      if isPascalCase x && isFunctionValue init
      then {| componentName := Some x; foundInAST := true |}
      else st
  | ExportDefaultDeclaration decl =>
      if negb (foundInAST st) &&
         (isFunctionValue decl ||
          match decl with
          | FunctionDeclaration None _ _ => true
          | _ => false
          end)
      then
        if isPascalCase baseName
        then {| componentName := Some baseName; foundInAST := true |}
        else st
      else st
  | _ => st
  end.

(** [!componentName]: null or the empty string. *)
Definition noName (c : option string) : bool :=
  match c with
  | Some s => negb (truthy s)
  | None => true
  end.

Definition extractComponentName (filePath : string) (ast : node)
  : option string :=
  let baseName := fileNameWithoutExt filePath in
  let st := fold_left (nameVisitor baseName) (traverse ast)
              {| componentName := None; foundInAST := false |} in
  if noName (componentName st) then
    if isPascalCase baseName then Some baseName else None
  else
    let found := default EmptyString (componentName st) in
    if negb (String.eqb found baseName) && isPascalCase baseName
    then Some (found +:+ " (" +:+ baseName +:+ ")")
    else Some found.

(** ** Hooks: [extractHookInfo] and [extractHookValue] *)

(** Fields of the call expression a [CallExpression] visitor is handed.
    On any other node they are absent. *)
Definition node_callee (n : node) : option node :=
  match n with
  | CallExpression c _ _ => Some c
  | _ => None
  end.

Definition node_arguments (n : node) : list node :=
  match n with
  | CallExpression _ args _ => args
  | _ => []
  end.

Definition node_loc (n : node) : option Position :=
  match n with
  | CallExpression _ _ l => l
  | _ => None
  end.

(** [callee.name] of the visited call. *)
Definition calleeName (p : NodePath) : string :=
  default EmptyString (node_callee (path_node p) ≫= name_of).

(** [{ line: loc ? loc.start.line : 0, column: loc ? loc.start.column : 0 }]. *)
Definition callLocation (p : NodePath) : Position :=
  match node_loc (path_node p) with
  | Some l => {| line := line l; column := column l |}
  | None => {| line := 0; column := 0 |}
  end.

(** [el && el.type === 'Identifier'], then [el.name]. *)
Definition identifierName (el : option node) : option string :=
  match el with
  | Some (Identifier x) => Some x
  | _ => None
  end.

(** [prop.key && prop.key.type === 'Identifier'], then [prop.key.name]. *)
Definition propertyKeyName (prop : node) : option string :=
  match prop with
  | ObjectProperty (Identifier k) _ => Some k
  | _ => None
  end.

(** The callback of [deps.map(...)] in [extractHookInfo]. *)
Definition dependencyName (dep : option node) : string :=
  match dep with
  | Some (Identifier x) => x
  | Some (CallExpression c _ _) =>
      match name_of c with
      | Some x => if truthy x then x else "Anonymous function call"
      | None => "Anonymous function call"
      end
  | _ => "Unknown dependency"
  end.

Definition extractHookValue (p : NodePath) : option string :=
  match path_parent p with
  | VariableDeclarator (Identifier x) _ => Some x
  | VariableDeclarator (ArrayPattern els) _ =>
      if (1 <=? length els)%nat then
        let elements := omap identifierName els in
        if (0 <? length elements)%nat
        then Some ("[" +:+ join ", " elements +:+ "]")
        else None
      else None
  | VariableDeclarator (ObjectPattern props') _ =>
      let properties := omap propertyKeyName props' in
      if (0 <? length properties)%nat
      then Some ("{ " +:+ join ", " properties +:+ " }")
      else None
  | _ => None
  end.

Definition isDependencyHook (hookName : string) : bool :=
  String.eqb hookName "useEffect" || String.eqb hookName "useMemo" ||
  String.eqb hookName "useCallback".

Definition extractHookInfo (p : NodePath) : HookInfo :=
  {| hook_name := calleeName p;
     hook_callLocation := callLocation p;
     hook_dependencies :=
       if isDependencyHook (calleeName p) then
         match node_arguments (path_node p) with
         | _ :: ArrayExpression deps :: _ =>
             Some (List.filter truthy (map dependencyName deps))
         | _ => None
         end
       else None;
     hook_value := extractHookValue p |}.

(** ** State: [extractStateFromUseState] and [countVariableUsage] *)

Definition isVariableDeclarator (n : node) : bool :=
  match n with
  | VariableDeclarator _ _ => true
  | _ => false
  end.

(** The [Identifier] visitor of [countVariableUsage]: does this path
    count as a use of [variableName]? *)
Definition countsAsUsage (variableName : string) (q : NodePath) : bool :=
  match path_node q with
  | Identifier x =>
      String.eqb x variableName && negb (isVariableDeclarator (path_parent q))
  | _ => false
  end.

(** Babel's [traverse(parent, visitor)] called without a scope: it
    throws ("You must pass a scope and parentPath unless traversing a
    Program/File") unless [parent] is a [Program] or a [File]. *)
Definition traversableWithoutScope (parent : node) : bool :=
  match parent with
  | Program _ | File _ => true
  | _ => false
  end.

(** [traverse(path.scope.block, { Identifier })]: the block of the
    scope the call sits in is traversed without a scope.  Babel refuses
    that for every block but the program, so the count exists only for
    a call at the top level of the module; [None] is the exception
    thrown for a call inside a function or a block.  Where the
    traversal is accepted it is the same pre-order walk as the one at
    the root. *)
Definition countVariableUsage (p : NodePath) (variableName : string)
  : option nat :=
  if traversableWithoutScope (path_scope_block p) then
    Some (length (List.filter (countsAsUsage variableName)
                    (traverse (path_scope_block p))))
  else None.

(** The one-character string holding a double quote. *)
Definition dquote : string := String "034"%char EmptyString.

(** The chain of [initArg.type] tests on the first argument. *)
Definition initialValueOf (args : list node) : option string :=
  match args with
  | StringLiteral v :: _ => Some (dquote +:+ v +:+ dquote)
  | NumericLiteral v _ :: _ => Some (number_toString v)
  | BooleanLiteral v :: _ => Some (boolean_toString v)
  | NullLiteral :: _ => Some "null"
  | ArrayExpression _ :: _ => Some "[]"
  | ObjectExpression _ :: _ => Some "{}"
  | _ => None
  end.

(** [Some None] is the [null] returned for a call that declares no
    state; [None] is the exception of [countVariableUsage], which
    leaves the function before the [StateInfo] is built. *)
Definition extractStateFromUseState (p : NodePath)
  : option (option StateInfo) :=
  let args := node_arguments (path_node p) in
  let '(stateName, setterName) :=
    match path_parent p with
    | VariableDeclarator (ArrayPattern els) _ =>
        if (2 <=? length els)%nat
        then (identifierName (mjoin (els !! 0)),
              identifierName (mjoin (els !! 1)))
        else (None, None)
    | _ => (None, None)
    end in
  if noName stateName || noName setterName then Some None
  else
    let stateName := default EmptyString stateName in
    let setterName := default EmptyString setterName in
    let initialValue := initialValueOf args in
    usageCount ← countVariableUsage p stateName;
    Some (Some {| state_name := stateName;
                  state_initialValue := initialValue;
                  state_setter := setterName;
                  state_usageCount := Some usageCount |}).

(** ** Context: [extractContextInfo] and [extractContextValue] *)

Definition extractContextValue (p : NodePath) : option string :=
  let contextName :=
    match node_arguments (path_node p) with
    | Identifier x :: _ => x
    | _ => "unknown"
    end in
  match path_parent p with
  | VariableDeclarator (Identifier x) _ =>
      Some (x +:+ " (from " +:+ contextName +:+ ")")
  | VariableDeclarator (ObjectPattern props') _ =>
      let properties := omap propertyKeyName props' in
      if (0 <? length properties)%nat
      then Some ("{ " +:+ join ", " properties +:+ " } (from " +:+
                 contextName +:+ ")")
      else Some ("from " +:+ contextName)
  | _ => Some ("from " +:+ contextName)
  end.

Definition extractContextInfo (p : NodePath) : option ContextInfo :=
  match node_arguments (path_node p) with
  | [] => None
  | Identifier x :: _ =>
      Some {| context_name := x;
              context_type := None;
              context_usageLocations := [callLocation p];
              context_value := extractContextValue p |}
  | _ :: _ => None
  end.

(** ** External stores: [detectStoreUsage] and [addStoreInfo] *)

Definition getCalleeArgumentName (p : NodePath) : string :=
  match node_arguments (path_node p) with
  | Identifier x :: _ => x
  | _ => "Anonymous argument"
  end.

Definition storeCategory (category : StoreCategory) (s : StoreInfo)
  : list string :=
  match category with
  | actions => store_actions s
  | selectors => store_selectors s
  end.

(** [if (!storeInfo[category].includes(name)) storeInfo[category].push(name)]. *)
Definition pushUnique (category : StoreCategory) (entry : string)
    (s : StoreInfo) : StoreInfo :=
  if existsb (String.eqb entry) (storeCategory category s) then s
  else
    match category with
    | actions =>
        {| store_type := store_type s;
           store_actions := store_actions s ++ [entry];
           store_selectors := store_selectors s |}
    | selectors =>
        {| store_type := store_type s;
           store_actions := store_actions s;
           store_selectors := store_selectors s ++ [entry] |}
    end.

(** The object [find] returned is an element of the array, so changing
    it changes the array at the first position that matches. *)
Fixpoint alterFirst (test : StoreInfo -> bool) (f : StoreInfo -> StoreInfo)
    (l : list StoreInfo) : list StoreInfo :=
  match l with
  | [] => []
  | s :: rest => if test s then f s :: rest else s :: alterFirst test f rest
  end.

Definition hasType (type : StoreType) (s : StoreInfo) : bool :=
  bool_decide (store_type s = type).

Definition addStoreInfo (componentInfo : ComponentInfo) (type : StoreType)
    (category : StoreCategory) (entry : string) : ComponentInfo :=
  let usage := default [] (storeUsage componentInfo) in
  let usage :=
    match List.find (hasType type) usage with
    | Some _ => usage
    | None =>
        usage ++ [{| store_type := type; store_actions := [];
                     store_selectors := [] |}]
    end in
  {| name := name componentInfo;
     filePath := filePath componentInfo;
     hooks := hooks componentInfo;
     states := states componentInfo;
     contexts := contexts componentInfo;
     props := props componentInfo;
     description := description componentInfo;
     storeUsage :=
       Some (alterFirst (hasType type) (pushUnique category entry) usage) |}.

(** [callee.type === 'Identifier' && callee.name === hook]. *)
Definition calleeIs (p : NodePath) (hook : string) : bool :=
  match node_callee (path_node p) with
  | Some (Identifier x) => String.eqb x hook
  | _ => false
  end.

(** The keys of an object-destructured binding of the call result. *)
Definition destructuredKeys (p : NodePath) : list string :=
  match path_parent p with
  | VariableDeclarator (ObjectPattern props') _ => omap propertyKeyName props'
  | _ => []
  end.

Definition selectorText (p : NodePath) : string :=
  let keys := destructuredKeys p in
  let selectorName := getCalleeArgumentName p in
  if (0 <? length keys)%nat
  then selectorName +:+ " -> { " +:+ join ", " keys +:+ " }"
  else selectorName.

(** The marker recorded for [useDispatch]: four Hangul syllables, as
    UTF-8 bytes. *)
Definition dispatchMarker : string := "디스패치".

Definition ensureStoreUsage (componentInfo : ComponentInfo) : ComponentInfo :=
  {| name := name componentInfo;
     filePath := filePath componentInfo;
     hooks := hooks componentInfo;
     states := states componentInfo;
     contexts := contexts componentInfo;
     props := props componentInfo;
     description := description componentInfo;
     storeUsage := Some (default [] (storeUsage componentInfo)) |}.

Definition detectStoreUsage (p : NodePath) (componentInfo : ComponentInfo)
  : ComponentInfo :=
  let componentInfo := ensureStoreUsage componentInfo in
  if calleeIs p "useSelector" then
    addStoreInfo componentInfo redux selectors (selectorText p)
  else if calleeIs p "useDispatch" then
    addStoreInfo componentInfo redux actions dispatchMarker
  else if calleeIs p "useRecoilState" then
    addStoreInfo componentInfo recoil selectors (getCalleeArgumentName p)
  else if calleeIs p "useRecoilValue" then
    addStoreInfo componentInfo recoil selectors (getCalleeArgumentName p)
  else if calleeIs p "useStore" then
    addStoreInfo componentInfo zustand selectors (selectorText p)
  else if calleeIs p "useAtom" then
    addStoreInfo componentInfo jotai selectors (getCalleeArgumentName p)
  else componentInfo.

(** ** The extraction traversal: [extractComponentDetails] *)

Definition pushHook (h : HookInfo) (c : ComponentInfo) : ComponentInfo :=
  {| name := name c; filePath := filePath c;
     hooks := hooks c ++ [h];
     states := states c; contexts := contexts c; props := props c;
     description := description c; storeUsage := storeUsage c |}.

Definition pushState (s : StateInfo) (c : ComponentInfo) : ComponentInfo :=
  {| name := name c; filePath := filePath c; hooks := hooks c;
     states := states c ++ [s];
     contexts := contexts c; props := props c;
     description := description c; storeUsage := storeUsage c |}.

Definition pushContext (x : ContextInfo) (c : ComponentInfo) : ComponentInfo :=
  {| name := name c; filePath := filePath c; hooks := hooks c;
     states := states c;
     contexts := contexts c ++ [x];
     props := props c;
     description := description c; storeUsage := storeUsage c |}.

(** [callee.type === 'Identifier' && callee.name.startsWith('use')]. *)
Definition isHookCall (p : NodePath) : bool :=
  match node_callee (path_node p) with
  | Some (Identifier x) => String.prefix "use" x
  | _ => false
  end.

(** The hook branch of the [CallExpression] visitor.  The exception
    of [extractStateFromUseState] is not caught here: [None]. *)
Definition recordHook (p : NodePath) (componentInfo : ComponentInfo)
  : option ComponentInfo :=
  if isHookCall p then
    let hookName := calleeName p in
    if negb (existsb (fun h => String.eqb (hook_name h) hookName)
               (hooks componentInfo))
    then
      let componentInfo := pushHook (extractHookInfo p) componentInfo in
      componentInfo ←
        (if String.eqb hookName "useState" then
           stateInfo ← extractStateFromUseState p;
           Some match stateInfo with
                | Some stateInfo => pushState stateInfo componentInfo
                | None => componentInfo
                end
         else Some componentInfo);
      Some
        (if String.eqb hookName "useContext" then
           match extractContextInfo p with
           | Some contextInfo =>
               if negb (existsb
                          (fun c => String.eqb (context_name c)
                                      (context_name contextInfo))
                          (contexts componentInfo))
               then pushContext contextInfo componentInfo
               else componentInfo
           | None => componentInfo
           end
         else componentInfo)
    else Some componentInfo
  else Some componentInfo.

(** The [CallExpression] visitor; paths of other nodes pass by. *)
Definition callVisitor (componentInfo : ComponentInfo) (p : NodePath)
  : option ComponentInfo :=
  match path_node p with
  | CallExpression _ _ _ =>
      componentInfo ← recordHook p componentInfo;
      Some (detectStoreUsage p componentInfo)
  | _ => Some componentInfo
  end.

(** The traversal at the root is given the [File] the parser returned,
    which Babel accepts without a scope.  An exception thrown by the
    visitor ends the traversal and leaves [extractComponentDetails]:
    [None]. *)
Definition extractComponentDetails (ast : node) (componentInfo : ComponentInfo)
  : option ComponentInfo :=
  forEach (fun p componentInfo => callVisitor componentInfo p) (traverse ast)
    {| name := name componentInfo;
       filePath := filePath componentInfo;
       hooks := []; states := []; contexts := [];
       props := props componentInfo;
       description := description componentInfo;
       storeUsage := Some [] |}.

(** ** One file: [analyzeComponent] *)

(** What react-docgen-typescript returns for a property and for a
    component. *)
Record PropItem := {
  item_typeName : option string;
  item_required : bool;
  item_defaultValue : option string;
  item_description : string
}.

Record ComponentDoc := {
  doc_description : string;
  doc_props : list (string * PropItem)
}.

(** The collaborators of [analyzeComponent].  [None] is a thrown
    exception. *)
Record Collaborators := {
  path_relative : string -> string -> string;
  readFileSync : string -> option string;
  babelParse : string -> option node;
  docgenParse : string -> option (list ComponentDoc)
}.

(** [prop.type?.name || 'unknown']. *)
Definition typeNameOr (t : option string) : string :=
  match t with
  | Some s => if truthy s then s else "unknown"
  | None => "unknown"
  end.

Definition toPropInfo (entry : string * PropItem) : PropInfo :=
  {| prop_name := fst entry;
     prop_type := typeNameOr (item_typeName (snd entry));
     prop_required := item_required (snd entry);
     prop_defaultValue := item_defaultValue (snd entry);
     prop_description := Some (item_description (snd entry));
     prop_usageCount := None |}.

(** The inner [try] block: merge the first documented component, if
    any; a thrown exception leaves the record as it is. *)
Definition mergeProps (docs : option (list ComponentDoc))
    (componentInfo : ComponentInfo) : ComponentInfo :=
  match docs with
  | Some (doc :: _) =>
      {| name := name componentInfo;
         filePath := filePath componentInfo;
         hooks := hooks componentInfo;
         states := states componentInfo;
         contexts := contexts componentInfo;
         props := props componentInfo ++ map toPropInfo (doc_props doc);
         description := Some (doc_description doc);
         storeUsage := storeUsage componentInfo |}
  | Some [] => componentInfo
  | None => componentInfo
  end.

(** [None] is the [null] returned when no component name is found, and
    the [null] of the outer [catch]: reading, parsing and the extraction
    may each throw. *)
Definition analyzeComponent (env : Collaborators)
    (workspaceRoot filePath' : string) : option ComponentInfo :=
  let relativePath := path_relative env workspaceRoot filePath' in
  content ← readFileSync env filePath';
  ast ← babelParse env content;
  match extractComponentName filePath' ast with
  | Some found =>
      if noName (Some found) then None
      else
        let componentInfo :=
          {| name := found; filePath := relativePath;
             hooks := []; states := []; contexts := []; props := [];
             description := None; storeUsage := None |} in
        componentInfo ← extractComponentDetails ast componentInfo;
        Some (mergeProps (docgenParse env filePath') componentInfo)
  | None => None
  end.

(** ** Notions the properties are stated with *)

(** Rules (1) and (2) of identity resolution: a function declaration
    with a PascalCase identifier, or a declarator binding a PascalCase
    identifier to an arrow function or function expression. *)
Definition candidate (n : node) : option string :=
  match n with
  | FunctionDeclaration (Some i) _ _ =>
      if isPascalCaseName (name_of i) then name_of i else None
  | VariableDeclarator (Identifier x) (Some (ArrowFunctionExpression _ _))
  | VariableDeclarator (Identifier x) (Some (FunctionExpression _ _ _)) =>
      if isPascalCase x then Some x else None
  | _ => None
  end.

(** The candidates of a file, in document order. *)
Definition candidates (ast : node) : list string :=
  omap (fun p => candidate (path_node p)) (traverse ast).

(** A default export of an anonymous arrow function, function
    expression or unnamed function declaration. *)
Definition anonymousDefaultExport (n : node) : bool :=
  match n with
  | ExportDefaultDeclaration (ArrowFunctionExpression _ _)
  | ExportDefaultDeclaration (FunctionExpression _ _ _)
  | ExportDefaultDeclaration (FunctionDeclaration None _ _) => true
  | _ => false
  end.

Definition hasAnonymousDefaultExport (ast : node) : bool :=
  existsb (fun p => anonymousDefaultExport (path_node p)) (traverse ast).

(** The name reported for a candidate [found] in a file whose base
    name is [baseName]. *)
Definition reportedName (found baseName : string) : string :=
  if negb (String.eqb found baseName) && isPascalCase baseName
  then found +:+ " (" +:+ baseName +:+ ")"
  else found.

(** The hook a path calls, if it is a call of a [use...] identifier. *)
Definition hookCall (p : NodePath) : option string :=
  match path_node p with
  | CallExpression (Identifier x) _ _ =>
      if String.prefix "use" x then Some x else None
  | _ => None
  end.

(** The hook names a file calls, one per call, in document order. *)
Definition hookCallNames (ast : node) : list string :=
  omap hookCall (traverse ast).


(** The textual identity of one element of a dependency array. *)
Definition dependencyText (dep : option node) : string :=
  match dep with
  | Some (Identifier x) => x
  | Some (CallExpression (Identifier x) _ _) => x
  | Some (CallExpression _ _ _) => "Anonymous function call"
  | _ => "Unknown dependency"
  end.

(** Identifiers a parser produces have a non-empty name. *)
Definition namedDependency (dep : option node) : Prop :=
  match dep with
  | Some (Identifier x) => truthy x = true
  | Some (CallExpression c _ _) =>
      match name_of c with
      | Some x => truthy x = true ∧ ∃ y, c = Identifier y
      | None => True
      end
  | _ => True
  end.

(** The text a numeric literal was written as. *)
Definition literalText (n : node) : option string :=
  match n with
  | NumericLiteral _ raw => Some raw
  | _ => None
  end.

(** The store libraries the detection table knows. *)
Definition detectedStoreTypes : list StoreType :=
  [redux; recoil; zustand; jotai].

(** The names of the hooks recorded so far. *)
Definition hookNames (c : ComponentInfo) : list string :=
  map hook_name (hooks c).

(** What one visited hook call does to the list of recorded names. *)
Definition addName (names : list string) (x : string) : list string :=
  if bool_decide (x ∈ names) then names else names ++ [x].

(** Every store entry carries one of the detected tags. *)
Definition storesDetected (c : ComponentInfo) : Prop :=
  Forall (fun s => store_type s ∈ detectedStoreTypes)
    (default [] (storeUsage c)).

(** The state branch sits inside the check that no hook of the same
    name is registered, and it registers [useState]: it can run once. *)
Definition statesGuarded (c : ComponentInfo) : Prop :=
  states c = [] ∨ (length (states c) = 1 ∧ "useState" ∈ hookNames c).

Definition contextsGuarded (c : ComponentInfo) : Prop :=
  contexts c = [] ∨ (length (contexts c) = 1 ∧ "useContext" ∈ hookNames c).

(** The record [analyzeComponent] starts from. *)
Definition emptyComponentInfo (componentName' relativePath : string)
  : ComponentInfo :=
  {| name := componentName'; filePath := relativePath;
     hooks := []; states := []; contexts := []; props := [];
     description := None; storeUsage := None |}.

(** ** The visitors without Babel's check

    The same visitors, with the nested count taken as a plain walk of
    the scope block and never refused.  They are no functions of the
    program: they serve the proofs.  The extraction either throws or
    returns the record these visitors build (lemma
    [extractComponentDetails_unchecked]), so what is proved of that
    record holds of every record the program returns. *)

Definition uncheckedCount (p : NodePath) (variableName : string) : nat :=
  length (List.filter (countsAsUsage variableName)
            (traverse (path_scope_block p))).

Definition uncheckedState (p : NodePath) : option StateInfo :=
  let args := node_arguments (path_node p) in
  let '(stateName, setterName) :=
    match path_parent p with
    | VariableDeclarator (ArrayPattern els) _ =>
        if (2 <=? length els)%nat
        then (identifierName (mjoin (els !! 0)),
              identifierName (mjoin (els !! 1)))
        else (None, None)
    | _ => (None, None)
    end in
  if noName stateName || noName setterName then None
  else
    let stateName := default EmptyString stateName in
    let setterName := default EmptyString setterName in
    Some {| state_name := stateName;
            state_initialValue := initialValueOf args;
            state_setter := setterName;
            state_usageCount := Some (uncheckedCount p stateName) |}.

Definition uncheckedRecordHook (p : NodePath) (componentInfo : ComponentInfo)
  : ComponentInfo :=
  if isHookCall p then
    let hookName := calleeName p in
    if negb (existsb (fun h => String.eqb (hook_name h) hookName)
               (hooks componentInfo))
    then
      let componentInfo := pushHook (extractHookInfo p) componentInfo in
      let componentInfo :=
        if String.eqb hookName "useState" then
          match uncheckedState p with
          | Some stateInfo => pushState stateInfo componentInfo
          | None => componentInfo
          end
        else componentInfo in
      if String.eqb hookName "useContext" then
        match extractContextInfo p with
        | Some contextInfo =>
            if negb (existsb
                       (fun c => String.eqb (context_name c)
                                   (context_name contextInfo))
                       (contexts componentInfo))
            then pushContext contextInfo componentInfo
            else componentInfo
        | None => componentInfo
        end
      else componentInfo
    else componentInfo
  else componentInfo.

Definition uncheckedVisitor (componentInfo : ComponentInfo) (p : NodePath)
  : ComponentInfo :=
  match path_node p with
  | CallExpression _ _ _ =>
      detectStoreUsage p (uncheckedRecordHook p componentInfo)
  | _ => componentInfo
  end.

Definition uncheckedDetails (ast : node) (componentInfo : ComponentInfo)
  : ComponentInfo :=
  fold_left uncheckedVisitor (traverse ast)
    {| name := name componentInfo;
       filePath := filePath componentInfo;
       hooks := []; states := []; contexts := [];
       props := props componentInfo;
       description := description componentInfo;
       storeUsage := Some [] |}.

End Analyzer.

(** ** The batch of files: [analyzeReactComponents] *)

Section Batch.
Context `{JsNumber}.

(** The loop of [analyzeReactComponents] over the files discovery
    returned: a file whose analysis yields null is passed over.
    Neither [findReactComponents] nor [analyzeComponent] lets an
    exception out, so the surrounding [try] has nothing to catch. *)
Definition analyzeReactComponents (env : Collaborators)
    (workspaceRoot : string) (componentFiles : list string)
  : list ComponentInfo :=
  if (length componentFiles =? 0)%nat then []
  else
    fold_left
      (fun components file =>
         match analyzeComponent env workspaceRoot file with
         | Some componentInfo => components ++ [componentInfo]
         | None => components
         end)
      componentFiles [].

(** [getStoreTypeName]: the heading of a store section in the exports. *)
Definition getStoreTypeName (type : StoreType) : string :=
  match type with
  | redux => "Redux"
  | mobx => "MobX"
  | recoil => "Recoil"
  | zustand => "Zustand"
  | jotai => "Jotai"
  | other => "Other"
  end.

(** The detection table of [detectStoreUsage]: the call names that
    feed an entry of each type. *)
Definition storeHooks (type : StoreType) : list string :=
  match type with
  | redux => ["useSelector"; "useDispatch"]
  | recoil => ["useRecoilState"; "useRecoilValue"]
  | zustand => ["useStore"]
  | jotai => ["useAtom"]
  | mobx | other => []
  end.

(** The store entries of a component, none if the field is unset. *)
Definition storesOf (c : ComponentInfo) : list StoreInfo :=
  default [] (storeUsage c).

(** A character that is neither a path separator nor a dot. *)
Definition plainChar (c : ascii) : bool :=
  negb (Ascii.eqb c "/" || Ascii.eqb c "\" || Ascii.eqb c ".")%char.

(** A character that is no path separator. *)
Definition noSeparator (c : ascii) : bool :=
  negb (Ascii.eqb c "/" || Ascii.eqb c "\")%char.

(** The first path of a traversal that calls the hook [hookName]. *)
Definition firstCall (hookName : string) (ps : list NodePath)
  : option NodePath :=
  List.find (fun p => bool_decide (hookCall p = Some hookName)) ps.

End Batch.

(** ** File discovery: [findReactComponents] *)

Section Discovery.

(** [path.join] and [path.extname] of Node. *)
Variable path_join : string -> string -> string.
Variable path_extname : string -> string.

(** A directory as [readdirSync(dir, { withFileTypes: true })] shows
    it: entries that are directories, with their own listing, and
    entries that are not.  A listing of [None] is a directory whose
    reading throws. *)
Inductive Dirent : Type :=
  | FileEntry (name : string)
  | DirectoryEntry (name : string) (listing : option (list Dirent)).

(** The directory the search starts in: [existsSync] may deny it. *)
Inductive StartDirectory : Type :=
  | Absent
  | Present (listing : option (list Dirent)).

Definition isReactComponentFile (fileName : string) : bool :=
  let reactExtensions := [".jsx"; ".tsx"; ".js"; ".ts"] in
  existsb (String.eqb (path_extname fileName)) reactExtensions.

(** [name !== 'node_modules' && name !== 'dist' && !name.startsWith('.')],
    negated. *)
Definition isExcludedDirectory (name : string) : bool :=
  String.eqb name "node_modules" || String.eqb name "dist" ||
  String.prefix "." name.

(** The body of the loop of [findComponentFilesRecursively] for one
    entry of [dirPath]; [results] is the array the calls share, [None]
    a thrown exception. *)
Fixpoint visitEntry (dirPath : string) (entry : Dirent)
    (results : list string) : option (list string) :=
  match entry with
  | DirectoryEntry name listing =>
      if negb (isExcludedDirectory name) then
        match listing with
        | Some entries =>
            forEach (visitEntry (path_join dirPath name)) entries results
        | None => None
        end
      else Some results
  | FileEntry name =>
      if isReactComponentFile name
      then Some (results ++ [path_join dirPath name])
      else Some results
  end.

Definition findComponentFilesRecursively (dirPath : string)
    (dir : StartDirectory) (results : list string) : option (list string) :=
  match dir with
  | Absent => Some results
  | Present None => None
  | Present (Some entries) => forEach (visitEntry dirPath) entries results
  end.

(** [findReactComponents]: any exception empties the answer. *)
Definition findReactComponents (workspaceRoot projectPath : string)
    (dir : StartDirectory) : list string :=
  let fullPath := path_join workspaceRoot projectPath in
  match findComponentFilesRecursively fullPath dir [] with
  | Some componentFiles => componentFiles
  | None => []
  end.

(** The files the search is after: component files of [dirPath] itself
    or of a directory below it that no excluded directory leads to. *)
Inductive ComponentFileIn : string -> list Dirent -> string -> Prop :=
  | component_file_here dirPath entries name :
      FileEntry name ∈ entries ->
      isReactComponentFile name = true ->
      ComponentFileIn dirPath entries (path_join dirPath name)
  | component_file_below dirPath entries name below file :
      DirectoryEntry name (Some below) ∈ entries ->
      isExcludedDirectory name = false ->
      ComponentFileIn (path_join dirPath name) below file ->
      ComponentFileIn dirPath entries file.

(** A directory that cannot be read, reached without passing an
    excluded one. *)
Inductive UnreadableIn : list Dirent -> Prop :=
  | unreadable_here entries name :
      DirectoryEntry name None ∈ entries ->
      isExcludedDirectory name = false ->
      UnreadableIn entries
  | unreadable_below entries name below :
      DirectoryEntry name (Some below) ∈ entries ->
      isExcludedDirectory name = false ->
      UnreadableIn below ->
      UnreadableIn entries.

End Discovery.

(** ** The NX workspace: [getProjects] and [getDependencies] *)

Section Nx.

(** A JavaScript object with string keys, as the list of its entries
    in key order.  Keys are project and package names, never array
    indices, so key order is insertion order. *)
Definition object (V : Type) : Type := list (string * V).

Definition objectKeys {V : Type} (o : object V) : list string := map fst o.

Definition mapHas {V : Type} (o : object V) (k : string) : bool :=
  existsb (String.eqb k) (objectKeys o).

(** [map.set(k, v)] and [o[k] = v]: a known key keeps its place. *)
Fixpoint mapSet {V : Type} (o : object V) (k : string) (v : V) : object V :=
  match o with
  | [] => [(k, v)]
  | (k', v') :: rest =>
      if String.eqb k' k then (k, v) :: rest else (k', v') :: mapSet rest k v
  end.

(** [{ ...a, ...b }]; a missing operand spreads nothing. *)
Definition spread {V : Type} (a b : option (object V)) : object V :=
  fold_left (fun o kv => mapSet o (fst kv) (snd kv)) (default [] b)
    (fold_left (fun o kv => mapSet o (fst kv) (snd kv)) (default [] a) []).

(** One project of [workspace.json]. *)
Record ProjectConfig := {
  config_root : option string;
  config_sourceRoot : option string;
  config_projectType : option string
}.

Record ProjectInfo := {
  project_name : string;
  project_root : option string;
  project_sourceRoot : option string;
  project_projectType : string
}.

Record DependencyInfo := {
  sourceProject : string;
  targetProject : string
}.

(** What [existsSync], [readFileSync] and [JSON.parse] make of a
    configuration file. *)
Inductive ConfigFile (A : Type) : Type :=
  | NoFile
  | Unparsable
  | Parsed (content : A).

Arguments NoFile {A}.
Arguments Unparsable {A}.
Arguments Parsed {A} content.

(** [workspace.json] or [angular.json]: its [projects], if any. *)
Record WorkspaceConfig := {
  config_projects : option (object ProjectConfig)
}.

Record PackageJson := {
  package_dependencies : option (object string);
  package_devDependencies : option (object string)
}.

(** The files an analysis reads.  [packageJson] is asked with the
    [root] of a project. *)
Record Workspace := {
  nxJson : bool;
  workspaceJson : ConfigFile WorkspaceConfig;
  angularJson : ConfigFile WorkspaceConfig;
  packageJson : string -> ConfigFile PackageJson
}.

(** [x || fallback] on an optional string. *)
Definition orElse (x fallback : option string) : option string :=
  match x with
  | Some s => if truthy s then Some s else fallback
  | None => fallback
  end.

Definition toProjectInfo (projectName : string) (config : ProjectConfig)
  : ProjectInfo :=
  {| project_name := projectName;
     project_root := config_root config;
     project_sourceRoot := orElse (config_sourceRoot config) (config_root config);
     project_projectType :=
       default "application"
         (orElse (config_projectType config) (Some "application")) |}.

Definition isNxWorkspace (w : Workspace) : bool := nxJson w.

(** [getProjects]: an exception leaves an empty map. *)
Definition getProjects (w : Workspace) : object ProjectInfo :=
  let workspaceConfig :=
    match workspaceJson w with
    | Parsed c => Some (Some c)
    | Unparsable => None
    | NoFile =>
        match angularJson w with
        | Parsed c => Some (Some c)
        | Unparsable => None
        | NoFile => Some None
        end
    end in
  match workspaceConfig with
  | None => []
  | Some None => []
  | Some (Some c) =>
      fold_left
        (fun projectsMap entry =>
           mapSet projectsMap (fst entry) (toProjectInfo (fst entry) (snd entry)))
        (default [] (config_projects c)) []
  end.

(** The inner loop of [getDependencies] for one project. *)
Definition projectDependencies (projects : object ProjectInfo)
    (projectName : string) (packageJson' : PackageJson)
    (dependencies : list DependencyInfo) : list DependencyInfo :=
  fold_left
    (fun dependencies dep =>
       if mapHas projects (fst dep)
       then dependencies ++
              [{| sourceProject := projectName; targetProject := fst dep |}]
       else dependencies)
    (spread (package_dependencies packageJson')
            (package_devDependencies packageJson'))
    dependencies.

(** The body of the outer loop: a project without [root] makes
    [path.join] throw, an unparsable [package.json] makes [JSON.parse]
    throw. *)
Definition visitProject (w : Workspace) (projects : object ProjectInfo)
    (entry : string * ProjectInfo) (dependencies : list DependencyInfo)
  : option (list DependencyInfo) :=
  match project_root (snd entry) with
  | None => None
  | Some root =>
      match packageJson w root with
      | NoFile => Some dependencies
      | Unparsable => None
      | Parsed packageJson' =>
          Some (projectDependencies projects (fst entry) packageJson'
                  dependencies)
      end
  end.

Definition getDependencies (w : Workspace) : list DependencyInfo :=
  let projects := getProjects w in
  match forEach (visitProject w projects) projects [] with
  | Some dependencies => dependencies
  | None => []
  end.

(** The graph [detectNxProject] hands to the view. *)
Record GraphNode := {
  node_id : string;
  node_label : string;
  node_title : string;
  node_type : string;
  node_path : option string
}.

Record GraphEdge := {
  edge_from : string;
  edge_to : string;
  edge_title : string
}.

Definition toGraphNode (project : ProjectInfo) : GraphNode :=
  {| node_id := project_name project;
     node_label := project_name project;
     node_title :=
       project_name project +:+ "<br>" +:+
       default "undefined" (project_root project);
     node_type := project_projectType project;
     node_path := project_root project |}.

Definition toGraphEdge (dep : DependencyInfo) : GraphEdge :=
  {| edge_from := sourceProject dep;
     edge_to := targetProject dep;
     edge_title := sourceProject dep +:+ " → " +:+ targetProject dep |}.

(** [detectNxProject]: nothing is drawn outside an NX workspace. *)
Definition dependencyGraph (w : Workspace)
  : option (list GraphNode * list GraphEdge) :=
  if isNxWorkspace w then
    Some (map (fun entry => toGraphNode (snd entry)) (getProjects w),
          map toGraphEdge (getDependencies w))
  else None.

End Nx.

Arguments NoFile {A}.
Arguments Unparsable {A}.
Arguments Parsed {A} content.

(** ** The component server: [findAvailablePort] *)

Section Server.

(** Whether a probe server can listen on a port. *)
Variable listens : nat -> bool.

(** The loop [for (port = start; port <= end; port++)], with the number
    of ports still to try. *)
Fixpoint probe (remaining port : nat) : option nat :=
  match remaining with
  | 0 => None
  | S remaining' =>
      if listens port then Some port else probe remaining' (S port)
  end.

(** [findAvailablePort(start, end)]; [None] is the error thrown when
    the range is exhausted. *)
Definition findAvailablePort (start last : nat) : option nat :=
  probe (S last - start) start.

End Server.

(** ** Worked inputs *)

Section Examples.
#[local] Existing Instance decimal_numbers.

Definition at_ (l c : nat) : option Position :=
  Some {| line := l; column := c |}.

Definition returnNull : node := ReturnStatement (Some NullLiteral).

(** [const [state, setter] = useState(init);] *)
Definition useStateDeclaration (state setter : string) (init : node)
    (loc : option Position) : node :=
  VariableDeclaration
    [VariableDeclarator
       (ArrayPattern [Some (Identifier state); Some (Identifier setter)])
       (Some (CallExpression (Identifier "useState") [init] loc))].

Definition component (componentName' : string) (statements : list node)
  : node :=
  FunctionDeclaration (Some (Identifier componentName')) []
    (BlockStatement statements).

Definition div (children' : list node) : node :=
  JSXElement (JSXOpeningElement (JSXIdentifier "div") []) children'
    (Some (JSXClosingElement (JSXIdentifier "div"))).

(** [function Counter() { const [n, setN] = useState(0);
      return <div>{n}{n}</div>; }] *)
Definition counterFile : node :=
  File (Program
    [component "Counter"
       [useStateDeclaration "n" "setN" (NumericLiteral 0%N "0") (at_ 1 38);
        ReturnStatement
          (Some (div [JSXExpressionContainer (Identifier "n");
                      JSXExpressionContainer (Identifier "n")]))]]).

(** [function Form() { const [a, setA] = useState(0);
      const [b, setB] = useState(1); return null; }] *)
Definition formFile : node :=
  File (Program
    [component "Form"
       [useStateDeclaration "a" "setA" (NumericLiteral 0%N "0") (at_ 2 26);
        useStateDeclaration "b" "setB" (NumericLiteral 1%N "1") (at_ 3 26);
        returnNull]]).

(** The path of the first [useState] call of [Form]: the block of its
    scope is the function. *)
Definition formPath : NodePath :=
  let call :=
    CallExpression (Identifier "useState") [NumericLiteral 0%N "0"]
      (at_ 2 26) in
  {| path_node := call;
     path_parent :=
       VariableDeclarator
         (ArrayPattern [Some (Identifier "a"); Some (Identifier "setA")])
         (Some call);
     path_scope_block :=
       component "Form"
         [useStateDeclaration "a" "setA" (NumericLiteral 0%N "0") (at_ 2 26);
          useStateDeclaration "b" "setB" (NumericLiteral 1%N "1") (at_ 3 26);
          returnNull] |}.

(** The two declarations of [Form] at the top level of the module
    [Form.tsx]: [const [a, setA] = useState(0);
    const [b, setB] = useState(1);] *)
Definition formModule : node :=
  File (Program
    [useStateDeclaration "a" "setA" (NumericLiteral 0%N "0") (at_ 1 26);
     useStateDeclaration "b" "setB" (NumericLiteral 1%N "1") (at_ 2 26)]).

(** The statements of [Counter] at the top level of the module
    [Counter.tsx]: [const [n, setN] = useState(0); <div>{n}{n}</div>;] *)
Definition counterModule : node :=
  File (Program
    [useStateDeclaration "n" "setN" (NumericLiteral 0%N "0") (at_ 1 26);
     ExpressionStatement
       (div [JSXExpressionContainer (Identifier "n");
             JSXExpressionContainer (Identifier "n")])]).

(** [function First() { return null; }
     function Second() { return null; }] *)
Definition twoComponentsFile : node :=
  File (Program [component "First" [returnNull];
                 component "Second" [returnNull]]).

(** [export const helper = () => null;] *)
Definition utilsFile : node :=
  File (Program
    [ExportNamedDeclaration
       (Some (VariableDeclaration
          [VariableDeclarator (Identifier "helper")
             (Some (ArrowFunctionExpression [] NullLiteral))]))]).

(** The statement [const [x, setX] = useState("hi");] as a module of
    its own, and the path of its call. *)
Definition greetingCall : node :=
  CallExpression (Identifier "useState") [StringLiteral "hi"] (at_ 1 18).

Definition greetingProgram : node :=
  Program
    [VariableDeclaration
       [VariableDeclarator
          (ArrayPattern [Some (Identifier "x"); Some (Identifier "setX")])
          (Some greetingCall)]].

Definition greetingFile : node := File greetingProgram.

Definition greetingPath : NodePath :=
  {| path_node := greetingCall;
     path_parent :=
       VariableDeclarator
         (ArrayPattern [Some (Identifier "x"); Some (Identifier "setX")])
         (Some greetingCall);
     path_scope_block := greetingProgram |}.

(** [const [limit, setLimit] = useState(1e3);] *)
Definition pagerLimit : node := NumericLiteral 1000%N "1e3".

Definition pagerFile : node :=
  File (Program
    [useStateDeclaration "limit" "setLimit" pagerLimit (at_ 1 26)]).

(** [function Feed() { useEffect(load, []); const ref = useRef(null);
      useEffect(track, [ref]); return null; }] *)
Definition feedFile : node :=
  File (Program
    [component "Feed"
       [ExpressionStatement
          (CallExpression (Identifier "useEffect")
             [Identifier "load"; ArrayExpression []] (at_ 2 2));
        VariableDeclaration
          [VariableDeclarator (Identifier "ref")
             (Some (CallExpression (Identifier "useRef") [NullLiteral]
                      (at_ 3 14)))];
        ExpressionStatement
          (CallExpression (Identifier "useEffect")
             [Identifier "track"; ArrayExpression [Some (Identifier "ref")]]
             (at_ 4 2));
        returnNull]]).

(** [function Panel() { useEffect(() => {}, [a, b]); return null; }]
    and the path of its [useEffect] call. *)
Definition effectCall : node :=
  CallExpression (Identifier "useEffect")
    [ArrowFunctionExpression [] (BlockStatement []);
     ArrayExpression [Some (Identifier "a"); Some (Identifier "b")]]
    (at_ 1 19).

Definition panelFile : node :=
  File (Program
    [component "Panel" [ExpressionStatement effectCall; returnNull]]).

Definition effectPath : NodePath :=
  {| path_node := effectCall;
     path_parent := ExpressionStatement effectCall;
     path_scope_block :=
       component "Panel" [ExpressionStatement effectCall; returnNull] |}.

(** [function Themed() { const theme = useContext(ThemeContext, extra);
      return null; }] *)
Definition themedCall : node :=
  CallExpression (Identifier "useContext")
    [Identifier "ThemeContext"; Identifier "extra"] (at_ 1 35).

Definition themedFile : node :=
  File (Program
    [component "Themed"
       [VariableDeclaration
          [VariableDeclarator (Identifier "theme") (Some themedCall)];
        returnNull]]).

Definition themedPath : NodePath :=
  {| path_node := themedCall;
     path_parent := VariableDeclarator (Identifier "theme") (Some themedCall);
     path_scope_block :=
       component "Themed"
         [VariableDeclaration
            [VariableDeclarator (Identifier "theme") (Some themedCall)];
          returnNull] |}.

(** [function Cart() { const { items, total } = useSelector(selectCart);
      const dispatch = useDispatch(); return null; }] *)
Definition cartFile : node :=
  File (Program
    [component "Cart"
       [VariableDeclaration
          [VariableDeclarator
             (ObjectPattern
                [ObjectProperty (Identifier "items") (Identifier "items");
                 ObjectProperty (Identifier "total") (Identifier "total")])
             (Some (CallExpression (Identifier "useSelector")
                      [Identifier "selectCart"] (at_ 1 44)))];
        VariableDeclaration
          [VariableDeclarator (Identifier "dispatch")
             (Some (CallExpression (Identifier "useDispatch") []
                      (at_ 2 19)))];
        returnNull]]).

(** Collaborators for a file whose text parses to [ast] and for which
    the props tool answers [docs]. *)
Definition collaboratorsFor (ast : node) (docs : option (list ComponentDoc))
  : Collaborators :=
  {| path_relative := fun _ file => file;
     readFileSync := fun _ => Some "source text";
     babelParse := fun _ => Some ast;
     docgenParse := fun _ => docs |}.

End Examples.

(** ** A worked workspace *)

Section WorkspaceExamples.

(** What the props tool answers for a file with two documented
    components, the first with a typed and an untyped property. *)
Definition buttonDocs : list ComponentDoc :=
  [ {| doc_description := "A button.";
       doc_props :=
         [ ("label", {| item_typeName := Some "string";
                        item_required := true;
                        item_defaultValue := None;
                        item_description := "Text of the button" |});
           ("onPress", {| item_typeName := None;
                          item_required := false;
                          item_defaultValue := None;
                          item_description := EmptyString |}) ] |};
    {| doc_description := "An icon."; doc_props := [] |} ].

(** [path.join] on two plain relative segments. *)
Definition joinSegments (a b : string) : string := a +:+ "/" +:+ b.

Fixpoint fromLastDot (s : string) : option string :=
  match s with
  | EmptyString => None
  | String c rest =>
      match fromLastDot rest with
      | Some ext => Some ext
      | None => if Ascii.eqb c "." then Some s else None
      end
  end.

(** [path.extname] on a file name without separators: the text from
    the last dot, a leading dot apart. *)
Definition extensionOf (fileName : string) : string :=
  match fileName with
  | String first rest =>
      if Ascii.eqb first "." then default EmptyString (fromLastDot rest)
      else default EmptyString (fromLastDot fileName)
  | EmptyString => EmptyString
  end.

(** <<
shop/
  App.tsx
  readme.md
  node_modules/      (unreadable)
  components/
    Button.jsx
    styles.css
    .cache/          (unreadable)
>> *)
Definition shopListing : list Dirent :=
  [ FileEntry "App.tsx";
    FileEntry "readme.md";
    DirectoryEntry "node_modules" None;
    DirectoryEntry "components"
      (Some [ FileEntry "Button.jsx";
              FileEntry "styles.css";
              DirectoryEntry ".cache" None ]) ].

(** The same project with a directory [assets] that cannot be read. *)
Definition lockedListing : list Dirent :=
  [ FileEntry "App.tsx";
    DirectoryEntry "components"
      (Some [ FileEntry "Button.jsx"; DirectoryEntry "assets" None ]) ].

(** <<
workspace.json: { "projects": {
  "shop": { "root": "apps/shop", "sourceRoot": "apps/shop/src" },
  "ui":   { "root": "libs/ui", "projectType": "library" } } }
apps/shop/package.json: {
  "dependencies":    { "ui": "*", "react": "18" },
  "devDependencies": { "ui": "*" } }
>> *)
Definition shopWorkspaceJson : WorkspaceConfig :=
  {| config_projects :=
       Some [ ("shop", {| config_root := Some "apps/shop";
                          config_sourceRoot := Some "apps/shop/src";
                          config_projectType := None |});
              ("ui", {| config_root := Some "libs/ui";
                        config_sourceRoot := None;
                        config_projectType := Some "library" |}) ] |}.

Definition shopPackageJson : PackageJson :=
  {| package_dependencies := Some [("ui", "*"); ("react", "18")];
     package_devDependencies := Some [("ui", "*")] |}.

Definition shopWorkspace : Workspace :=
  {| nxJson := true;
     workspaceJson := Parsed shopWorkspaceJson;
     angularJson := NoFile;
     packageJson := fun root =>
       if String.eqb root "apps/shop" then Parsed shopPackageJson
       else NoFile |}.

(** The same workspace beside an [angular.json] that does not parse. *)
Definition shopWorkspaceWithAngular : Workspace :=
  {| nxJson := true;
     workspaceJson := Parsed shopWorkspaceJson;
     angularJson := Unparsable;
     packageJson := packageJson shopWorkspace |}.

(** The same workspace with a [package.json] of [ui] that does not
    parse. *)
Definition brokenWorkspace : Workspace :=
  {| nxJson := true;
     workspaceJson := Parsed shopWorkspaceJson;
     angularJson := NoFile;
     packageJson := fun root =>
       if String.eqb root "apps/shop" then Parsed shopPackageJson
       else Unparsable |}.

(** Ports 3000 and 3001 are taken. *)
Definition portFree (port : nat) : bool := (3002 <=? port)%nat.

End WorkspaceExamples.

(** * Properties *)

Section Properties.
Context `{JsNumber}.

(** ** Folding a visitor over a traversal *)

Lemma fold_left_invariant {A B : Type} (P : A -> Prop) (f : A -> B -> A)
    (l : list B) (a : A) :
  P a -> (forall a' b, b ∈ l -> P a' -> P (f a' b)) -> P (fold_left f l a).
Proof.
  revert a. induction l as [|b l IH]; intros a Ha Hstep; simpl.
  - exact Ha.
  - apply IH.
    + apply Hstep; [left | exact Ha].
    + intros a' b' Hb'. apply Hstep. now right.
Qed.



Lemma forEach_cons {A R : Type} (body : A -> R -> option R) (x : A)
    (rest : list A) (acc : R) :
  forEach body (x :: rest) acc =
  match body x acc with
  | Some acc' => forEach body rest acc'
  | None => None
  end.
Proof. reflexivity. Qed.

(** ** The extraction throws or returns what the unchecked visitors build *)

Lemma countVariableUsage_unchecked (p : NodePath) (variableName : string) :
  countVariableUsage p variableName =
  if traversableWithoutScope (path_scope_block p)
  then Some (uncheckedCount p variableName) else None.
Proof. reflexivity. Qed.

(** The state extraction throws exactly for a call that declares a
    state in a scope other than the program's. *)
Lemma extractStateFromUseState_unchecked (p : NodePath) :
  extractStateFromUseState p =
  match uncheckedState p with
  | Some s =>
      if traversableWithoutScope (path_scope_block p) then Some (Some s)
      else None
  | None => Some None
  end.
Proof.
  unfold extractStateFromUseState, uncheckedState.
  destruct (match path_parent p with
            | VariableDeclarator (ArrayPattern els) _ =>
                if (2 <=? length els)%nat
                then (identifierName (mjoin (els !! 0)),
                      identifierName (mjoin (els !! 1)))
                else (None, None)
            | _ => (None, None)
            end) as [stateName setterName].
  destruct (noName stateName || noName setterName); [reflexivity|].
  cbv zeta. rewrite countVariableUsage_unchecked.
  now destruct (traversableWithoutScope (path_scope_block p)).
Qed.

Lemma recordHook_unchecked (p : NodePath) (c c' : ComponentInfo) :
  recordHook p c = Some c' -> c' = uncheckedRecordHook p c.
Proof.
  unfold recordHook, uncheckedRecordHook.
  destruct (isHookCall p); [|now intros [= <-]].
  destruct (negb _); [|now intros [= <-]].
  cbv zeta. rewrite extractStateFromUseState_unchecked.
  destruct (String.eqb (calleeName p) "useState").
  - destruct (uncheckedState p) as [s|];
      [destruct (traversableWithoutScope (path_scope_block p));
         [|discriminate]|];
      simpl; now intros [= <-].
  - simpl. now intros [= <-].
Qed.

Lemma callVisitor_unchecked (c : ComponentInfo) (p : NodePath)
    (c' : ComponentInfo) :
  callVisitor c p = Some c' -> c' = uncheckedVisitor c p.
Proof.
  unfold callVisitor, uncheckedVisitor.
  destruct (path_node p); try (now intros [= <-]).
  destruct (recordHook p c) as [c''|] eqn:Hrecord; [|discriminate].
  simpl. intros [= <-]. now rewrite (recordHook_unchecked p c c'' Hrecord).
Qed.

Lemma forEach_callVisitor_unchecked (ps : list NodePath)
    (c c' : ComponentInfo) :
  forEach (fun p componentInfo => callVisitor componentInfo p) ps c = Some c' ->
  c' = fold_left uncheckedVisitor ps c.
Proof.
  revert c. induction ps as [|p ps IH]; intros c.
  - now intros [= <-].
  - rewrite forEach_cons.
    destruct (callVisitor c p) as [c''|] eqn:Hvisit; [|discriminate].
    intros Hrest. simpl.
    rewrite <- (callVisitor_unchecked c p c'' Hvisit). now apply IH.
Qed.

Lemma extractComponentDetails_unchecked (ast : node)
    (info c : ComponentInfo) :
  extractComponentDetails ast info = Some c -> c = uncheckedDetails ast info.
Proof. apply forEach_callVisitor_unchecked. Qed.

(** ** The shape of a traversal *)

Lemma flat_map_holes {B : Type} (f : node -> list B) (es : list (option node)) :
  flat_map (fun o => match o with Some x => f x | None => [] end) es =
  flat_map f (omap id es).
Proof.
  induction es as [|[x|] es IH]; simpl; [reflexivity | now rewrite IH | exact IH].
Qed.

Lemma flat_map_option {B : Type} (f : node -> list B) (o : option node) :
  match o with Some x => f x | None => [] end = flat_map f (option_list o).
Proof. destruct o; simpl; [now rewrite app_nil_r | reflexivity]. Qed.

(** The walk of a node is its own path followed by the walks of its
    children. *)
Lemma walk_children (parent scope n : node) :
  walk parent scope n =
  {| path_node := n; path_parent := parent;
     path_scope_block := if isScope n parent then n else scope |} ::
  flat_map (walk n (if isScope n parent then n else scope)) (children n).
Proof.
  destruct n; simpl; f_equal;
    rewrite ?flat_map_holes, ?flat_map_option, ?flat_map_app; simpl;
    rewrite ?app_nil_r; reflexivity.
Qed.

(** Induction on a tree through the children of its nodes. *)
Lemma node_children_ind (P : node -> Prop) :
  (forall n, Forall P (children n) -> P n) -> forall n, P n.
Proof.
  intros Hstep. fix IH 1. intros n. apply Hstep.
  destruct n; simpl;
    repeat match goal with
      | |- Forall P [] => apply Forall_nil_2
      | |- Forall P (_ :: _) => apply Forall_cons_2; [apply IH|]
      | |- Forall P (_ ++ _) => apply Forall_app_2
      | |- Forall P (option_list ?o) => destruct o; simpl
      | |- Forall P (omap id ?es) =>
          induction es as [|[x|] es IHes]; simpl;
            [apply Forall_nil_2
            | apply Forall_cons_2; [apply IH | exact IHes]
            | exact IHes]
      | |- Forall P ?l =>
          is_var l; induction l as [|x l IHl];
            [apply Forall_nil_2 | apply Forall_cons_2; [apply IH | exact IHl]]
      end.
Qed.

Lemma elem_of_flat_map {A B : Type} (f : A -> list B) (l : list A) (y : B) :
  y ∈ flat_map f l <-> exists x, x ∈ l ∧ y ∈ f x.
Proof.
  rewrite list_elem_of_In, in_flat_map.
  split; intros (x & Hx & Hy); exists x;
    [rewrite !list_elem_of_In | rewrite <- !list_elem_of_In]; auto.
Qed.

Lemma map_flat_map {A B C : Type} (g : B -> C) (f : A -> list B) (l : list A) :
  map g (flat_map f l) = flat_map (fun x => map g (f x)) l.
Proof.
  induction l as [|x l IH]; simpl; [reflexivity|].
  now rewrite map_app, IH.
Qed.

Lemma flat_map_Forall_ext {A B : Type} (f g : A -> list B) (l : list A) :
  Forall (fun x => f x = g x) l -> flat_map f l = flat_map g l.
Proof. induction 1 as [|x l Hx _ IH]; simpl; [reflexivity | now rewrite Hx, IH]. Qed.

Lemma traverse_children (root : node) :
  traverse root = flat_map (walk root root) (children root).
Proof.
  unfold traverse. rewrite walk_children. now destruct (isScope root root).
Qed.

Lemma elem_of_walk (parent scope n : node) (p : NodePath) :
  p ∈ walk parent scope n <->
  p = {| path_node := n; path_parent := parent;
         path_scope_block := if isScope n parent then n else scope |} ∨
  exists c, c ∈ children n ∧
    p ∈ walk n (if isScope n parent then n else scope) c.
Proof. now rewrite walk_children, elem_of_cons, elem_of_flat_map. Qed.

(** Which nodes are visited, and below which parent, does not depend on
    the scope the walk starts in. *)
Lemma walk_shape (n : node) :
  forall parent scope scope',
    map shape (walk parent scope n) = map shape (walk parent scope' n).
Proof.
  induction n as [n IH] using node_children_ind. intros parent scope scope'.
  rewrite !walk_children. simpl. f_equal. rewrite !map_flat_map.
  apply flat_map_Forall_ext.
  eapply Forall_impl; [exact IH|]. intros c Hc. apply Hc.
Qed.

(** The walk of a visited node lies within the walk it was met in. *)
Lemma walk_descendants (n : node) :
  forall parent scope p, p ∈ walk parent scope n ->
  forall scope' q, q ∈ walk (path_parent p) scope' (path_node p) ->
    shape q ∈ map shape (walk parent scope n).
Proof.
  induction n as [n IH] using node_children_ind.
  intros parent scope p Hp scope' q Hq.
  apply elem_of_walk in Hp as [-> | (c & Hc & Hp)].
  - simpl in Hq. rewrite (walk_shape n parent scope scope').
    change (map shape ?l) with (shape <$> l). now apply list_elem_of_fmap_2.
  - rewrite Forall_forall in IH.
    specialize (IH c Hc _ _ p Hp scope' q Hq).
    rewrite walk_children. simpl. right.
    rewrite map_flat_map. apply elem_of_flat_map. now exists c.
Qed.

(** The scope block of a path is the scope the walk started in, or a
    scope node whose own walk contains the path. *)
Lemma scope_block_encloses (n : node) :
  forall parent scope p, p ∈ walk parent scope n ->
    path_scope_block p = scope ∨
    exists parent' scope',
      isScope (path_scope_block p) parent' = true ∧
      p ∈ walk parent' scope' (path_scope_block p).
Proof.
  induction n as [n IH] using node_children_ind.
  intros parent scope p Hp.
  pose proof Hp as Hin.
  apply elem_of_walk in Hp as [-> | (c & Hc & Hp)]; simpl.
  - destruct (isScope n parent) eqn:Hscope; [right | now left].
    exists parent, scope. now split.
  - rewrite Forall_forall in IH.
    destruct (IH c Hc _ _ p Hp) as [Hsame | Hinner]; [|now right].
    destruct (isScope n parent) eqn:Hscope; [right | now left].
    exists parent, scope. rewrite Hsame. now split.
Qed.

(** Below the root of a walk, every path has the path of its parent in
    the same walk, and inherits its scope unless it opens one. *)
Lemma parent_path (n : node) :
  forall parent scope p, p ∈ walk parent scope n ->
    p = {| path_node := n; path_parent := parent;
           path_scope_block := if isScope n parent then n else scope |} ∨
    exists p', p' ∈ walk parent scope n ∧
      path_node p' = path_parent p ∧
      path_scope_block p =
        if isScope (path_node p) (path_parent p) then path_node p
        else path_scope_block p'.
Proof.
  induction n as [n IH] using node_children_ind.
  intros parent scope p Hp.
  apply elem_of_walk in Hp as [-> | (c & Hc & Hp)]; [now left | right].
  rewrite Forall_forall in IH.
  destruct (IH c Hc _ _ p Hp) as [-> | (p' & Hp' & Hnode & Hscope)].
  - exists {| path_node := n; path_parent := parent;
              path_scope_block := if isScope n parent then n else scope |}.
    split; [apply elem_of_walk; now left | now split].
  - exists p'. split; [|now split].
    apply elem_of_walk. right. now exists c.
Qed.

(** ** Component identity *)

Lemma isPascalCase_truthy (s : string) :
  isPascalCase s = true -> truthy s = true.
Proof. destruct s; [discriminate | reflexivity]. Qed.

Lemma candidate_isPascalCase (n : node) (c : string) :
  candidate n = Some c -> isPascalCase c = true.
Proof.
  unfold candidate. intros Hc.
  repeat case_match; simplify_eq; try done.
  match goal with
  | Hn : name_of _ = Some c, Hp : isPascalCaseName _ = true |- _ =>
      rewrite Hn in Hp; exact Hp
  end.
Qed.

(** The visitor of [extractComponentName], read off the candidates: a
    candidate is stored whatever was held before; an anonymous default
    export stores the base name, if that is PascalCase and nothing was
    found so far; every other node is passed by. *)
Lemma nameVisitor_unfold (b : string) (st : NameSearch) (p : NodePath) :
  nameVisitor b st p =
  match candidate (path_node p) with
  | Some c => {| componentName := Some c; foundInAST := true |}
  | None =>
      if negb (foundInAST st) && anonymousDefaultExport (path_node p) &&
         isPascalCase b
      then {| componentName := Some b; foundInAST := true |}
      else st
  end.
Proof.
  destruct p as [n parent scope]. unfold nameVisitor, candidate. simpl.
  destruct n; simpl; try (now rewrite ?andb_false_r).
  - (* FunctionDeclaration *)
    match goal with
    | |- context [match ?o with Some _ => _ | None => _ end] =>
        destruct o as [i|]
    end; [|now rewrite andb_false_r].
    destruct (name_of i) as [x|]; simpl.
    + destruct (isPascalCase x); [reflexivity | now rewrite andb_false_r].
    + now rewrite andb_false_r.
  - (* VariableDeclarator *)
    match goal with
    | |- context [match ?i with Identifier _ => _ | _ => _ end] =>
        destruct i
    end; simpl; try (now rewrite ?andb_false_r).
    destruct init as [[]|]; simpl;
      rewrite ?andb_false_r; try reflexivity;
      rewrite ?andb_true_r; now destruct (isPascalCase _).
  - (* ExportDefaultDeclaration *)
    destruct (foundInAST st); simpl; [reflexivity|].
    match goal with
    | |- context [isFunctionValue ?d] => destruct d
    end; simpl; try reflexivity; try (now destruct (isPascalCase b)).
    match goal with
    | |- context [match ?o with Some _ => _ | None => _ end] => destruct o
    end; simpl; try reflexivity; now destruct (isPascalCase b).
Qed.

(** A candidate overwrites whatever name was held before it. *)
Lemma nameVisitor_candidate (b : string) (st : NameSearch) (p : NodePath)
    (c : string) :
  candidate (path_node p) = Some c ->
  nameVisitor b st p = {| componentName := Some c; foundInAST := true |}.
Proof. intros Hc. now rewrite nameVisitor_unfold, Hc. Qed.

(** Any other node leaves the search alone once a name was found. *)
Lemma nameVisitor_found (b : string) (st : NameSearch) (p : NodePath) :
  candidate (path_node p) = None -> foundInAST st = true ->
  nameVisitor b st p = st.
Proof. intros Hc Hf. now rewrite nameVisitor_unfold, Hc, Hf. Qed.

(** Without a candidate the visitor can only store the base name, and
    only a PascalCase one. *)
Lemma nameVisitor_fallback (b : string) (st : NameSearch) (p : NodePath) :
  candidate (path_node p) = None ->
  nameVisitor b st p = st ∨
  (isPascalCase b = true ∧
   nameVisitor b st p = {| componentName := Some b; foundInAST := true |}).
Proof.
  intros Hc. rewrite nameVisitor_unfold, Hc.
  destruct (isPascalCase b); [|rewrite andb_false_r; now left].
  destruct (_ && _ && _); [right | left]; done.
Qed.

Lemma name_search_last (b : string) (ps : list NodePath) (st : NameSearch)
    (c : string) :
  last (omap (fun p => candidate (path_node p)) ps) = Some c ->
  fold_left (nameVisitor b) ps st =
    {| componentName := Some c; foundInAST := true |}.
Proof.
  revert c. induction ps as [|p ps IH] using rev_ind; intros c; [done|].
  rewrite omap_app, fold_left_app. simpl.
  destruct (candidate (path_node p)) as [c'|] eqn:Hp; simpl.
  - rewrite last_snoc. intros [= <-]. now apply nameVisitor_candidate.
  - rewrite app_nil_r. intros Hl. rewrite (IH _ Hl).
    now apply nameVisitor_found.
Qed.

Lemma name_search_none (b : string) (ps : list NodePath) (st : NameSearch) :
  omap (fun p => candidate (path_node p)) ps = [] ->
  componentName st = None ∨
    (isPascalCase b = true ∧ componentName st = Some b) ->
  let st' := fold_left (nameVisitor b) ps st in
  componentName st' = None ∨
    (isPascalCase b = true ∧ componentName st' = Some b).
Proof.
  revert st. induction ps as [|p ps IH]; intros st Hnone Hst; [exact Hst|].
  simpl in *.
  destruct (candidate (path_node p)) as [c|] eqn:Hp; [discriminate|].
  apply IH; [exact Hnone|].
  destruct (nameVisitor_fallback b st p Hp) as [-> | [Hb ->]]; auto.
Qed.

Lemma last_candidate_truthy (ast : node) (c : string) :
  last (candidates ast) = Some c -> truthy c = true.
Proof.
  intros Hl. apply last_Some_elem_of in Hl.
  apply list_elem_of_omap in Hl as (p & _ & Hp).
  apply isPascalCase_truthy. eapply candidate_isPascalCase, Hp.
Qed.

(** Whatever [extractComponentName] returns is a non-empty string. *)
Lemma extractComponentName_truthy (file : string) (ast : node) (r : string) :
  extractComponentName file ast = Some r -> truthy r = true.
Proof.
  unfold extractComponentName.
  destruct (noName _) eqn:Hno.
  - destruct (isPascalCase _) eqn:Hb; [|discriminate].
    intros [= <-]. now apply isPascalCase_truthy.
  - destruct (componentName _) as [found|]; [|discriminate]. simpl in *.
    apply negb_false_iff in Hno.
    destruct (_ && _); intros [= <-]; [|exact Hno].
    now destruct found.
Qed.

(** The outer [try] of [analyzeComponent] once the text is read and
    parsed. *)
Lemma analyzeComponent_parsed (env : Collaborators) (root file content : string)
    (ast : node) :
  readFileSync env file = Some content -> babelParse env content = Some ast ->
  analyzeComponent env root file =
  match extractComponentName file ast with
  | Some found =>
      mergeProps (docgenParse env file) <$>
        extractComponentDetails ast
          (emptyComponentInfo found (path_relative env root file))
  | None => None
  end.
Proof.
  intros Hread Hparse. unfold analyzeComponent. rewrite Hread. simpl.
  rewrite Hparse. simpl.
  destruct (extractComponentName file ast) as [found|] eqn:Hname; [|done].
  apply extractComponentName_truthy in Hname. simpl. rewrite Hname. simpl.
  fold (emptyComponentInfo found (path_relative env root file)).
  now destruct (extractComponentDetails ast _).
Qed.

(** C3 (amended): among the candidates of rules (1) and (2) the last
    one in document order wins, not the first: whenever a file has a
    candidate, the resolved name is the last candidate, reported as it
    is or, when the file's base name is PascalCase and differs from it,
    as the composite of the two. *)
Theorem extractComponentName_last_candidate (file : string) (ast : node)
    (c : string) :
  last (candidates ast) = Some c ->
  extractComponentName file ast =
    Some (reportedName c (fileNameWithoutExt file)).
Proof.
  intros Hl. unfold extractComponentName, candidates in *.
  rewrite (name_search_last _ _ _ c Hl). simpl.
  rewrite (last_candidate_truthy ast c Hl). simpl.
  unfold reportedName. now destruct (_ && _).
Qed.

(** C4 (amended): when no node of the file is a candidate of rule (1)
    or (2), the resolver returns the file's base name whenever that
    name is PascalCase, with or without an anonymous default export,
    and null otherwise; in the latter case [analyzeComponent] returns
    no [ComponentInfo] for the file. *)
Theorem extractComponentName_without_candidate (file : string) (ast : node) :
  candidates ast = [] ->
  extractComponentName file ast =
    (if isPascalCase (fileNameWithoutExt file)
     then Some (fileNameWithoutExt file) else None) ∧
  (isPascalCase (fileNameWithoutExt file) = false ->
   forall (env : Collaborators) (root content : string),
     readFileSync env file = Some content ->
     babelParse env content = Some ast ->
     analyzeComponent env root file = None).
Proof.
  intros Hnone.
  assert (Hname : extractComponentName file ast =
                  if isPascalCase (fileNameWithoutExt file)
                  then Some (fileNameWithoutExt file) else None).
  { unfold extractComponentName.
    destruct (name_search_none (fileNameWithoutExt file) (traverse ast)
                {| componentName := None; foundInAST := false |} Hnone)
      as [Hst | [Hb Hst]]; [now left | |].
    - now rewrite Hst.
    - rewrite Hst, Hb. simpl.
      rewrite (isPascalCase_truthy _ Hb). simpl.
      now rewrite String.eqb_refl. }
  split; [exact Hname|].
  intros Hb env root content Hread Hparse.
  rewrite (analyzeComponent_parsed env root file content ast Hread Hparse).
  now rewrite Hname, Hb.
Qed.

(** ** What the store branch and the hook branch leave alone *)

Lemma addStoreInfo_facts (c : ComponentInfo) (t : StoreType)
    (cat : StoreCategory) (x : string) :
  hooks (addStoreInfo c t cat x) = hooks c ∧
  states (addStoreInfo c t cat x) = states c ∧
  contexts (addStoreInfo c t cat x) = contexts c ∧
  props (addStoreInfo c t cat x) = props c ∧
  description (addStoreInfo c t cat x) = description c ∧
  name (addStoreInfo c t cat x) = name c ∧
  filePath (addStoreInfo c t cat x) = filePath c.
Proof. repeat split; reflexivity. Qed.

Lemma detectStoreUsage_facts (p : NodePath) (c : ComponentInfo) :
  hooks (detectStoreUsage p c) = hooks c ∧
  states (detectStoreUsage p c) = states c ∧
  contexts (detectStoreUsage p c) = contexts c ∧
  props (detectStoreUsage p c) = props c ∧
  description (detectStoreUsage p c) = description c ∧
  name (detectStoreUsage p c) = name c ∧
  filePath (detectStoreUsage p c) = filePath c.
Proof.
  unfold detectStoreUsage.
  repeat destruct (calleeIs p _); repeat split; reflexivity.
Qed.

Lemma uncheckedRecordHook_storeUsage (p : NodePath) (c : ComponentInfo) :
  storeUsage (uncheckedRecordHook p c) = storeUsage c.
Proof.
  unfold uncheckedRecordHook. repeat case_match; reflexivity.
Qed.

(** ** Hooks are recorded once per name *)

Lemma hook_registered (x : string) (hs : list HookInfo) :
  existsb (fun h => String.eqb (hook_name h) x) hs =
  bool_decide (x ∈ map hook_name hs).
Proof.
  induction hs as [|h hs IH]; cbn [existsb map].
  - symmetry. apply bool_decide_eq_false_2, not_elem_of_nil.
  - rewrite IH. destruct (String.eqb_spec (hook_name h) x) as [->|Hne]; simpl.
    + symmetry. apply bool_decide_eq_true_2. left.
    + apply bool_decide_ext. rewrite elem_of_cons.
      split; [now right | intros [Heq|Hin]; [congruence | exact Hin]].
Qed.

Lemma hookCall_isHookCall (p : NodePath) :
  (exists c args l, path_node p = CallExpression c args l) ->
  hookCall p = if isHookCall p then Some (calleeName p) else None.
Proof.
  intros (c & args & l & Hp). unfold hookCall, isHookCall, calleeName.
  rewrite Hp. simpl. destruct c; try reflexivity.
Qed.

Lemma uncheckedRecordHook_hookNames (p : NodePath) (c : ComponentInfo) :
  hookNames (uncheckedRecordHook p c) =
  if isHookCall p then addName (hookNames c) (calleeName p) else hookNames c.
Proof.
  unfold uncheckedRecordHook, addName, hookNames.
  destruct (isHookCall p); [|reflexivity].
  rewrite hook_registered.
  destruct (bool_decide _); simpl; [reflexivity|].
  repeat case_match; simpl; now rewrite map_app.
Qed.

Lemma uncheckedVisitor_hookNames (c : ComponentInfo) (p : NodePath) :
  hookNames (uncheckedVisitor c p) =
  match hookCall p with
  | Some x => addName (hookNames c) x
  | None => hookNames c
  end.
Proof.
  unfold uncheckedVisitor.
  destruct (path_node p) eqn:Hp;
    try (unfold hookCall; rewrite Hp; reflexivity).
  rewrite hookCall_isHookCall by eauto.
  unfold hookNames at 1.
  rewrite (proj1 (detectStoreUsage_facts p _)).
  fold (hookNames (uncheckedRecordHook p c)). rewrite uncheckedRecordHook_hookNames.
  now destruct (isHookCall p).
Qed.








(** ** Store entries carry one of the four detected tags *)

Lemma pushUnique_type (cat : StoreCategory) (x : string) (s : StoreInfo) :
  store_type (pushUnique cat x s) = store_type s.
Proof. unfold pushUnique. now destruct (existsb _ _), cat. Qed.

Lemma alterFirst_types (test : StoreInfo -> bool) (cat : StoreCategory)
    (x : string) (l : list StoreInfo) :
  map store_type (alterFirst test (pushUnique cat x) l) = map store_type l.
Proof.
  induction l as [|s l IH]; simpl; [reflexivity|].
  destruct (test s); simpl; [now rewrite pushUnique_type | now rewrite IH].
Qed.

Lemma Forall_store_type (P : StoreType -> Prop) (l : list StoreInfo) :
  Forall (fun s => P (store_type s)) l <-> Forall P (map store_type l).
Proof. symmetry. apply Forall_fmap. Qed.

Lemma addStoreInfo_detected (c : ComponentInfo) (t : StoreType)
    (cat : StoreCategory) (x : string) :
  t ∈ detectedStoreTypes -> storesDetected c ->
  storesDetected (addStoreInfo c t cat x).
Proof.
  unfold storesDetected, addStoreInfo. simpl. intros Ht Hc.
  rewrite (Forall_store_type (fun t' => t' ∈ detectedStoreTypes)) in *.
  rewrite alterFirst_types.
  destruct (List.find _ _); [exact Hc|].
  rewrite map_app. apply Forall_app. split; [exact Hc|].
  simpl. apply Forall_cons. split; [exact Ht | now apply Forall_nil].
Qed.

Lemma ensureStoreUsage_detected (c : ComponentInfo) :
  storesDetected c -> storesDetected (ensureStoreUsage c).
Proof. unfold storesDetected. simpl. now destruct (storeUsage c). Qed.

Lemma detectStoreUsage_detected (p : NodePath) (c : ComponentInfo) :
  storesDetected c -> storesDetected (detectStoreUsage p c).
Proof.
  intros Hc. apply ensureStoreUsage_detected in Hc. unfold detectStoreUsage.
  repeat (destruct (calleeIs p _);
          [apply addStoreInfo_detected;
           [unfold detectedStoreTypes; rewrite !elem_of_cons; tauto
           | exact Hc]|]).
  exact Hc.
Qed.

Lemma uncheckedVisitor_detected (c : ComponentInfo) (p : NodePath) :
  storesDetected c -> storesDetected (uncheckedVisitor c p).
Proof.
  intros Hc. unfold uncheckedVisitor. destruct (path_node p); try exact Hc.
  apply detectStoreUsage_detected. unfold storesDetected.
  now rewrite uncheckedRecordHook_storeUsage.
Qed.

Lemma uncheckedDetails_detected (ast : node) (info : ComponentInfo) :
  storesDetected (uncheckedDetails ast info).
Proof.
  unfold uncheckedDetails. apply fold_left_invariant.
  - constructor.
  - intros c p _. apply uncheckedVisitor_detected.
Qed.

Lemma mergeProps_facts (docs : option (list ComponentDoc)) (c : ComponentInfo) :
  hooks (mergeProps docs c) = hooks c ∧
  states (mergeProps docs c) = states c ∧
  contexts (mergeProps docs c) = contexts c ∧
  storeUsage (mergeProps docs c) = storeUsage c ∧
  name (mergeProps docs c) = name c ∧
  filePath (mergeProps docs c) = filePath c.
Proof. destruct docs as [[|doc docs]|]; repeat split; reflexivity. Qed.

(** Every record [analyzeComponent] returns is the extraction of a
    parsed tree, which did not throw, with the props merged in. *)
Lemma analyzeComponent_returns (env : Collaborators) (root file : string)
    (r : ComponentInfo) :
  analyzeComponent env root file = Some r ->
  exists (ast : node) (found : string) (c : ComponentInfo),
    extractComponentName file ast = Some found ∧
    extractComponentDetails ast
      (emptyComponentInfo found (path_relative env root file)) = Some c ∧
    r = mergeProps (docgenParse env file) c.
Proof.
  unfold analyzeComponent.
  destruct (readFileSync env file) as [content|]; simpl; [|done].
  destruct (babelParse env content) as [ast|]; simpl; [|done].
  destruct (extractComponentName file ast) as [found|] eqn:Hname; [|done].
  destruct (negb (truthy found)); [done|].
  fold (emptyComponentInfo found (path_relative env root file)).
  destruct (extractComponentDetails ast _) as [c|] eqn:Hc; [|done].
  simpl. intros [= <-]. now exists ast, found, c.
Qed.

Lemma analyzeComponent_Some (env : Collaborators) (root file : string)
    (r : ComponentInfo) :
  analyzeComponent env root file = Some r ->
  exists (ast : node) (found : string),
    extractComponentName file ast = Some found ∧
    r = mergeProps (docgenParse env file)
          (uncheckedDetails ast
             (emptyComponentInfo found (path_relative env root file))).
Proof.
  intros Hr.
  apply analyzeComponent_returns in Hr as (ast & found & c & Hname & Hc & ->).
  apply extractComponentDetails_unchecked in Hc as ->.
  now exists ast, found.
Qed.

(** C10: a store entry is only ever created with one of the tags redux,
    recoil, zustand and jotai; no entry of a record the extraction
    returns, and so none of a returned [ComponentInfo], is tagged mobx
    or other. *)
Theorem store_types_detected (ast : node) (info : ComponentInfo) :
  (forall c, extractComponentDetails ast info = Some c ->
     forall s, s ∈ default [] (storeUsage c) ->
       store_type s ∈ [redux; recoil; zustand; jotai] ∧
       store_type s ≠ mobx ∧ store_type s ≠ other) ∧
  (forall (env : Collaborators) (root file : string) (r : ComponentInfo),
     analyzeComponent env root file = Some r ->
     forall s, s ∈ default [] (storeUsage r) ->
       store_type s ∈ [redux; recoil; zustand; jotai] ∧
       store_type s ≠ mobx ∧ store_type s ≠ other).
Proof.
  assert (Htags : forall t : StoreType, t ∈ detectedStoreTypes ->
            t ∈ [redux; recoil; zustand; jotai] ∧ t ≠ mobx ∧ t ≠ other).
  { intros t Ht. split; [exact Ht|].
    unfold detectedStoreTypes in Ht.
    rewrite !elem_of_cons, elem_of_nil in Ht.
    destruct Ht as [->|[->|[->|[->|[]]]]]; split; discriminate. }
  split.
  - intros c Hc s Hs. apply Htags.
    apply extractComponentDetails_unchecked in Hc as ->.
    pose proof (uncheckedDetails_detected ast info) as Hall.
    unfold storesDetected in Hall. rewrite Forall_forall in Hall.
    now apply Hall.
  - intros env root file r Hr s Hs. apply Htags.
    apply analyzeComponent_Some in Hr as (ast' & found & _ & ->).
    rewrite (proj1 (proj2 (proj2 (proj2 (mergeProps_facts _ _))))) in Hs.
    pose proof (uncheckedDetails_detected ast'
                  (emptyComponentInfo found (path_relative env root file)))
      as Hall.
    unfold storesDetected in Hall. rewrite Forall_forall in Hall.
    now apply Hall.
Qed.

(** ** The state and context branches run at most once *)

Lemma uncheckedRecordHook_statesGuarded (p : NodePath) (c : ComponentInfo) :
  statesGuarded c -> statesGuarded (uncheckedRecordHook p c).
Proof.
  unfold statesGuarded, uncheckedRecordHook, hookNames. intros Hc.
  destruct (isHookCall p); [|exact Hc].
  rewrite hook_registered.
  case_bool_decide as Hreg; simpl; [exact Hc|].
  destruct (String.eqb_spec (calleeName p) "useState") as [Hname|Hname].
  - destruct Hc as [Hnil | [_ Hin]]; [|now rewrite Hname in Hreg].
    assert (Hhook : "useState" ∈ map hook_name (hooks c ++ [extractHookInfo p])).
    { rewrite map_app, elem_of_app. right. simpl. rewrite Hname. left. }
    rewrite Hname. simpl.
    destruct (uncheckedState p); simpl; rewrite Hnil; auto.
  - assert (Hgrow : forall x, x ∈ map hook_name (hooks c) ->
                      x ∈ map hook_name (hooks c ++ [extractHookInfo p])).
    { intros x Hx. rewrite map_app, elem_of_app. now left. }
    repeat case_match; simpl; destruct Hc as [Hnil | [Hlen Hin]]; auto.
Qed.

Lemma uncheckedRecordHook_contextsGuarded (p : NodePath) (c : ComponentInfo) :
  contextsGuarded c -> contextsGuarded (uncheckedRecordHook p c).
Proof.
  unfold contextsGuarded, uncheckedRecordHook, hookNames. intros Hc.
  destruct (isHookCall p); [|exact Hc].
  rewrite hook_registered.
  case_bool_decide as Hreg; simpl; [exact Hc|].
  assert (Hgrow : forall x, x ∈ map hook_name (hooks c) ->
                    x ∈ map hook_name (hooks c ++ [extractHookInfo p])).
  { intros x Hx. rewrite map_app, elem_of_app. now left. }
  destruct (String.eqb_spec (calleeName p) "useContext") as [Hname|Hname].
  - destruct Hc as [Hnil | [_ Hin]]; [|now rewrite Hname in Hreg].
    assert (Hhook : "useContext" ∈
                    map hook_name (hooks c ++ [extractHookInfo p])).
    { rewrite map_app, elem_of_app. right. simpl. rewrite Hname. left. }
    rewrite Hname. simpl.
    destruct (extractContextInfo p); simpl; rewrite ?Hnil; simpl;
      rewrite ?Hnil; auto.
  - destruct (calleeName p =? "useState")%string; simpl;
      [destruct (uncheckedState p); simpl|];
      destruct Hc as [Hnil | [Hlen Hin]]; auto.
Qed.

Lemma uncheckedVisitor_guarded (c : ComponentInfo) (p : NodePath) :
  statesGuarded c ∧ contextsGuarded c ->
  statesGuarded (uncheckedVisitor c p) ∧ contextsGuarded (uncheckedVisitor c p).
Proof.
  intros [Hs Hc]. unfold uncheckedVisitor.
  destruct (path_node p); try (split; assumption).
  pose proof (detectStoreUsage_facts p (uncheckedRecordHook p c))
    as (Hh & Hst & Hctx & _).
  unfold statesGuarded, contextsGuarded, hookNames. rewrite Hh, Hst, Hctx.
  split; [now apply uncheckedRecordHook_statesGuarded
         | now apply uncheckedRecordHook_contextsGuarded].
Qed.

(** However many [useState] calls a file has, at most one state is
    recorded, and at most one context. *)
Lemma states_at_most_one (ast : node) (info : ComponentInfo) :
  length (states (uncheckedDetails ast info)) <= 1 ∧
  length (contexts (uncheckedDetails ast info)) <= 1.
Proof.
  assert (Hg : statesGuarded (uncheckedDetails ast info) ∧
               contextsGuarded (uncheckedDetails ast info)).
  { unfold uncheckedDetails. apply fold_left_invariant.
    - split; now left.
    - intros c p _. apply uncheckedVisitor_guarded. }
  destruct Hg as [[Hs | [Hs _]] [Hc | [Hc _]]]; rewrite ?Hs, ?Hc; simpl; lia.
Qed.

(** A record the extraction returns has at most one state and at most
    one context, however many [useState] and [useContext] calls the
    file has. *)
Lemma returned_states_at_most_one (ast : node) (info c : ComponentInfo) :
  extractComponentDetails ast info = Some c ->
  length (states c) <= 1 ∧ length (contexts c) <= 1.
Proof.
  intros Hc. apply extractComponentDetails_unchecked in Hc as ->.
  apply states_at_most_one.
Qed.

(** ** The usage count includes the declaration *)

(** The walk of a declarator that binds an array pattern visits the
    first identifier of the pattern, below the pattern. *)
Lemma pattern_identifier_walk (parent scope : node)
    (els : list (option node)) (init : option node) (a : string) :
  els !! 0 = Some (Some (Identifier a)) ->
  exists q,
    q ∈ walk parent scope (VariableDeclarator (ArrayPattern els) init) ∧
    shape q = (Identifier a, ArrayPattern els).
Proof.
  destruct els as [|el els]; [discriminate|]. simpl. intros [= ->].
  eexists. split;
    [apply list_elem_of_further, list_elem_of_further, list_elem_of_here
    | reflexivity].
Qed.

(** From a path of a walk to the traversal of the root of that walk. *)
Lemma descendants_in_traverse (b parent scope : node) (p q : NodePath)
    (scope' : node) :
  p ∈ walk parent scope b ->
  q ∈ walk (path_parent p) scope' (path_node p) ->
  shape q <> (b, parent) ->
  exists q', q' ∈ traverse b ∧ shape q' = shape q.
Proof.
  intros Hp Hq Hne.
  pose proof (walk_descendants b parent scope p Hp scope' q Hq) as Hin.
  rewrite walk_children in Hin. simpl in Hin.
  apply elem_of_cons in Hin as [Hhead | Hin]; [contradiction|].
  assert (Hsame : map shape (flat_map (walk b (if isScope b parent then b
                                                else scope)) (children b)) =
                  map shape (traverse b)).
  { rewrite traverse_children, !map_flat_map.
    apply flat_map_Forall_ext, Forall_forall. intros c _. apply walk_shape. }
  rewrite Hsame in Hin.
  change (map shape ?l) with (shape <$> l) in Hin.
  apply list_elem_of_fmap in Hin as (q' & Hshape & Hq').
  now exists q'.
Qed.

(** The identifier an array pattern declares first is met by the
    traversal of the block of the scope its initialiser call sits in. *)
Lemma declared_name_in_scope (ast : node) (p : NodePath)
    (els : list (option node)) (init : option node) (a : string) :
  p ∈ traverse ast ->
  (exists c args l, path_node p = CallExpression c args l) ->
  path_parent p = VariableDeclarator (ArrayPattern els) init ->
  els !! 0 = Some (Some (Identifier a)) ->
  exists q,
    q ∈ traverse (path_scope_block p) ∧
    shape q = (Identifier a, ArrayPattern els).
Proof.
  intros Hp (c & args & l & Hcall) Hparent Hfirst.
  assert (Hwalk : p ∈ walk ast ast ast).
  { rewrite traverse_children in Hp. apply elem_of_flat_map in Hp.
    apply elem_of_walk. right. now destruct (isScope ast ast). }
  destruct (parent_path ast ast ast p Hwalk)
    as [-> | (p' & Hp' & Hnode & Hscope)].
  { simpl in *. congruence. }
  rewrite Hcall, Hparent in Hscope. simpl in Hscope.
  rewrite Hparent in Hnode.
  destruct (pattern_identifier_walk (path_parent p') (path_scope_block p')
              els init a Hfirst) as (q & Hq & Hshape).
  rewrite <- Hnode in Hq.
  destruct (scope_block_encloses ast ast ast p' Hp')
    as [Hroot | (parent' & scope' & Hopens & Henclosed)].
  - destruct (descendants_in_traverse ast ast ast p' q _ Hp' Hq)
      as (q' & Hq' & Hshape').
    + rewrite Hshape. intros [= Hid Hpat]. congruence.
    + exists q'. rewrite Hscope, Hroot. split; [exact Hq' | congruence].
  - destruct (descendants_in_traverse _ _ _ p' q _ Henclosed Hq)
      as (q' & Hq' & Hshape').
    + rewrite Hshape. intros [= Hid Hpat].
      rewrite <- Hid in Hopens. discriminate Hopens.
    + exists q'. rewrite Hscope. split; [exact Hq' | congruence].
Qed.

Lemma filter_nonempty {A : Type} (f : A -> bool) (l : list A) (x : A) :
  x ∈ l -> f x = true -> exists k, length (List.filter f l) = S k.
Proof.
  induction 1 as [x l | x y l _ IH]; intros Hx; simpl.
  - rewrite Hx. simpl. eauto.
  - destruct (f y); simpl; [eauto | now apply IH].
Qed.

(** Whenever a state is extracted from a visited call, its usage count
    includes the declaration of the state variable itself. *)
Lemma declaration_is_counted (ast : node) (p : NodePath) (s : StateInfo) :
  p ∈ traverse ast ->
  (exists c args l, path_node p = CallExpression c args l) ->
  uncheckedState p = Some s ->
  exists k, state_usageCount s = Some (S k).
Proof.
  intros Hp Hcall. unfold uncheckedState.
  destruct (path_parent p) eqn:Hparent; try discriminate.
  lazymatch type of Hparent with
  | _ = VariableDeclarator ?i _ => destruct i; try discriminate
  end.
  lazymatch type of Hparent with
  | _ = VariableDeclarator (ArrayPattern ?els) _ =>
      destruct (2 <=? length els)%nat; [|discriminate];
      destruct (els !! 0) as [[[]|]|] eqn:Hfirst; try discriminate
  end.
  simpl.
  match goal with
  | |- context [if ?b then None else _] => destruct b; [discriminate|]
  end.
  intros [= <-]. simpl.
  destruct (declared_name_in_scope ast p _ _ _ Hp Hcall Hparent Hfirst)
    as (q & Hq & Hshape).
  lazymatch type of Hshape with
  | _ = (Identifier ?a, _) =>
      destruct (filter_nonempty (countsAsUsage a)
                  (traverse (path_scope_block p)) q Hq) as [k Hk]
  end.
  - unfold countsAsUsage. injection Hshape as -> ->. simpl.
    now rewrite String.eqb_refl.
  - exists k. unfold uncheckedCount. now rewrite Hk.
Qed.

Lemma uncheckedRecordHook_states (p : NodePath) (c : ComponentInfo) :
  states (uncheckedRecordHook p c) = states c ∨
  exists s, uncheckedState p = Some s ∧
            states (uncheckedRecordHook p c) = states c ++ [s].
Proof.
  unfold uncheckedRecordHook.
  destruct (isHookCall p); [|now left].
  destruct (negb _); [|now left].
  destruct (calleeName p =? "useState")%string.
  - destruct (uncheckedState p) as [s|] eqn:Hs.
    + right. exists s. split; [reflexivity|].
      repeat case_match; reflexivity.
    + left. repeat case_match; reflexivity.
  - left. repeat case_match; reflexivity.
Qed.

(** Every state the extraction records has a usage count of at least
    one, whether or not the variable is used: its declaration in the
    array pattern is always among the counted identifiers. *)
Lemma recorded_states_count_declaration (ast : node) (info : ComponentInfo)
    (s : StateInfo) :
  s ∈ states (uncheckedDetails ast info) ->
  exists k, state_usageCount s = Some (S k).
Proof.
  revert s. unfold uncheckedDetails.
  apply (fold_left_invariant
           (fun c => forall s, s ∈ states c ->
                       exists k, state_usageCount s = Some (S k))).
  - intros s Hs. now apply elem_of_nil in Hs.
  - intros c p Hp Hc s. unfold uncheckedVisitor.
    destruct (path_node p) eqn:Hnode; try apply Hc.
    rewrite (proj1 (proj2 (detectStoreUsage_facts p (uncheckedRecordHook p c)))).
    destruct (uncheckedRecordHook_states p c) as [-> | (s' & Hs' & ->)]; [apply Hc|].
    rewrite elem_of_app, list_elem_of_singleton.
    intros [Hs | ->]; [now apply Hc|].
    eapply declaration_is_counted; [exact Hp | eauto | exact Hs'].
Qed.

(** ** Props and description are the props bridge's alone *)

Lemma uncheckedRecordHook_props (p : NodePath) (c : ComponentInfo) :
  props (uncheckedRecordHook p c) = props c ∧
  description (uncheckedRecordHook p c) = description c.
Proof. unfold uncheckedRecordHook. repeat case_match; split; reflexivity. Qed.

Lemma uncheckedDetails_props (ast : node) (info : ComponentInfo) :
  props (uncheckedDetails ast info) = props info ∧
  description (uncheckedDetails ast info) = description info.
Proof.
  unfold uncheckedDetails.
  apply (fold_left_invariant
           (fun c => props c = props info ∧ description c = description info)).
  - split; reflexivity.
  - intros c p _ [Hp Hd]. unfold uncheckedVisitor.
    destruct (path_node p); try (split; assumption).
    pose proof (detectStoreUsage_facts p (uncheckedRecordHook p c))
      as (_ & _ & _ & Hp' & Hd' & _).
    destruct (uncheckedRecordHook_props p c) as [Hp'' Hd''].
    split; congruence.
Qed.

(** ** The initial value of a state *)

Lemma length_append (s t : string) :
  String.length (s +:+ t) = String.length s + String.length t.
Proof. induction s as [|a s IH]; simpl; [reflexivity | now rewrite IH]. Qed.

(** The rendering of the first argument, whatever the scope. *)
Lemma uncheckedState_rendering (p : NodePath) (state setter : string)
    (more : list (option node)) (init : option node) :
  path_parent p =
    VariableDeclarator
      (ArrayPattern (Some (Identifier state) :: Some (Identifier setter)
                       :: more)) init ->
  truthy state = true -> truthy setter = true ->
  exists info,
    uncheckedState p = Some info ∧
    state_name info = state ∧ state_setter info = setter ∧
    state_initialValue info =
      match head (node_arguments (path_node p)) with
      | Some (StringLiteral v) => Some (dquote +:+ v +:+ dquote)
      | Some (NumericLiteral v _) => Some (number_toString v)
      | Some (BooleanLiteral true) => Some "true"
      | Some (BooleanLiteral false) => Some "false"
      | Some NullLiteral => Some "null"
      | Some (ArrayExpression _) => Some "[]"
      | Some (ObjectExpression _) => Some "{}"
      | _ => None
      end ∧
    forall v, head (node_arguments (path_node p)) = Some (StringLiteral v) ->
      exists text, state_initialValue info = Some text ∧
                   String.length text = String.length v + 2.
Proof.
  intros Hparent Hstate Hsetter. unfold uncheckedState.
  rewrite Hparent. simpl. rewrite Hstate, Hsetter. simpl.
  eexists. split; [reflexivity|]. simpl. repeat split.
  - destruct (node_arguments (path_node p)) as [|[] args]; try reflexivity.
    match goal with
    | |- context [BooleanLiteral ?b :: _] => now destruct b
    end.
  - intros v Hv.
    destruct (node_arguments (path_node p)) as [|a args]; [discriminate|].
    simpl in Hv. injection Hv as ->. simpl. eexists. split; [reflexivity|].
    rewrite !length_append. simpl. lia.
Qed.

(** C6 (amended): when the call sits at the top level of the module and
    is bound by an array pattern whose first two elements are
    identifiers, the state is returned and its initial value renders
    the first argument: a string literal as its value between double
    quotes (two characters longer than the value, so four characters
    for [useState("hi")]), a numeric literal as the [toString()] of its
    value, a boolean literal as true or false, null as null, any array
    literal as the text of the empty array, any object literal as the
    text of the empty object, and any other argument, or none, as no
    initial value. *)
Theorem initialValue_rendering (p : NodePath) (state setter : string)
    (more : list (option node)) (init : option node) :
  path_parent p =
    VariableDeclarator
      (ArrayPattern (Some (Identifier state) :: Some (Identifier setter)
                       :: more)) init ->
  truthy state = true -> truthy setter = true ->
  traversableWithoutScope (path_scope_block p) = true ->
  exists info,
    extractStateFromUseState p = Some (Some info) ∧
    state_name info = state ∧ state_setter info = setter ∧
    state_initialValue info =
      match head (node_arguments (path_node p)) with
      | Some (StringLiteral v) => Some (dquote +:+ v +:+ dquote)
      | Some (NumericLiteral v _) => Some (number_toString v)
      | Some (BooleanLiteral true) => Some "true"
      | Some (BooleanLiteral false) => Some "false"
      | Some NullLiteral => Some "null"
      | Some (ArrayExpression _) => Some "[]"
      | Some (ObjectExpression _) => Some "{}"
      | _ => None
      end ∧
    forall v, head (node_arguments (path_node p)) = Some (StringLiteral v) ->
      exists text, state_initialValue info = Some text ∧
                   String.length text = String.length v + 2.
Proof.
  intros Hparent Hstate Hsetter Hscope.
  destruct (uncheckedState_rendering p state setter more init
              Hparent Hstate Hsetter) as (info & Hinfo & Hfacts).
  exists info. split; [|exact Hfacts].
  now rewrite extractStateFromUseState_unchecked, Hinfo, Hscope.
Qed.

(** ** Dependency arrays *)

Lemma dependencyName_text (deps : list (option node)) :
  Forall namedDependency deps ->
  List.filter truthy (map dependencyName deps) = map dependencyText deps.
Proof.
  induction 1 as [|dep deps Hdep _ IH]; simpl; [reflexivity|].
  rewrite <- IH.
  destruct dep as [[]|]; simpl in *; try reflexivity.
  - rewrite Hdep. reflexivity.
  - match goal with
    | |- context [name_of ?c] => destruct c; simpl in *; try reflexivity
    end.
    + destruct Hdep as [Htruthy _].
      rewrite Htruthy. simpl. rewrite Htruthy. reflexivity.
    + destruct Hdep as [_ [y Hy]]. discriminate Hy.
Qed.

(** C7: for a call of useEffect, useMemo or useCallback whose second
    argument is an array literal, the dependencies are the textual
    identities of its elements in source order: the name of a bare
    identifier, the callee name of a call expression or a placeholder
    when the callee has no name, and a placeholder for anything else. *)
Theorem dependencies_in_source_order (p : NodePath) (hook : string)
    (first : node) (deps : list (option node)) (others : list node)
    (l : option Position) :
  path_node p =
    CallExpression (Identifier hook) (first :: ArrayExpression deps :: others)
      l ->
  hook ∈ ["useEffect"; "useMemo"; "useCallback"] ->
  Forall namedDependency deps ->
  hook_dependencies (extractHookInfo p) = Some (map dependencyText deps).
Proof.
  intros Hp Hhook Hdeps. unfold extractHookInfo, calleeName. rewrite Hp.
  simpl. rewrite dependencyName_text by exact Hdeps.
  rewrite !elem_of_cons, elem_of_nil in Hhook.
  destruct Hhook as [->|[->|[->|[]]]]; reflexivity.
Qed.

(** ** The props bridge *)

(** C8: when the props tool throws or returns an empty result, the
    component the extraction built is still returned, with empty
    [props] and no [description], and everything else as the
    extraction left it. *)
Theorem props_failure_keeps_component (env : Collaborators)
    (root file content : string) (ast : node) (found : string)
    (c : ComponentInfo) :
  readFileSync env file = Some content ->
  babelParse env content = Some ast ->
  extractComponentName file ast = Some found ->
  extractComponentDetails ast
    (emptyComponentInfo found (path_relative env root file)) = Some c ->
  docgenParse env file = None ∨ docgenParse env file = Some [] ->
  exists r,
    analyzeComponent env root file = Some r ∧
    props r = [] ∧ description r = None ∧
    r = c.
Proof.
  intros Hread Hparse Hname Hc Hdocs.
  rewrite (analyzeComponent_parsed env root file content ast Hread Hparse).
  rewrite Hname, Hc.
  assert (Hmerge : mergeProps (docgenParse env file) c = c)
    by (destruct Hdocs as [-> | ->]; reflexivity).
  simpl. rewrite Hmerge. exists c. split; [reflexivity|].
  apply extractComponentDetails_unchecked in Hc as ->.
  destruct (uncheckedDetails_props ast
              (emptyComponentInfo found (path_relative env root file)))
    as [Hprops Hdescription].
  repeat split; assumption.
Qed.

(** ** Context extraction *)

(** C9 (amended): [extractContextInfo] yields an entry exactly when the
    call has at least one argument and the first one is a bare
    identifier, whatever follows it; the entry is named after that
    identifier and holds the call position as its single usage
    location.  A call without arguments, or whose first argument is
    not an identifier, yields none. *)
Theorem extractContextInfo_first_argument (p : NodePath) :
  (forall x others,
     node_arguments (path_node p) = Identifier x :: others ->
     extractContextInfo p =
       Some {| context_name := x; context_type := None;
               context_usageLocations := [callLocation p];
               context_value := extractContextValue p |}) ∧
  ((forall x others, node_arguments (path_node p) <> Identifier x :: others) ->
   extractContextInfo p = None).
Proof.
  unfold extractContextInfo. split.
  - intros x others ->. reflexivity.
  - intros Hnot.
    destruct (node_arguments (path_node p)) as [|[] others]; try reflexivity.
    exfalso. eapply Hnot. reflexivity.
Qed.

End Properties.

(** * The properties at the worked inputs *)

(** The hand-written paths are the ones the traversal produces. *)
Lemma worked_paths_visited :
  traverse greetingFile !! 6 = Some greetingPath ∧
  traverse panelFile !! 5 = Some effectPath ∧
  traverse themedFile !! 7 = Some themedPath.
Proof. repeat split; reflexivity. Qed.

(** C1: two [useState] calls, each bound by a two-element array
    pattern, never give two [StateInfo] entries.  Inside the function
    of a component the first call makes the usage count throw, the
    extraction ends there and the file yields no [ComponentInfo] at
    all; at the top level of a module the component is returned with
    one [StateInfo], that of the first call, the second call being
    dropped with the hook of the same name. *)
Theorem two_useState_calls_one_state :
  (hookCallNames formFile = ["useState"; "useState"] ∧
   extractComponentDetails formFile
     (emptyComponentInfo "Form" "/ws/src/Form.tsx") = None ∧
   analyzeComponent (collaboratorsFor formFile None)
     "/ws" "/ws/src/Form.tsx" = None) ∧
  (hookCallNames formModule = ["useState"; "useState"] ∧
   (states <$> analyzeComponent (collaboratorsFor formModule None)
                 "/ws" "/ws/src/Form.tsx") =
     Some [{| state_name := "a"; state_initialValue := Some "0";
              state_setter := "setA"; state_usageCount := Some 1 |}]).
Proof. repeat split; reflexivity. Qed.

(** C2: for [const [n, setN] = useState(0); return <div>{n}{n}</div>;]
    no usage count of 2 is recorded.  In the function [Counter] the
    traversal of the scope block is refused, the count throws and the
    file yields no [ComponentInfo]; for the same statements at the top
    level of a module the count is 3: the [n] of the array pattern has
    the pattern as its parent, not the declarator, and is counted with
    the two uses. *)
Theorem usage_count_includes_declaration :
  ((fun p => countVariableUsage p "n") <$>
     firstCall "useState" (traverse counterFile)) = Some None ∧
  extractComponentDetails counterFile
    (emptyComponentInfo "Counter" "/ws/src/Counter.tsx") = None ∧
  analyzeComponent (collaboratorsFor counterFile None)
    "/ws" "/ws/src/Counter.tsx" = None ∧
  ((fun p => countVariableUsage p "n") <$>
     firstCall "useState" (traverse counterModule)) = Some (Some 3) ∧
  (map (fun s => (state_name s, state_usageCount s)) <$>
     (states <$> analyzeComponent (collaboratorsFor counterModule None)
                   "/ws" "/ws/src/Counter.tsx")) =
    Some [("n", Some 3)].
Proof. repeat split; reflexivity. Qed.

(** C3, as stated, fails: with the candidates First and Second, in
    this order, the resolved name is Second. *)
Lemma first_candidate_does_not_win :
  candidates twoComponentsFile = ["First"; "Second"] ∧
  extractComponentName "src/index.tsx" twoComponentsFile = Some "Second" ∧
  extractComponentName "src/index.tsx" twoComponentsFile <> Some "First".
Proof. split; [reflexivity|]. split; [reflexivity | discriminate]. Qed.

(** C3 (amended) at work: the last candidate, joined with the base
    name of the file. *)
Lemma extractComponentName_last_candidate_witness :
  last (candidates twoComponentsFile) = Some "Second" ∧
  extractComponentName "src/Panels.tsx" twoComponentsFile =
    Some "Second (Panels)".
Proof.
  split; [reflexivity|].
  apply (extractComponentName_last_candidate "src/Panels.tsx"
           twoComponentsFile "Second").
  reflexivity.
Defined.

(** C4, as stated, fails: a file without any default export, and
    without a candidate, still resolves to its PascalCase base name. *)
Lemma fallback_without_default_export :
  candidates utilsFile = [] ∧
  hasAnonymousDefaultExport utilsFile = false ∧
  extractComponentName "src/Utils.ts" utilsFile = Some "Utils".
Proof. repeat split; reflexivity. Qed.

(** C4 (amended) at work: no candidate and a base name that is not
    PascalCase. *)
Lemma extractComponentName_without_candidate_witness :
  candidates utilsFile = [] ∧
  extractComponentName "src/lib/utils.ts" utilsFile = None ∧
  analyzeComponent (collaboratorsFor utilsFile None)
    "/ws" "src/lib/utils.ts" = None.
Proof.
  destruct (extractComponentName_without_candidate "src/lib/utils.ts"
              utilsFile eq_refl) as [Hname Hnone].
  split; [reflexivity|]. split; [exact Hname|].
  apply (Hnone eq_refl (collaboratorsFor utilsFile None) "/ws" "source text");
    reflexivity.
Defined.


(** C6, as stated, fails twice: the initial value recorded for
    [useState("hi")] is the value between two double quotes, a string
    of four characters, not five; and a numeric literal is rendered
    from its value, not from its text: [useState(1e3)] records 1000. *)
Lemma initialValue_is_not_literal_text :
  ((map state_initialValue <$>
      (states <$> extractComponentDetails greetingFile
                    (emptyComponentInfo "Greeting" "src/Greeting.tsx"))) =
     Some [Some (dquote +:+ "hi" +:+ dquote)] ∧
   String.length (dquote +:+ "hi" +:+ dquote) = 4 ∧
   String.length (dquote +:+ "hi" +:+ dquote) <> 5) ∧
  ((map state_initialValue <$>
      (states <$> extractComponentDetails pagerFile
                    (emptyComponentInfo "Pager" "src/Pager.tsx"))) =
     Some [Some "1000"] ∧
   literalText pagerLimit = Some "1e3" ∧
   Some "1000" <> literalText pagerLimit).
Proof.
  split; (split; [reflexivity|]); (split; [reflexivity|]); discriminate.
Qed.

(** C6 (amended) at work. *)
Lemma initialValue_rendering_witness :
  exists info,
    extractStateFromUseState greetingPath = Some (Some info) ∧
    state_initialValue info = Some (dquote +:+ "hi" +:+ dquote).
Proof.
  destruct (initialValue_rendering greetingPath "x" "setX" [] (Some greetingCall)
              eq_refl eq_refl eq_refl eq_refl)
    as (info & Hinfo & _ & _ & Hvalue & _).
  exists info. split; [exact Hinfo | exact Hvalue].
Defined.

(** C7 at work: [useEffect(() => {}, [a, b])]. *)
Lemma dependencies_in_source_order_witness :
  hook_dependencies (extractHookInfo effectPath) = Some ["a"; "b"].
Proof.
  apply (dependencies_in_source_order effectPath "useEffect"
           (ArrowFunctionExpression [] (BlockStatement []))
           [Some (Identifier "a"); Some (Identifier "b")] [] (at_ 1 19)).
  - reflexivity.
  - left.
  - repeat constructor.
Defined.

(** C8 at work: the props tool throws. *)
Lemma props_failure_keeps_component_witness :
  exists r,
    analyzeComponent (collaboratorsFor cartFile None)
      "/ws" "/ws/src/Cart.tsx" = Some r ∧
    props r = [] ∧ description r = None ∧
    map hook_name (hooks r) = ["useSelector"; "useDispatch"].
Proof.
  destruct (props_failure_keeps_component (collaboratorsFor cartFile None)
              "/ws" "/ws/src/Cart.tsx" "source text" cartFile "Cart" _
              eq_refl eq_refl eq_refl eq_refl (or_introl eq_refl))
    as (r & Hr & Hprops & Hdescription & Hsame).
  exists r. repeat split; try assumption.
  rewrite Hsame. reflexivity.
Defined.

(** C9, as stated, fails: a [useContext] call with two arguments, the
    first a bare identifier, records a context. *)
Lemma second_argument_ignored :
  length (node_arguments (path_node themedPath)) = 2 ∧
  (context_name <$> extractContextInfo themedPath) = Some "ThemeContext" ∧
  (map context_name <$>
     (contexts <$> extractComponentDetails themedFile
                     (emptyComponentInfo "Themed" "src/Themed.tsx"))) =
    Some ["ThemeContext"].
Proof. repeat split; reflexivity. Qed.

(** C9 (amended) at work. *)
Lemma extractContextInfo_first_argument_witness :
  extractContextInfo themedPath =
    Some {| context_name := "ThemeContext"; context_type := None;
            context_usageLocations := [{| line := 1; column := 35 |}];
            context_value := Some "theme (from ThemeContext)" |}.
Proof.
  apply (proj1 (extractContextInfo_first_argument themedPath)
           "ThemeContext" [Identifier "extra"]).
  reflexivity.
Defined.

(** C10 at work: a selector and a dispatch give one redux entry. *)
Lemma store_types_detected_witness :
  exists c,
    extractComponentDetails cartFile
      (emptyComponentInfo "Cart" "src/Cart.tsx") = Some c ∧
    map store_type (default [] (storeUsage c)) = [redux] ∧
    forall s, s ∈ default [] (storeUsage c) ->
      store_type s <> mobx ∧ store_type s <> other.
Proof.
  eexists. split; [reflexivity|]. split; [reflexivity|].
  intros s Hs.
  apply (proj1 (store_types_detected cartFile
                  (emptyComponentInfo "Cart" "src/Cart.tsx")) _ eq_refl s Hs).
Defined.

(** * Further properties of the analyzer *)

Section MoreProperties.
Context `{JsNumber}.

(** ** The shape of a resolved name *)

(** X1: a resolved component name is never arbitrary text: it is a
    PascalCase name, or two different PascalCase names, the second
    being the base name of the file, in the form [Found (Base)]. *)
Theorem extractComponentName_shape (file : string) (ast : node) (r : string) :
  extractComponentName file ast = Some r ->
  isPascalCase r = true ∨
  exists found,
    isPascalCase found = true ∧
    isPascalCase (fileNameWithoutExt file) = true ∧
    found <> fileNameWithoutExt file ∧
    r = found +:+ " (" +:+ fileNameWithoutExt file +:+ ")".
Proof.
  unfold extractComponentName.
  destruct (last (candidates ast)) as [c|] eqn:Hlast.
  - assert (Hc : isPascalCase c = true).
    { apply last_Some_elem_of, list_elem_of_omap in Hlast as (p & _ & Hp).
      eapply candidate_isPascalCase, Hp. }
    unfold candidates in Hlast. rewrite (name_search_last _ _ _ c Hlast).
    simpl. rewrite (isPascalCase_truthy c Hc). simpl.
    destruct (String.eqb_spec c (fileNameWithoutExt file)) as [Heq|Hne]; simpl.
    + intros [= <-]. now left.
    + destruct (isPascalCase (fileNameWithoutExt file)) eqn:Hb;
        intros [= <-]; [right | now left].
      now exists c.
  - apply last_None in Hlast.
    destruct (name_search_none (fileNameWithoutExt file) (traverse ast)
                {| componentName := None; foundInAST := false |} Hlast)
      as [Hst | [Hb Hst]]; [now left | |]; rewrite Hst; simpl.
    + destruct (isPascalCase _) eqn:Hb; intros [= <-]. now left.
    + rewrite (isPascalCase_truthy _ Hb), String.eqb_refl. simpl.
      intros [= <-]. now left.
Qed.

(** ** The base name of a file *)

Lemma split_plain (is_sep : ascii -> bool) (s : string) :
  all_chars (fun c => negb (is_sep c)) s = true -> split is_sep s = [s].
Proof.
  induction s as [|c s IH]; simpl; [reflexivity|].
  intros [Hc Hs]%andb_true_iff.
  apply negb_true_iff in Hc. now rewrite Hc, (IH Hs).
Qed.

Lemma split_nonempty (is_sep : ascii -> bool) (s : string) :
  split is_sep s <> [].
Proof.
  destruct s as [|c s]; simpl; [discriminate|].
  destruct (is_sep c); [discriminate|]. now destruct (split is_sep s).
Qed.

(** Splitting at a separator splits the pieces. *)
Lemma split_app (is_sep : ascii -> bool) (a b : string) (c : ascii) :
  is_sep c = true ->
  split is_sep (a +:+ String c b) = split is_sep a ++ split is_sep b.
Proof.
  intros Hc. induction a as [|x a IH]; simpl.
  - now rewrite Hc.
  - rewrite IH. destruct (is_sep x); [reflexivity|].
    pose proof (split_nonempty is_sep a).
    now destruct (split is_sep a).
Qed.

Lemma List_last_app {A : Type} (l1 l2 : list A) (d : A) :
  l2 <> [] -> List.last (l1 ++ l2) d = List.last l2 d.
Proof.
  intros Hne. induction l1 as [|x l1 IH]; simpl; [reflexivity|].
  rewrite IH. destruct (l1 ++ l2) eqn:Happ; [|reflexivity].
  apply app_eq_nil in Happ as [_ ->]. contradiction.
Qed.

(** The last piece of a split only depends on what follows the last
    separator. *)
Lemma last_split_app (is_sep : ascii -> bool) (a b : string) (c : ascii) :
  is_sep c = true ->
  List.last (split is_sep (a +:+ String c b)) EmptyString =
  List.last (split is_sep b) EmptyString.
Proof.
  intros Hc. rewrite (split_app is_sep a b c Hc).
  apply List_last_app, split_nonempty.
Qed.

(** The first piece of a split is what precedes the first separator. *)
Lemma hd_split_app (is_sep : ascii -> bool) (a b : string) (c : ascii) :
  all_chars (fun x => negb (is_sep x)) a = true -> is_sep c = true ->
  List.hd EmptyString (split is_sep (a +:+ String c b)) = a.
Proof.
  intros Ha Hc. now rewrite (split_app is_sep a b c Hc), (split_plain is_sep a Ha).
Qed.

Lemma all_chars_weaken (f g : ascii -> bool) (s : string) :
  (forall c, f c = true -> g c = true) ->
  all_chars f s = true -> all_chars g s = true.
Proof.
  intros Hfg. induction s as [|c s IH]; simpl; [reflexivity|].
  intros [Hc Hs]%andb_true_iff. now rewrite (Hfg c Hc), (IH Hs).
Qed.

(** X2: the base name of a file is what stands between the last path
    separator, slash or backslash, and the first dot after it: the
    directories before it and everything from that dot on (a second
    extension as in [Button.test.tsx] included) do not matter. *)
Theorem fileNameWithoutExt_base (dir base rest : string) (sep : ascii) :
  sep = "/"%char ∨ sep = "\"%char ->
  all_chars plainChar base = true ->
  all_chars noSeparator rest = true ->
  fileNameWithoutExt (dir +:+ String sep (base +:+ String "."%char rest)) =
    base ∧
  fileNameWithoutExt (dir +:+ String sep base) = base.
Proof.
  intros Hsep Hbase Hrest. unfold fileNameWithoutExt.
  set (is_sep := fun c => (Ascii.eqb c "/" || Ascii.eqb c "\")%char).
  set (is_dot := fun c => Ascii.eqb c "."%char).
  assert (His : is_sep sep = true) by (destruct Hsep as [-> | ->]; reflexivity).
  assert (Hbase_sep : all_chars (fun c => negb (is_sep c)) base = true).
  { eapply all_chars_weaken; [|exact Hbase]. intros c. unfold plainChar, is_sep.
    destruct (Ascii.eqb c "/"), (Ascii.eqb c "\"); simpl; congruence. }
  assert (Hbase_dot : all_chars (fun c => negb (is_dot c)) base = true).
  { eapply all_chars_weaken; [|exact Hbase]. intros c. unfold plainChar, is_dot.
    destruct (Ascii.eqb c "/"), (Ascii.eqb c "\"), (Ascii.eqb c ".");
      simpl; congruence. }
  split.
  - rewrite (last_split_app is_sep dir _ sep His).
    assert (Hname : all_chars (fun c => negb (is_sep c))
                      (base +:+ String "."%char rest) = true).
    { clear Hbase_dot Hbase. induction base as [|x base IH]; simpl in *.
      - exact Hrest.
      - apply andb_true_iff in Hbase_sep as [-> Hb]. now apply IH. }
    rewrite (split_plain is_sep _ Hname). simpl.
    now apply hd_split_app.
  - rewrite (last_split_app is_sep dir _ sep His).
    rewrite (split_plain is_sep _ Hbase_sep). simpl.
    now rewrite (split_plain is_dot _ Hbase_dot).
Qed.

(** ** What a visited call adds *)

(** The hook branch of the visitor, read off the hook a path calls. *)
Lemma uncheckedVisitor_unfold (c : ComponentInfo) (p : NodePath) :
  hooks (uncheckedVisitor c p) =
    match hookCall p with
    | Some y =>
        if bool_decide (y ∈ hookNames c) then hooks c
        else hooks c ++ [extractHookInfo p]
    | None => hooks c
    end ∧
  states (uncheckedVisitor c p) =
    match hookCall p with
    | Some y =>
        if bool_decide (y ∈ hookNames c) then states c
        else if String.eqb y "useState"
             then states c ++ option_list (uncheckedState p)
             else states c
    | None => states c
    end ∧
  contexts (uncheckedVisitor c p) =
    match hookCall p with
    | Some y =>
        if bool_decide (y ∈ hookNames c) then contexts c
        else if String.eqb y "useContext"
             then match extractContextInfo p with
                  | Some contextInfo =>
                      if existsb (fun x => String.eqb (context_name x)
                                             (context_name contextInfo))
                           (contexts c)
                      then contexts c
                      else contexts c ++ [contextInfo]
                  | None => contexts c
                  end
             else contexts c
    | None => contexts c
    end.
Proof.
  unfold uncheckedVisitor.
  destruct (path_node p) eqn:Hp;
    try (unfold hookCall; rewrite Hp; repeat split; reflexivity).
  rewrite hookCall_isHookCall by eauto.
  destruct (detectStoreUsage_facts p (uncheckedRecordHook p c))
    as (-> & -> & -> & _).
  unfold uncheckedRecordHook. destruct (isHookCall p); [|repeat split; reflexivity].
  unfold hookNames. rewrite hook_registered.
  destruct (bool_decide _); simpl; [repeat split; reflexivity|].
  destruct (String.eqb_spec (calleeName p) "useState") as [Hs|Hs];
    destruct (String.eqb_spec (calleeName p) "useContext") as [Hc|Hc];
    try (rewrite Hs in Hc; discriminate Hc).
  - destruct (uncheckedState p); simpl;
      repeat split; rewrite ?app_nil_r; reflexivity.
  - destruct (extractContextInfo p); simpl; [|repeat split; reflexivity].
    destruct (existsb _ _); repeat split; reflexivity.
  - repeat split; reflexivity.
Qed.

Lemma hookCall_name (p : NodePath) (y : string) :
  hookCall p = Some y -> hook_name (extractHookInfo p) = y.
Proof.
  unfold hookCall, extractHookInfo, calleeName. simpl.
  destruct (path_node p) as [| | | | | | | | | | | | | | | | | | | |callee ? ?
                            | | | | | | | | | | | | | |]; try discriminate.
  destruct callee; try discriminate. simpl.
  destruct (String.prefix _ _); [|discriminate]. now intros [= <-].
Qed.

Lemma firstCall_cons (x : string) (p : NodePath) (ps : list NodePath) :
  firstCall x (p :: ps) =
  if bool_decide (hookCall p = Some x) then Some p else firstCall x ps.
Proof. reflexivity. Qed.

(** ** Every hook entry is the entry of the first call *)

Lemma fold_uncheckedVisitor_hooks (x : string) (ps : list NodePath)
    (c : ComponentInfo) :
  filter (fun h => hook_name h = x) (hooks (fold_left uncheckedVisitor ps c)) =
  filter (fun h => hook_name h = x) (hooks c) ++
  if bool_decide (x ∈ hookNames c) then []
  else match firstCall x ps with
       | Some p => [extractHookInfo p]
       | None => []
       end.
Proof.
  revert c. induction ps as [|p ps IH]; intros c.
  - simpl. destruct (bool_decide _); now rewrite app_nil_r.
  - simpl fold_left. rewrite IH, uncheckedVisitor_hookNames, firstCall_cons.
    rewrite (proj1 (uncheckedVisitor_unfold c p)).
    destruct (hookCall p) as [y|] eqn:Hy.
    + unfold addName.
      destruct (bool_decide (y ∈ hookNames c)) eqn:Hreg.
      * apply bool_decide_eq_true in Hreg.
        destruct (decide (y = x)) as [-> | Hne].
        -- rewrite !bool_decide_eq_true_2 by done. reflexivity.
        -- rewrite (bool_decide_eq_false_2 (Some y = Some x)) by congruence.
           reflexivity.
      * apply bool_decide_eq_false in Hreg.
        rewrite filter_app.
        destruct (decide (y = x)) as [-> | Hne].
        -- rewrite (bool_decide_eq_true_2 (x ∈ hookNames c ++ [x]))
             by (apply elem_of_app; right; left).
           rewrite (bool_decide_eq_false_2 (x ∈ hookNames c)) by exact Hreg.
           rewrite bool_decide_eq_true_2 by done.
           rewrite (filter_cons_True _ (extractHookInfo p))
             by (now apply hookCall_name).
           now rewrite app_nil_r.
        -- rewrite (filter_cons_False _ (extractHookInfo p))
             by (rewrite (hookCall_name p y Hy); exact Hne).
           rewrite (bool_decide_eq_false_2 (Some y = Some x)) by congruence.
           rewrite filter_nil, app_nil_r.
           rewrite (bool_decide_ext (x ∈ hookNames c ++ [y]) (x ∈ hookNames c));
             [reflexivity|].
           rewrite elem_of_app, list_elem_of_singleton. split; [|tauto].
           intros [Hin | Heq]; [exact Hin | congruence].
    + rewrite (bool_decide_eq_false_2 (None = Some x)) by discriminate.
      reflexivity.
Qed.

(** X3: for every hook name, the entries a returned record holds under
    that name are exactly one, built from the first call of that hook
    in document order (its position, its dependencies, its binding),
    or none when the file never calls it; later calls leave no trace
    in [hooks]. *)
Theorem hook_entry_is_first_call (ast : node) (info c : ComponentInfo)
    (hookName : string) :
  extractComponentDetails ast info = Some c ->
  filter (fun h => hook_name h = hookName) (hooks c) =
  match firstCall hookName (traverse ast) with
  | Some p => [extractHookInfo p]
  | None => []
  end.
Proof.
  intros Hc. apply extractComponentDetails_unchecked in Hc as ->.
  unfold uncheckedDetails. rewrite fold_uncheckedVisitor_hooks.
  reflexivity.
Qed.

(** ** States and contexts come from the first call alone *)

Lemma addName_elem (names : list string) (x y : string) :
  y ∈ addName names x <-> y ∈ names ∨ (y = x ∧ x ∉ names).
Proof.
  unfold addName. case_bool_decide as Hx.
  - split; [now left | intros [Hy | [_ Hn]]; [exact Hy | contradiction]].
  - rewrite elem_of_app, list_elem_of_singleton. tauto.
Qed.

Lemma fold_uncheckedVisitor_states (ps : list NodePath) (c : ComponentInfo) :
  states (fold_left uncheckedVisitor ps c) =
  states c ++
  if bool_decide ("useState" ∈ hookNames c) then []
  else match firstCall "useState" ps with
       | Some p => option_list (uncheckedState p)
       | None => []
       end.
Proof.
  revert c. induction ps as [|p ps IH]; intros c.
  - simpl. destruct (bool_decide _); now rewrite app_nil_r.
  - simpl fold_left. rewrite IH, uncheckedVisitor_hookNames, firstCall_cons.
    rewrite (proj1 (proj2 (uncheckedVisitor_unfold c p))).
    destruct (hookCall p) as [y|] eqn:Hy.
    + destruct (bool_decide (y ∈ hookNames c)) eqn:Hreg.
      * apply bool_decide_eq_true in Hreg.
        assert (Hsame : addName (hookNames c) y = hookNames c)
          by (unfold addName; now rewrite bool_decide_eq_true_2).
        rewrite Hsame.
        destruct (bool_decide ("useState" ∈ hookNames c)) eqn:Hstate;
          [reflexivity|].
        apply bool_decide_eq_false in Hstate.
        rewrite bool_decide_eq_false_2; [reflexivity|].
        intros [= ->]. contradiction.
      * apply bool_decide_eq_false in Hreg.
        destruct (String.eqb_spec y "useState") as [-> | Hne].
        -- rewrite (bool_decide_eq_true_2 ("useState" ∈ addName _ _))
             by (apply addName_elem; right; now split).
           rewrite (bool_decide_eq_false_2 ("useState" ∈ hookNames c))
             by exact Hreg.
           rewrite bool_decide_eq_true_2 by reflexivity.
           now rewrite app_nil_r.
        -- rewrite (bool_decide_eq_false_2 (Some y = Some "useState"))
             by congruence.
           rewrite (bool_decide_ext ("useState" ∈ addName (hookNames c) y)
                      ("useState" ∈ hookNames c)); [reflexivity|].
           rewrite addName_elem. split; [|tauto].
           intros [Hin | [Heq _]]; [exact Hin | congruence].
    + rewrite (bool_decide_eq_false_2 (None = Some "useState")) by discriminate.
      reflexivity.
Qed.

Lemma fold_uncheckedVisitor_contexts (ps : list NodePath) (c : ComponentInfo) :
  contextsGuarded c ->
  contexts (fold_left uncheckedVisitor ps c) =
  contexts c ++
  if bool_decide ("useContext" ∈ hookNames c) then []
  else match firstCall "useContext" ps with
       | Some p => option_list (extractContextInfo p)
       | None => []
       end.
Proof.
  revert c. induction ps as [|p ps IH]; intros c Hguard.
  - simpl. destruct (bool_decide _); now rewrite app_nil_r.
  - simpl fold_left.
    assert (Hguard' : contextsGuarded (uncheckedVisitor c p)).
    { destruct (path_node p) eqn:Hp;
        try (unfold uncheckedVisitor; rewrite Hp; exact Hguard).
      unfold uncheckedVisitor. rewrite Hp.
      destruct (detectStoreUsage_facts p (uncheckedRecordHook p c))
        as (Hh & _ & Hctx & _).
      unfold contextsGuarded, hookNames. rewrite Hh, Hctx.
      now apply uncheckedRecordHook_contextsGuarded. }
    rewrite (IH _ Hguard'), uncheckedVisitor_hookNames, firstCall_cons.
    rewrite (proj2 (proj2 (uncheckedVisitor_unfold c p))).
    destruct (hookCall p) as [y|] eqn:Hy.
    + destruct (bool_decide (y ∈ hookNames c)) eqn:Hreg.
      * apply bool_decide_eq_true in Hreg.
        assert (Hsame : addName (hookNames c) y = hookNames c)
          by (unfold addName; now rewrite bool_decide_eq_true_2).
        rewrite Hsame.
        destruct (bool_decide ("useContext" ∈ hookNames c)) eqn:Hctx;
          [reflexivity|].
        apply bool_decide_eq_false in Hctx.
        rewrite bool_decide_eq_false_2; [reflexivity|].
        intros [= ->]. contradiction.
      * apply bool_decide_eq_false in Hreg.
        destruct (String.eqb_spec y "useContext") as [-> | Hne].
        -- rewrite (bool_decide_eq_true_2 ("useContext" ∈ addName _ _))
             by (apply addName_elem; right; now split).
           rewrite (bool_decide_eq_false_2 ("useContext" ∈ hookNames c))
             by exact Hreg.
           rewrite bool_decide_eq_true_2 by reflexivity.
           destruct Hguard as [Hnil | [_ Hin]]; [|contradiction].
           rewrite Hnil. simpl.
           destruct (extractContextInfo p); now rewrite ?app_nil_r.
        -- rewrite (bool_decide_eq_false_2 (Some y = Some "useContext"))
             by congruence.
           rewrite (bool_decide_ext ("useContext" ∈ addName (hookNames c) y)
                      ("useContext" ∈ hookNames c)); [reflexivity|].
           rewrite addName_elem. split; [|tauto].
           intros [Hin | [Heq _]]; [exact Hin | congruence].
    + rewrite (bool_decide_eq_false_2 (None = Some "useContext"))
        by discriminate.
      reflexivity.
Qed.

(** One visit throws exactly when it is the first visit of a
    [useState] call and the state extraction of that call throws;
    otherwise it does what the unchecked visitor does. *)
Lemma callVisitor_throws (c : ComponentInfo) (p : NodePath) :
  callVisitor c p =
  if bool_decide (hookCall p = Some "useState") &&
     negb (bool_decide ("useState" ∈ hookNames c))
  then match extractStateFromUseState p with
       | None => None
       | Some _ => Some (uncheckedVisitor c p)
       end
  else Some (uncheckedVisitor c p).
Proof.
  unfold callVisitor, uncheckedVisitor.
  destruct (path_node p) eqn:Hp;
    try (unfold hookCall; rewrite Hp;
         rewrite (bool_decide_eq_false_2 (None = Some "useState"))
           by discriminate; reflexivity).
  rewrite hookCall_isHookCall by eauto.
  unfold recordHook, uncheckedRecordHook, hookNames.
  destruct (isHookCall p);
    [|rewrite (bool_decide_eq_false_2 (None = Some "useState"))
        by discriminate; reflexivity].
  rewrite hook_registered. cbv zeta.
  rewrite extractStateFromUseState_unchecked.
  destruct (String.eqb_spec (calleeName p) "useState") as [Hname|Hname].
  - rewrite Hname.
    rewrite (bool_decide_eq_true_2 (Some "useState" = Some "useState"))
      by reflexivity.
    destruct (bool_decide ("useState" ∈ map hook_name (hooks c)));
      [reflexivity|]. simpl.
    destruct (uncheckedState p) as [s|]; [|reflexivity].
    now destruct (traversableWithoutScope (path_scope_block p)).
  - rewrite (bool_decide_eq_false_2 (Some (calleeName p) = Some "useState"))
      by congruence.
    simpl. now destruct (bool_decide _).
Qed.

(** The extraction throws exactly when the state extraction of the
    first [useState] call of the traversal throws. *)
Lemma forEach_callVisitor_throws (ps : list NodePath) (c : ComponentInfo) :
  forEach (fun p componentInfo => callVisitor componentInfo p) ps c =
  match (if bool_decide ("useState" ∈ hookNames c) then None
         else firstCall "useState" ps) with
  | Some p =>
      match extractStateFromUseState p with
      | None => None
      | Some _ => Some (fold_left uncheckedVisitor ps c)
      end
  | None => Some (fold_left uncheckedVisitor ps c)
  end.
Proof.
  revert c. induction ps as [|p ps IH]; intros c.
  - simpl. now destruct (bool_decide _).
  - rewrite forEach_cons, callVisitor_throws, firstCall_cons. simpl fold_left.
    destruct (bool_decide (hookCall p = Some "useState")) eqn:Hcall.
    + apply bool_decide_eq_true in Hcall.
      destruct (bool_decide ("useState" ∈ hookNames c)) eqn:Hreg; simpl.
      * rewrite IH, uncheckedVisitor_hookNames, Hcall.
        apply bool_decide_eq_true in Hreg.
        rewrite bool_decide_eq_true_2; [reflexivity|].
        apply addName_elem. now left.
      * destruct (extractStateFromUseState p); [|reflexivity].
        rewrite IH, uncheckedVisitor_hookNames, Hcall.
        apply bool_decide_eq_false in Hreg.
        rewrite bool_decide_eq_true_2; [reflexivity|].
        apply addName_elem. right. now split.
    + apply bool_decide_eq_false in Hcall. simpl.
      rewrite IH, uncheckedVisitor_hookNames.
      assert (Hsame : bool_decide
                        ("useState" ∈ match hookCall p with
                                      | Some x => addName (hookNames c) x
                                      | None => hookNames c
                                      end) =
                      bool_decide ("useState" ∈ hookNames c)).
      { destruct (hookCall p) as [y|]; [|reflexivity].
        apply bool_decide_ext. rewrite addName_elem. split; [|tauto].
        intros [Hin | [Heq _]]; [exact Hin | congruence]. }
      now rewrite Hsame.
Qed.

Lemma extractComponentDetails_throws (ast : node) (info : ComponentInfo) :
  extractComponentDetails ast info =
  match firstCall "useState" (traverse ast) with
  | Some p =>
      match extractStateFromUseState p with
      | None => None
      | Some _ => Some (uncheckedDetails ast info)
      end
  | None => Some (uncheckedDetails ast info)
  end.
Proof.
  unfold extractComponentDetails, uncheckedDetails.
  now rewrite forEach_callVisitor_throws.
Qed.

(** X4: the states of a component are decided by its first [useState]
    call in document order alone.  When the state extraction of that
    call throws, and only then, the extraction throws; otherwise the
    states of the returned record are the state extracted from that
    call, or empty when that call is not bound by a suitable array
    pattern or when there is no such call, whatever the later
    [useState] calls look like. *)
Theorem states_from_first_useState (ast : node) (info : ComponentInfo) :
  (extractComponentDetails ast info = None <->
   exists p, firstCall "useState" (traverse ast) = Some p ∧
             extractStateFromUseState p = None) ∧
  (forall c, extractComponentDetails ast info = Some c ->
     states c =
     match firstCall "useState" (traverse ast) with
     | Some p =>
         match extractStateFromUseState p with
         | Some (Some s) => [s]
         | _ => []
         end
     | None => []
     end).
Proof.
  split.
  - rewrite extractComponentDetails_throws.
    destruct (firstCall "useState" (traverse ast)) as [p|].
    + destruct (extractStateFromUseState p) as [r|] eqn:Hp.
      * split; [discriminate|]. intros (q & [= <-] & Hq). congruence.
      * split; [|reflexivity]. intros _. now exists p.
    + split; [discriminate|]. now intros (q & [=] & _).
  - intros c Hc.
    pose proof (extractComponentDetails_unchecked ast info c Hc) as ->.
    rewrite extractComponentDetails_throws in Hc.
    unfold uncheckedDetails. rewrite fold_uncheckedVisitor_states. simpl.
    destruct (firstCall "useState" (traverse ast)) as [p|]; [|reflexivity].
    rewrite extractStateFromUseState_unchecked in Hc |- *.
    destruct (uncheckedState p) as [s|]; [|reflexivity].
    now destruct (traversableWithoutScope (path_scope_block p)).
Qed.

(** X24: a file whose first [useState] call declares a state anywhere
    but at the top level of the module is not analyzed at all: the call
    is bound by an array pattern that starts with two named
    identifiers, the block of its scope is no [Program], the usage
    count throws, and [analyzeComponent] returns nothing, whatever else
    the file holds and whatever the props tool answers. *)
Theorem analysis_fails_on_state_in_function (env : Collaborators)
    (root file content : string) (ast : node) (p : NodePath)
    (state setter : string) (more : list (option node))
    (init : option node) :
  readFileSync env file = Some content ->
  babelParse env content = Some ast ->
  firstCall "useState" (traverse ast) = Some p ->
  path_parent p =
    VariableDeclarator
      (ArrayPattern (Some (Identifier state) :: Some (Identifier setter)
                       :: more)) init ->
  truthy state = true -> truthy setter = true ->
  traversableWithoutScope (path_scope_block p) = false ->
  extractStateFromUseState p = None ∧
  analyzeComponent env root file = None.
Proof.
  intros Hread Hparse Hfirst Hparent Hstate Hsetter Hscope.
  assert (Hthrows : extractStateFromUseState p = None).
  { destruct (uncheckedState_rendering p state setter more init
                Hparent Hstate Hsetter) as (info & Hinfo & _).
    now rewrite extractStateFromUseState_unchecked, Hinfo, Hscope. }
  split; [exact Hthrows|].
  rewrite (analyzeComponent_parsed env root file content ast Hread Hparse).
  destruct (extractComponentName file ast) as [found|]; [|reflexivity].
  now rewrite extractComponentDetails_throws, Hfirst, Hthrows.
Qed.

(** X5: the contexts of a returned record are decided by the first
    [useContext] call in document order alone: a second context the
    component consumes is not recorded, and neither is any when the
    first call has no identifier as its first argument. *)
Theorem contexts_from_first_useContext (ast : node) (info c : ComponentInfo) :
  extractComponentDetails ast info = Some c ->
  contexts c =
  match firstCall "useContext" (traverse ast) with
  | Some p => option_list (extractContextInfo p)
  | None => []
  end.
Proof.
  intros Hc. apply extractComponentDetails_unchecked in Hc as ->.
  unfold uncheckedDetails. rewrite fold_uncheckedVisitor_contexts.
  - reflexivity.
  - now left.
Qed.

(** ** Store entries behave as a map of sets *)

Lemma find_hasType_None (t : StoreType) (l : list StoreInfo) :
  List.find (hasType t) l = None -> t ∉ map store_type l.
Proof.
  induction l as [|s l IH]; simpl; [intros _; apply not_elem_of_nil|].
  unfold hasType at 1. case_bool_decide as Hs; [discriminate|].
  intros Hl. rewrite not_elem_of_cons. split; [congruence | now apply IH].
Qed.

Lemma find_hasType_Some (t : StoreType) (l : list StoreInfo) (s : StoreInfo) :
  List.find (hasType t) l = Some s -> t ∈ map store_type l.
Proof.
  induction l as [|s' l IH]; simpl; [discriminate|].
  unfold hasType at 1. case_bool_decide as Hs.
  - intros _. rewrite Hs. left.
  - intros Hl. right. now apply IH.
Qed.

(** The entries after [addStoreInfo]: those before, with a fresh entry
    for a type not seen yet, and the name pushed onto the first entry
    of the type. *)
Lemma addStoreInfo_stores (c : ComponentInfo) (t : StoreType)
    (cat : StoreCategory) (x : string) :
  storesOf (addStoreInfo c t cat x) =
  alterFirst (hasType t) (pushUnique cat x)
    (if bool_decide (t ∈ map store_type (storesOf c)) then storesOf c
     else storesOf c ++ [{| store_type := t; store_actions := [];
                            store_selectors := [] |}]).
Proof.
  unfold storesOf, addStoreInfo. simpl.
  destruct (List.find _ _) as [s|] eqn:Hfind.
  - apply find_hasType_Some in Hfind. now rewrite bool_decide_eq_true_2.
  - apply find_hasType_None in Hfind. now rewrite bool_decide_eq_false_2.
Qed.

Lemma alterFirst_Forall (P : StoreInfo -> Prop) (test : StoreInfo -> bool)
    (f : StoreInfo -> StoreInfo) (l : list StoreInfo) :
  (forall s, P s -> test s = true -> P (f s)) ->
  Forall P l -> Forall P (alterFirst test f l).
Proof.
  intros Hf. induction 1 as [|s l Hs Hl IH]; simpl; [constructor|].
  destruct (test s) eqn:Ht; constructor; auto.
Qed.

Lemma pushUnique_elem (cat : StoreCategory) (x : string) (s : StoreInfo) :
  x ∈ storeCategory cat (pushUnique cat x s).
Proof.
  unfold pushUnique.
  destruct (existsb _ _) eqn:Hex.
  - apply existsb_exists in Hex as (y & Hy & Heq).
    apply String.eqb_eq in Heq as ->. now apply list_elem_of_In.
  - destruct cat; simpl; apply elem_of_app; right; left.
Qed.

Lemma pushUnique_idempotent (cat : StoreCategory) (x : string) (s : StoreInfo) :
  pushUnique cat x (pushUnique cat x s) = pushUnique cat x s.
Proof.
  pose proof (pushUnique_elem cat x s) as Hin.
  unfold pushUnique at 1.
  destruct (existsb _ _) eqn:Hex; [reflexivity|].
  exfalso. apply list_elem_of_In in Hin.
  assert (Htrue : existsb (String.eqb x)
                    (storeCategory cat (pushUnique cat x s)) = true).
  { apply existsb_exists. exists x. split; [exact Hin | apply String.eqb_refl]. }
  congruence.
Qed.

Lemma pushUnique_NoDup (cat : StoreCategory) (x : string) (s : StoreInfo) :
  NoDup (store_selectors s) ∧ NoDup (store_actions s) ->
  NoDup (store_selectors (pushUnique cat x s)) ∧
  NoDup (store_actions (pushUnique cat x s)).
Proof.
  intros [Hsel Hact]. unfold pushUnique.
  destruct (existsb _ _) eqn:Hex; [now split|].
  assert (Hnot : x ∉ storeCategory cat s).
  { intros Hin%list_elem_of_In.
    assert (existsb (String.eqb x) (storeCategory cat s) = true); [|congruence].
    apply existsb_exists. exists x. split; [exact Hin | apply String.eqb_refl]. }
  destruct cat; simpl in *; (split; [|]); try assumption;
    apply NoDup_app; (split; [assumption|]);
    (split; [intros y Hy ->%list_elem_of_singleton; contradiction
            | apply NoDup_singleton]).
Qed.

Lemma alterFirst_twice (test : StoreInfo -> bool) (f : StoreInfo -> StoreInfo)
    (l : list StoreInfo) :
  (forall s, test (f s) = test s) -> (forall s, f (f s) = f s) ->
  alterFirst test f (alterFirst test f l) = alterFirst test f l.
Proof.
  intros Htest Hf. induction l as [|s l IH]; simpl; [reflexivity|].
  destruct (test s) eqn:Hs; simpl.
  - now rewrite Htest, Hs, Hf.
  - now rewrite Hs, IH.
Qed.

Lemma alterFirst_elem (test : StoreInfo -> bool) (f : StoreInfo -> StoreInfo)
    (l : list StoreInfo) :
  (exists s, s ∈ l ∧ test s = true) ->
  exists s, test s = true ∧ f s ∈ alterFirst test f l.
Proof.
  induction l as [|s l IH]; intros (s0 & Hin & Ht).
  - now apply elem_of_nil in Hin.
  - simpl. destruct (test s) eqn:Hs.
    + exists s. split; [exact Hs | left].
    + apply elem_of_cons in Hin as [-> | Hin]; [congruence|].
      destruct IH as (s1 & Ht1 & Hin1); [now exists s0|].
      exists s1. split; [exact Ht1 | now right].
Qed.

Lemma ComponentInfo_eq (a b : ComponentInfo) :
  name a = name b -> filePath a = filePath b -> hooks a = hooks b ->
  states a = states b -> contexts a = contexts b -> props a = props b ->
  description a = description b -> storeUsage a = storeUsage b -> a = b.
Proof. destruct a, b; simpl; intros; subst; reflexivity. Qed.

(** X6: [addStoreInfo] inserts into a set: afterwards the name is in
    the given category of an entry of the given type, and adding the
    same name again changes nothing. *)
Theorem addStoreInfo_insert (c : ComponentInfo) (t : StoreType)
    (cat : StoreCategory) (x : string) :
  (exists s, s ∈ storesOf (addStoreInfo c t cat x) ∧
             store_type s = t ∧ x ∈ storeCategory cat s) ∧
  addStoreInfo (addStoreInfo c t cat x) t cat x = addStoreInfo c t cat x.
Proof.
  split.
  - rewrite addStoreInfo_stores.
    destruct (alterFirst_elem (hasType t) (pushUnique cat x)
                (if bool_decide (t ∈ map store_type (storesOf c))
                 then storesOf c
                 else storesOf c ++ [{| store_type := t; store_actions := [];
                                        store_selectors := [] |}]))
      as (s & Ht & Hin).
    + case_bool_decide as Hknown.
      * change (map store_type ?l) with (store_type <$> l) in Hknown.
        apply list_elem_of_fmap in Hknown as (s & -> & Hs).
        exists s. split; [exact Hs|]. unfold hasType.
        now apply bool_decide_eq_true_2.
      * eexists. split; [apply elem_of_app; right; left|].
        unfold hasType. now apply bool_decide_eq_true_2.
    + exists (pushUnique cat x s). split; [exact Hin|].
      split; [|apply pushUnique_elem].
      rewrite pushUnique_type. unfold hasType in Ht.
      now apply bool_decide_eq_true in Ht.
  - assert (Hstores : storesOf (addStoreInfo (addStoreInfo c t cat x) t cat x) =
                      storesOf (addStoreInfo c t cat x)).
    { rewrite (addStoreInfo_stores (addStoreInfo c t cat x)).
      rewrite bool_decide_eq_true_2.
      - rewrite addStoreInfo_stores. apply alterFirst_twice.
        + intros s. unfold hasType. now rewrite pushUnique_type.
        + apply pushUnique_idempotent.
      - rewrite addStoreInfo_stores, alterFirst_types.
        case_bool_decide as Hknown; [exact Hknown|].
        rewrite map_app. apply elem_of_app. right. left. }
    apply ComponentInfo_eq; try reflexivity.
    change (Some (storesOf (addStoreInfo (addStoreInfo c t cat x) t cat x)) =
            Some (storesOf (addStoreInfo c t cat x))).
    now rewrite Hstores.
Qed.

(** What the store branch of the visitor does to the entries: nothing,
    or one insertion named by the detection table. *)
Lemma detectStoreUsage_stores (p : NodePath) (c : ComponentInfo) :
  storesOf (detectStoreUsage p c) = storesOf c ∨
  exists t cat x h,
    h ∈ storeHooks t ∧ calleeIs p h = true ∧
    (cat = selectors ∨ (cat = actions ∧ t = redux ∧ x = dispatchMarker)) ∧
    storesOf (detectStoreUsage p c) = storesOf (addStoreInfo c t cat x).
Proof.
  assert (Hensure : forall t cat x,
            storesOf (addStoreInfo (ensureStoreUsage c) t cat x) =
            storesOf (addStoreInfo c t cat x)).
  { intros t cat x. rewrite !addStoreInfo_stores.
    now destruct c as [? ? ? ? ? ? ? [stores|]]. }
  unfold detectStoreUsage.
  destruct (calleeIs p "useSelector") eqn:H1.
  { right. exists redux, selectors, (selectorText p), "useSelector".
    rewrite Hensure. repeat split; auto. simpl. left. }
  destruct (calleeIs p "useDispatch") eqn:H2.
  { right. exists redux, actions, dispatchMarker, "useDispatch".
    rewrite Hensure. repeat split; auto. simpl. right. left. }
  destruct (calleeIs p "useRecoilState") eqn:H3.
  { right. exists recoil, selectors, (getCalleeArgumentName p), "useRecoilState".
    rewrite Hensure. repeat split; auto. simpl. left. }
  destruct (calleeIs p "useRecoilValue") eqn:H4.
  { right. exists recoil, selectors, (getCalleeArgumentName p), "useRecoilValue".
    rewrite Hensure. repeat split; auto. simpl. right. left. }
  destruct (calleeIs p "useStore") eqn:H5.
  { right. exists zustand, selectors, (selectorText p), "useStore".
    rewrite Hensure. repeat split; auto. simpl. left. }
  destruct (calleeIs p "useAtom") eqn:H6.
  { right. exists jotai, selectors, (getCalleeArgumentName p), "useAtom".
    rewrite Hensure. repeat split; auto. simpl. left. }
  left. now destruct c as [? ? ? ? ? ? ? [stores|]].
Qed.

Lemma storeHooks_use (t : StoreType) (h : string) :
  h ∈ storeHooks t -> String.prefix "use" h = true.
Proof.
  destruct t; simpl; rewrite ?elem_of_cons, elem_of_nil;
    intros Hh; repeat destruct Hh as [-> | Hh]; try reflexivity;
    contradiction.
Qed.

(** A store hook that is called is registered as a hook by the same
    visit. *)
Lemma store_hook_registered (p : NodePath) (c : ComponentInfo)
    (t : StoreType) (h : string) :
  h ∈ storeHooks t -> calleeIs p h = true -> h ∈ hookNames (uncheckedRecordHook p c).
Proof.
  intros Hh Hcallee. rewrite uncheckedRecordHook_hookNames.
  unfold calleeIs in Hcallee. unfold isHookCall, calleeName.
  destruct (node_callee (path_node p)) as [[]|]; try discriminate.
  apply String.eqb_eq in Hcallee as ->. simpl.
  rewrite (storeHooks_use t h Hh). apply addName_elem.
  destruct (decide (h ∈ hookNames c)); [now left | right; now split].
Qed.

Lemma uncheckedRecordHook_hookNames_grow (p : NodePath) (c : ComponentInfo) (x : string) :
  x ∈ hookNames c -> x ∈ hookNames (uncheckedRecordHook p c).
Proof.
  intros Hx. rewrite uncheckedRecordHook_hookNames.
  destruct (isHookCall p); [|exact Hx]. apply addName_elem. now left.
Qed.

(** The invariant the extraction keeps on its store entries. *)
Lemma extraction_stores_invariant (ast : node) (info : ComponentInfo) :
  let c := uncheckedDetails ast info in
  NoDup (map store_type (storesOf c)) ∧
  Forall (fun s => NoDup (store_selectors s) ∧ NoDup (store_actions s))
    (storesOf c) ∧
  Forall (fun s => store_actions s = [] ∨
                   (store_type s = redux ∧ store_actions s = [dispatchMarker]))
    (storesOf c) ∧
  Forall (fun t => exists h, h ∈ storeHooks t ∧ h ∈ hookNames c)
    (map store_type (storesOf c)).
Proof.
  unfold uncheckedDetails. apply fold_left_invariant.
  - simpl. repeat split; constructor.
  - intros c p _ (Htypes & Hsets & Hactions & Hhooks). unfold uncheckedVisitor.
    destruct (path_node p) eqn:Hp; try (repeat split; assumption).
    pose proof (detectStoreUsage_facts p (uncheckedRecordHook p c)) as (Hh & _).
    assert (Hstores : storesOf (uncheckedRecordHook p c) = storesOf c)
      by (unfold storesOf; now rewrite uncheckedRecordHook_storeUsage).
    assert (Hnames : hookNames (detectStoreUsage p (uncheckedRecordHook p c)) =
                     hookNames (uncheckedRecordHook p c))
      by (unfold hookNames; now rewrite Hh).
    rewrite Hnames.
    assert (Hhooks' : Forall (fun t => exists h, h ∈ storeHooks t ∧
                                         h ∈ hookNames (uncheckedRecordHook p c))
                        (map store_type (storesOf c))).
    { eapply Forall_impl; [exact Hhooks|]. intros t (h & Ht & Hin).
      exists h. split; [exact Ht | now apply uncheckedRecordHook_hookNames_grow]. }
    destruct (detectStoreUsage_stores p (uncheckedRecordHook p c))
      as [-> | (t & cat & x & h & Ht & Hcallee & Hcat & ->)];
      rewrite ?Hstores; [repeat split; assumption|].
    rewrite addStoreInfo_stores, Hstores, alterFirst_types.
    set (new := {| store_type := t; store_actions := [];
                   store_selectors := [] |}).
    assert (Hregistered : h ∈ hookNames (uncheckedRecordHook p c))
      by (eapply store_hook_registered; eauto).
    repeat split.
    + case_bool_decide as Hknown; [exact Htypes|].
      rewrite map_app. apply NoDup_app. split; [exact Htypes|].
      split; [|apply NoDup_singleton].
      intros t' Ht' ->%list_elem_of_singleton. contradiction.
    + apply alterFirst_Forall; [intros s Hs _; now apply pushUnique_NoDup|].
      case_bool_decide; [exact Hsets|].
      apply Forall_app. split; [exact Hsets|].
      apply Forall_singleton. split; constructor.
    + apply alterFirst_Forall.
      * intros s Hs Htype. unfold hasType in Htype.
        apply bool_decide_eq_true in Htype.
        destruct Hcat as [-> | (-> & -> & ->)].
        -- unfold pushUnique. destruct (existsb _ _); exact Hs.
        -- unfold pushUnique. cbn [storeCategory].
           destruct Hs as [Hnil | [_ Hone]].
           ++ rewrite Hnil. cbn [existsb store_type store_actions app].
              right. split; [exact Htype | reflexivity].
           ++ rewrite Hone. cbn [existsb]. rewrite String.eqb_refl.
              cbn [orb]. right. split; [exact Htype | exact Hone].
      * case_bool_decide; [exact Hactions|].
        apply Forall_app. split; [exact Hactions|].
        apply Forall_singleton. now left.
    + case_bool_decide; [exact Hhooks'|].
      rewrite map_app. apply Forall_app. split; [exact Hhooks'|].
      apply Forall_singleton. now exists h.
Qed.

Lemma getStoreTypeName_inj (a b : StoreType) :
  getStoreTypeName a = getStoreTypeName b -> a = b.
Proof. destruct a, b; simpl; intros Heq; congruence. Qed.

(** X7: the store usage of a component is a map keyed by library with
    sets as values: in every record the extraction returns, no two
    entries share a type, and no entry lists a selector or an action
    twice, however often the calls repeat. *)
Theorem storeUsage_map_of_sets (ast : node) (info c : ComponentInfo) :
  extractComponentDetails ast info = Some c ->
  NoDup (map store_type (storesOf c)) ∧
  forall s, s ∈ storesOf c ->
    NoDup (store_selectors s) ∧ NoDup (store_actions s).
Proof.
  intros Hc. apply extractComponentDetails_unchecked in Hc as ->.
  destruct (extraction_stores_invariant ast info) as (Htypes & Hsets & _).
  split; [exact Htypes|].
  intros s Hs. rewrite Forall_forall in Hsets. now apply Hsets.
Qed.

(** X8: actions are recorded for Redux only, and only as the one
    dispatch marker: in every record the extraction returns, every
    entry of another library has no actions, and a Redux entry has none
    or exactly the marker. *)
Theorem actions_only_dispatch (ast : node) (info c : ComponentInfo)
    (s : StoreInfo) :
  extractComponentDetails ast info = Some c ->
  s ∈ storesOf c ->
  store_actions s = [] ∨
  (store_type s = redux ∧ store_actions s = [dispatchMarker]).
Proof.
  intros Hc. apply extractComponentDetails_unchecked in Hc as ->.
  destruct (extraction_stores_invariant ast info) as (_ & _ & Hactions & _).
  rewrite Forall_forall in Hactions. apply Hactions.
Qed.

(** X9: store usage never appears without its hook: for every store
    entry of a record the extraction returns, one of the calls that
    feed entries of its type is among the recorded hooks of the same
    record. *)
Theorem store_entry_has_hook (ast : node) (info c : ComponentInfo)
    (s : StoreInfo) :
  extractComponentDetails ast info = Some c ->
  s ∈ storesOf c ->
  exists h,
    h ∈ storeHooks (store_type s) ∧
    h ∈ map hook_name (hooks c).
Proof.
  intros Hc. apply extractComponentDetails_unchecked in Hc as ->.
  destruct (extraction_stores_invariant ast info) as (_ & _ & _ & Hhooks).
  intros Hs. rewrite Forall_forall in Hhooks. apply Hhooks.
  change (map store_type ?l) with (store_type <$> l).
  now apply list_elem_of_fmap_2.
Qed.

(** X10: the store sections of an export have distinct headings, each
    one of Redux, Recoil, Zustand and Jotai; the headings MobX and
    Other are never printed for a record the extraction returns. *)
Theorem store_headings (ast : node) (info c : ComponentInfo) :
  extractComponentDetails ast info = Some c ->
  let headings :=
    map (fun s => getStoreTypeName (store_type s)) (storesOf c) in
  NoDup headings ∧
  forall heading, heading ∈ headings ->
    heading ∈ ["Redux"; "Recoil"; "Zustand"; "Jotai"].
Proof.
  intros Hc. apply extractComponentDetails_unchecked in Hc as ->.
  destruct (extraction_stores_invariant ast info) as (Htypes & _).
  intros headings. subst headings. split.
  - rewrite <- (map_map store_type getStoreTypeName).
    apply (NoDup_fmap_2_strong getStoreTypeName); [|exact Htypes].
    intros a b _ _. apply getStoreTypeName_inj.
  - intros heading Hin.
    change (map ?f ?l) with (f <$> l) in Hin.
    apply list_elem_of_fmap in Hin as (s & -> & Hs).
    pose proof (uncheckedDetails_detected ast info) as Hall.
    unfold storesDetected in Hall. rewrite Forall_forall in Hall.
    specialize (Hall s Hs). unfold detectedStoreTypes in Hall.
    rewrite !elem_of_cons, elem_of_nil in Hall.
    destruct Hall as [-> | [-> | [-> | [-> | []]]]]; simpl;
      rewrite !elem_of_cons; tauto.
Qed.

(** ** One file and many *)

Lemma typeNameOr_truthy (t : option string) : truthy (typeNameOr t) = true.
Proof. destruct t as [[|a s]|]; reflexivity. Qed.

(** X11: when the extraction of a file completes and the props tool
    documents the file, the component is returned and its props are
    those of the first documented component, one per property and in
    the tool's order, each with a non-empty type name ([unknown] where
    the tool gives none); the description is that of the first
    documented component; further documented components are ignored,
    and everything else is as the extraction left it. *)
Theorem props_from_first_doc (env : Collaborators)
    (root file content : string) (ast : node) (found : string)
    (c : ComponentInfo) (doc : ComponentDoc) (more : list ComponentDoc) :
  readFileSync env file = Some content ->
  babelParse env content = Some ast ->
  extractComponentName file ast = Some found ->
  extractComponentDetails ast
    (emptyComponentInfo found (path_relative env root file)) = Some c ->
  docgenParse env file = Some (doc :: more) ->
  exists r,
    analyzeComponent env root file = Some r ∧
    props r = map toPropInfo (doc_props doc) ∧
    map prop_name (props r) = map fst (doc_props doc) ∧
    (forall pr, pr ∈ props r -> truthy (prop_type pr) = true) ∧
    description r = Some (doc_description doc) ∧
    (name r, filePath r, hooks r, states r, contexts r, storeUsage r) =
    (name c, filePath c, hooks c, states c, contexts c, storeUsage c).
Proof.
  intros Hread Hparse Hname Hc Hdocs.
  rewrite (analyzeComponent_parsed env root file content ast Hread Hparse).
  rewrite Hname, Hc, Hdocs. eexists. split; [reflexivity|]. simpl.
  apply extractComponentDetails_unchecked in Hc as ->.
  rewrite (proj1 (uncheckedDetails_props ast _)). simpl.
  repeat split.
  - now rewrite map_map.
  - intros pr Hpr. change (map ?f ?l) with (f <$> l) in Hpr.
    apply list_elem_of_fmap in Hpr as (entry & -> & _).
    apply typeNameOr_truthy.
Qed.

(** X12: what the extraction found does not depend on the props tool:
    two analyses of the same file that differ only in what the props
    tool answers return components with the same name, path, hooks,
    states, contexts and store usage, or both return none. *)
Theorem analysis_independent_of_props_tool (env env' : Collaborators)
    (root file : string) :
  path_relative env = path_relative env' ->
  readFileSync env = readFileSync env' ->
  babelParse env = babelParse env' ->
  let facts := fun r : ComponentInfo =>
    (name r, filePath r, hooks r, states r, contexts r, storeUsage r) in
  facts <$> analyzeComponent env root file =
  facts <$> analyzeComponent env' root file.
Proof.
  intros Hrel Hread Hparse facts. unfold analyzeComponent.
  rewrite Hrel, Hread, Hparse.
  destruct (readFileSync env' file) as [content|]; [simpl|reflexivity].
  destruct (babelParse env' content) as [ast|]; [simpl|reflexivity].
  destruct (extractComponentName file ast) as [found|]; [|reflexivity].
  destruct (negb (truthy found)); [reflexivity|].
  match goal with
  | |- context [extractComponentDetails ast ?start] =>
      destruct (extractComponentDetails ast start) as [c|]; [|reflexivity]
  end.
  cbn [mbind option_bind fmap option_fmap option_map].
  f_equal. unfold facts.
  destruct (mergeProps_facts (docgenParse env file) c)
    as (-> & -> & -> & -> & -> & ->).
  destruct (mergeProps_facts (docgenParse env' file) c)
    as (-> & -> & -> & -> & -> & ->).
  reflexivity.
Qed.

(** X13: in every component an analysis returns, each state has a
    usage count of at least one: the count includes the declaration of
    the state variable, so it is never zero, used or not. *)
Theorem returned_states_are_counted (env : Collaborators) (root file : string)
    (r : ComponentInfo) (s : StateInfo) :
  analyzeComponent env root file = Some r -> s ∈ states r ->
  exists k, state_usageCount s = Some (S k).
Proof.
  intros Hr Hs.
  apply analyzeComponent_Some in Hr as (ast & found & _ & ->).
  rewrite (proj1 (proj2 (mergeProps_facts _ _))) in Hs.
  eapply recorded_states_count_declaration, Hs.
Qed.

Lemma analyzeReactComponents_omap (env : Collaborators) (root : string)
    (files : list string) :
  analyzeReactComponents env root files =
  omap (analyzeComponent env root) files.
Proof.
  unfold analyzeReactComponents.
  destruct files as [|file files]; [reflexivity|].
  change (length (file :: files) =? 0)%nat with false. cbv iota.
  generalize (file :: files) as l. clear file files. intros l.
  assert (Hgen : forall acc,
            fold_left
              (fun components f =>
                 match analyzeComponent env root f with
                 | Some componentInfo => components ++ [componentInfo]
                 | None => components
                 end) l acc =
            acc ++ omap (analyzeComponent env root) l).
  { induction l as [|f l IH]; intros acc; simpl; [now rewrite app_nil_r|].
    rewrite IH. destruct (analyzeComponent env root f); [|reflexivity].
    now rewrite <- app_assoc. }
  apply (Hgen []).
Qed.

Lemma analyzeComponent_filePath (env : Collaborators) (root file : string)
    (r : ComponentInfo) :
  analyzeComponent env root file = Some r ->
  filePath r = path_relative env root file ∧ truthy (name r) = true.
Proof.
  intros Hr. apply analyzeComponent_Some in Hr as (ast & found & Hname & ->).
  destruct (mergeProps_facts (docgenParse env file)
              (uncheckedDetails ast
                 (emptyComponentInfo found (path_relative env root file))))
    as (_ & _ & _ & _ & -> & ->).
  unfold uncheckedDetails.
  split.
  - apply (fold_left_invariant
             (fun c => filePath c = path_relative env root file));
      [reflexivity|].
    intros c p _ Hc. unfold uncheckedVisitor. destruct (path_node p); try exact Hc.
    destruct (detectStoreUsage_facts p (uncheckedRecordHook p c))
      as (_ & _ & _ & _ & _ & _ & ->).
    unfold uncheckedRecordHook. now repeat case_match.
  - apply (fold_left_invariant (fun c => truthy (name c) = true)).
    + simpl. eapply extractComponentName_truthy, Hname.
    + intros c p _ Hc. unfold uncheckedVisitor. destruct (path_node p); try exact Hc.
      destruct (detectStoreUsage_facts p (uncheckedRecordHook p c))
        as (_ & _ & _ & _ & _ & -> & _).
      unfold uncheckedRecordHook. now repeat case_match.
Qed.

(** X14: a batch keeps the order of the files and drops what cannot
    be analyzed: the paths of the components returned are, in order, a
    selection of the relative paths of the files given, so there are
    never more components than files, and a file whose reading or
    parsing throws removes nothing but itself. *)
Theorem batch_keeps_order (env : Collaborators) (root : string)
    (files : list string) :
  map filePath (analyzeReactComponents env root files) `sublist_of`
    map (path_relative env root) files ∧
  length (analyzeReactComponents env root files) <= length files ∧
  forall before file after,
    files = before ++ file :: after ->
    (readFileSync env file = None ∨
     exists content, readFileSync env file = Some content ∧
                     babelParse env content = None) ->
    analyzeReactComponents env root files =
    analyzeReactComponents env root before ++
    analyzeReactComponents env root after.
Proof.
  rewrite analyzeReactComponents_omap.
  assert (Hsub : map filePath (omap (analyzeComponent env root) files)
                   `sublist_of` map (path_relative env root) files).
  { induction files as [|f files IH]; simpl; [constructor|].
    destruct (analyzeComponent env root f) as [r|] eqn:Hr; simpl.
    - rewrite (proj1 (analyzeComponent_filePath env root f r Hr)).
      now constructor.
    - now constructor. }
  split; [exact Hsub|]. split.
  - apply sublist_length in Hsub. now rewrite !length_map in Hsub.
  - intros before file after -> Hfails.
    rewrite !analyzeReactComponents_omap, omap_app. simpl.
    assert (Hnone : analyzeComponent env root file = None).
    { unfold analyzeComponent.
      destruct Hfails as [-> | (content & -> & Hparse)]; [reflexivity|].
      simpl. now rewrite Hparse. }
    now rewrite Hnone.
Qed.

(** The binding of a call that declares a state, and the value its
    hook entry shows. *)
Lemma uncheckedState_binding (p : NodePath) (s : StateInfo) :
  uncheckedState p = Some s ->
  exists rest init,
    path_parent p =
      VariableDeclarator
        (ArrayPattern (Some (Identifier (state_name s)) ::
                       Some (Identifier (state_setter s)) :: rest)) init ∧
    hook_value (extractHookInfo p) =
    Some ("[" +:+
          join ", " (state_name s :: state_setter s ::
                     omap identifierName rest) +:+ "]").
Proof.
  unfold uncheckedState, extractHookInfo, extractHookValue.
  cbn [hook_value].
  destruct (path_parent p) eqn:Hparent; try discriminate.
  lazymatch type of Hparent with
  | _ = VariableDeclarator ?i _ => destruct i; try discriminate
  end.
  lazymatch type of Hparent with
  | _ = VariableDeclarator (ArrayPattern ?els) _ =>
      destruct els as [|first [|second others]]; try discriminate
  end.
  destruct first as [first|]; [|discriminate].
  destruct first; try discriminate.
  destruct second as [second|];
    [|simpl; rewrite orb_true_r; discriminate].
  destruct second; try (simpl; rewrite orb_true_r; discriminate).
  simpl.
  match goal with
  | |- context [if ?b then None else _] => destruct b; [discriminate|]
  end.
  intros [= <-]. simpl. eexists _, _. split; reflexivity.
Qed.

(** X15: the value recorded for a [useState] hook agrees with the state
    extracted from the same call: the call is bound by an array
    pattern that starts with the identifiers of the state and of its
    setter, and the value is the bracketed, comma-separated list of
    these two names followed by the names of the other identifiers of
    the pattern, and of nothing else. *)
Theorem hook_value_lists_state (p : NodePath) (s : StateInfo) :
  extractStateFromUseState p = Some (Some s) ->
  exists rest init,
    path_parent p =
      VariableDeclarator
        (ArrayPattern (Some (Identifier (state_name s)) ::
                       Some (Identifier (state_setter s)) :: rest)) init ∧
    hook_value (extractHookInfo p) =
    Some ("[" +:+
          join ", " (state_name s :: state_setter s ::
                     omap identifierName rest) +:+ "]").
Proof.
  rewrite extractStateFromUseState_unchecked.
  destruct (uncheckedState p) as [s'|] eqn:Hs; [|discriminate].
  destruct (traversableWithoutScope (path_scope_block p)); [|discriminate].
  intros [= <-]. now apply uncheckedState_binding.
Qed.

End MoreProperties.

(** * Properties of the file search *)

Section DiscoveryProperties.

Variable path_join : string -> string -> string.
Variable path_extname : string -> string.

Lemma Dirent_listing_ind (P : Dirent -> Prop) :
  (forall name, P (FileEntry name)) ->
  (forall name, P (DirectoryEntry name None)) ->
  (forall name below, Forall P below -> P (DirectoryEntry name (Some below))) ->
  forall entry, P entry.
Proof.
  intros Hfile Hnone Hsome. fix IH 1. intros [name|name [below|]].
  - apply Hfile.
  - apply Hsome.
    induction below as [|entry below IHbelow]; constructor;
      [apply IH|exact IHbelow].
  - apply Hnone.
Qed.

Lemma visitEntry_directory (dirPath name : string)
    (listing : option (list Dirent)) (results : list string) :
  visitEntry path_join path_extname dirPath (DirectoryEntry name listing)
    results =
  if negb (isExcludedDirectory name) then
    match listing with
    | Some entries =>
        forEach (visitEntry path_join path_extname (path_join dirPath name))
          entries results
    | None => None
    end
  else Some results.
Proof. reflexivity. Qed.

Lemma UnreadableIn_cons (entry : Dirent) (entries : list Dirent) :
  UnreadableIn (entry :: entries) <->
  UnreadableIn [entry] ∨ UnreadableIn entries.
Proof.
  split.
  - intros Hu. inversion Hu as [? name Hin Hex|? name below Hin Hex Hbelow];
      subst; apply elem_of_cons in Hin as [<-|Hin].
    + left. eapply unreadable_here; [apply list_elem_of_here|exact Hex].
    + right. eapply unreadable_here; eassumption.
    + left. eapply unreadable_below;
        [apply list_elem_of_here|exact Hex|exact Hbelow].
    + right. eapply unreadable_below; eassumption.
  - intros [Hu|Hu];
      inversion Hu as [? name Hin Hex|? name below Hin Hex Hbelow]; subst.
    + apply list_elem_of_singleton in Hin as <-.
      eapply unreadable_here; [apply list_elem_of_here|exact Hex].
    + apply list_elem_of_singleton in Hin as <-.
      eapply unreadable_below;
        [apply list_elem_of_here|exact Hex|exact Hbelow].
    + eapply unreadable_here; [apply list_elem_of_further, Hin|exact Hex].
    + eapply unreadable_below;
        [apply list_elem_of_further, Hin|exact Hex|exact Hbelow].
Qed.

Lemma UnreadableIn_nil : ~ UnreadableIn [].
Proof.
  intros Hu. inversion Hu as [? ? Hin|? ? ? Hin]; subst;
    apply elem_of_nil in Hin; exact Hin.
Qed.

Lemma UnreadableIn_file (name : string) : ~ UnreadableIn [FileEntry name].
Proof.
  intros Hu. inversion Hu as [? ? Hin|? ? ? Hin]; subst;
    apply list_elem_of_singleton in Hin; discriminate.
Qed.

Lemma UnreadableIn_directory (name : string) (listing : option (list Dirent)) :
  UnreadableIn [DirectoryEntry name listing] <->
  isExcludedDirectory name = false ∧
  match listing with
  | Some below => UnreadableIn below
  | None => True
  end.
Proof.
  split.
  - intros Hu. inversion Hu as [? ? Hin Hex|? ? ? Hin Hex Hbelow]; subst;
      apply list_elem_of_singleton in Hin; injection Hin as <- <-;
      split; [exact Hex|exact I|exact Hex|exact Hbelow].
  - intros [Hex Hbelow]. destruct listing as [below|].
    + eapply unreadable_below;
        [apply list_elem_of_here|exact Hex|exact Hbelow].
    + eapply unreadable_here; [apply list_elem_of_here|exact Hex].
Qed.

Lemma ComponentFileIn_cons (dirPath : string) (entry : Dirent)
    (entries : list Dirent) (file : string) :
  ComponentFileIn path_join path_extname dirPath (entry :: entries) file <->
  ComponentFileIn path_join path_extname dirPath [entry] file ∨
  ComponentFileIn path_join path_extname dirPath entries file.
Proof.
  split.
  - intros Hc.
    inversion Hc as [? ? name Hin Hext|? ? name below ? Hin Hex Hbelow];
      subst; apply elem_of_cons in Hin as [<-|Hin].
    + left. apply component_file_here; [apply list_elem_of_here|exact Hext].
    + right. apply component_file_here; assumption.
    + left. eapply component_file_below;
        [apply list_elem_of_here|exact Hex|exact Hbelow].
    + right. eapply component_file_below; eassumption.
  - intros [Hc|Hc];
      inversion Hc as [? ? name Hin Hext|? ? name below ? Hin Hex Hbelow];
      subst.
    + apply list_elem_of_singleton in Hin as <-.
      apply component_file_here; [apply list_elem_of_here|exact Hext].
    + apply list_elem_of_singleton in Hin as <-.
      eapply component_file_below;
        [apply list_elem_of_here|exact Hex|exact Hbelow].
    + apply component_file_here; [apply list_elem_of_further, Hin|exact Hext].
    + eapply component_file_below;
        [apply list_elem_of_further, Hin|exact Hex|exact Hbelow].
Qed.

Lemma ComponentFileIn_nil (dirPath file : string) :
  ~ ComponentFileIn path_join path_extname dirPath [] file.
Proof.
  intros Hc. inversion Hc as [? ? ? Hin|? ? ? ? ? Hin]; subst;
    apply elem_of_nil in Hin; exact Hin.
Qed.

Lemma ComponentFileIn_file (dirPath name file : string) :
  ComponentFileIn path_join path_extname dirPath [FileEntry name] file <->
  isReactComponentFile path_extname name = true ∧
  file = path_join dirPath name.
Proof.
  split.
  - intros Hc. inversion Hc as [? ? ? Hin Hext|? ? ? ? ? Hin]; subst;
      apply list_elem_of_singleton in Hin; [|discriminate].
    injection Hin as <-. split; [exact Hext|reflexivity].
  - intros [Hext ->].
    apply component_file_here; [apply list_elem_of_here|exact Hext].
Qed.

Lemma ComponentFileIn_directory (dirPath name file : string)
    (listing : option (list Dirent)) :
  ComponentFileIn path_join path_extname dirPath
    [DirectoryEntry name listing] file <->
  isExcludedDirectory name = false ∧
  match listing with
  | Some below =>
      ComponentFileIn path_join path_extname (path_join dirPath name)
        below file
  | None => False
  end.
Proof.
  split.
  - intros Hc. inversion Hc as [? ? ? Hin|? ? ? ? ? Hin Hex Hbelow]; subst;
      apply list_elem_of_singleton in Hin; [discriminate|].
    injection Hin as <- <-. split; [exact Hex|exact Hbelow].
  - intros [Hex Hbelow]. destruct listing as [below|]; [|contradiction].
    eapply component_file_below;
      [apply list_elem_of_here|exact Hex|exact Hbelow].
Qed.

(** What a loop over the entries of a directory does: it throws
    exactly when a directory that cannot be read is reached, and
    otherwise appends the component files. *)
Lemma forEach_visitEntry_spec (entries : list Dirent) :
  forall dirPath results,
    match forEach (visitEntry path_join path_extname dirPath) entries results
    with
    | None => UnreadableIn entries
    | Some r =>
        ~ UnreadableIn entries ∧
        exists found,
          r = results ++ found ∧
          forall file,
            file ∈ found <->
            ComponentFileIn path_join path_extname dirPath entries file
    end.
Proof.
  assert (Hentry : forall entry dirPath results,
    match visitEntry path_join path_extname dirPath entry results with
    | None => UnreadableIn [entry]
    | Some r =>
        ~ UnreadableIn [entry] ∧
        exists found,
          r = results ++ found ∧
          forall file,
            file ∈ found <->
            ComponentFileIn path_join path_extname dirPath [entry] file
    end).
  { induction entry as [name|name|name below IH] using Dirent_listing_ind;
      intros dirPath results.
    - simpl.
      destruct (isReactComponentFile path_extname name) eqn:Hext.
      + split; [apply UnreadableIn_file|].
        exists [path_join dirPath name]. split; [reflexivity|].
        intros file. rewrite list_elem_of_singleton, ComponentFileIn_file.
        rewrite Hext. tauto.
      + split; [apply UnreadableIn_file|].
        exists []. split; [now rewrite app_nil_r|].
        intros file. rewrite elem_of_nil, ComponentFileIn_file, Hext.
        split; [tauto|]. now intros [? _].
    - rewrite visitEntry_directory.
      destruct (isExcludedDirectory name) eqn:Hex; simpl.
      + split.
        * rewrite UnreadableIn_directory, Hex. now intros [? _].
        * exists []. split; [now rewrite app_nil_r|].
          intros file. rewrite elem_of_nil, ComponentFileIn_directory, Hex.
          split; [tauto|]. now intros [? _].
      + apply UnreadableIn_directory. split; [exact Hex|exact I].
    - rewrite visitEntry_directory.
      destruct (isExcludedDirectory name) eqn:Hex; simpl.
      + split.
        * rewrite UnreadableIn_directory, Hex. now intros [? _].
        * exists []. split; [now rewrite app_nil_r|].
          intros file. rewrite elem_of_nil, ComponentFileIn_directory, Hex.
          split; [tauto|]. now intros [? _].
      + assert (Hbelow : forall results,
          match forEach (visitEntry path_join path_extname
                           (path_join dirPath name)) below results with
          | None => UnreadableIn below
          | Some r =>
              ~ UnreadableIn below ∧
              exists found,
                r = results ++ found ∧
                forall file,
                  file ∈ found <->
                  ComponentFileIn path_join path_extname
                    (path_join dirPath name) below file
          end).
        { clear results. induction IH as [|entry below Hhead _ IHtail];
            intros results.
          - simpl. split; [apply UnreadableIn_nil|].
            exists []. split; [now rewrite app_nil_r|].
            intros file. rewrite elem_of_nil.
            split; [tauto|apply ComponentFileIn_nil].
          - rewrite forEach_cons.
            specialize (Hhead (path_join dirPath name) results).
            destruct (visitEntry path_join path_extname
                        (path_join dirPath name) entry results)
              as [r|]; [|apply UnreadableIn_cons; now left].
            destruct Hhead as (Hok & found & -> & Hfound).
            specialize (IHtail (results ++ found)).
            destruct (forEach _ below (results ++ found)) as [r'|];
              [|apply UnreadableIn_cons; now right].
            destruct IHtail as (Hok' & found' & -> & Hfound').
            split; [rewrite UnreadableIn_cons; tauto|].
            exists (found ++ found'). split; [now rewrite app_assoc|].
            intros file.
            rewrite elem_of_app, ComponentFileIn_cons, Hfound, Hfound'.
            reflexivity. }
        specialize (Hbelow results).
        destruct (forEach _ below results) as [r|].
        * destruct Hbelow as (Hok & found & -> & Hfound). split.
          -- rewrite UnreadableIn_directory. tauto.
          -- exists found. split; [reflexivity|]. intros file.
             rewrite Hfound, ComponentFileIn_directory, Hex. tauto.
        * apply UnreadableIn_directory. split; [exact Hex|exact Hbelow]. }
  induction entries as [|entry entries IH]; intros dirPath results.
  - simpl. split; [apply UnreadableIn_nil|].
    exists []. split; [now rewrite app_nil_r|].
    intros file. rewrite elem_of_nil.
    split; [tauto|apply ComponentFileIn_nil].
  - rewrite forEach_cons. specialize (Hentry entry dirPath results).
    destruct (visitEntry path_join path_extname dirPath entry results)
      as [r|]; [|apply UnreadableIn_cons; now left].
    destruct Hentry as (Hok & found & -> & Hfound).
    specialize (IH dirPath (results ++ found)).
    destruct (forEach _ entries (results ++ found)) as [r'|];
      [|apply UnreadableIn_cons; now right].
    destruct IH as (Hok' & found' & -> & Hfound').
    split; [rewrite UnreadableIn_cons; tauto|].
    exists (found ++ found'). split; [now rewrite app_assoc|].
    intros file.
    rewrite elem_of_app, ComponentFileIn_cons, Hfound, Hfound'.
    reflexivity.
Qed.


(** X17: the search throws exactly when a directory that cannot be
    read is reached without passing an excluded one, and then
    [findReactComponents] answers with no file at all, whatever had
    been found before. *)
Theorem unreadable_directory_empties_search (workspaceRoot projectPath : string)
    (entries : list Dirent) :
  (forall dirPath results,
     findComponentFilesRecursively path_join path_extname dirPath
       (Present (Some entries)) results = None <->
     UnreadableIn entries) ∧
  (UnreadableIn entries ->
   findReactComponents path_join path_extname workspaceRoot projectPath
     (Present (Some entries)) = []).
Proof.
  assert (Hiff : forall dirPath results,
     findComponentFilesRecursively path_join path_extname dirPath
       (Present (Some entries)) results = None <->
     UnreadableIn entries).
  { intros dirPath results. simpl.
    pose proof (forEach_visitEntry_spec entries dirPath results) as Hspec.
    destruct (forEach _ entries results) as [r|].
    - split; [discriminate|]. intros Hu. now destruct Hspec as [Hok _].
    - split; [intros _; exact Hspec|reflexivity]. }
  split; [exact Hiff|].
  intros Hu. unfold findReactComponents.
  now rewrite (proj2 (Hiff (path_join workspaceRoot projectPath) []) Hu).
Qed.

(** X18: the files [findReactComponents] returns all have a React
    extension, wherever they were found. *)
Theorem found_files_have_react_extension (workspaceRoot projectPath : string)
    (dir : StartDirectory) (file : string) :
  file ∈ findReactComponents path_join path_extname workspaceRoot projectPath
           dir ->
  exists dirPath name,
    file = path_join dirPath name ∧
    path_extname name ∈ [".jsx"; ".tsx"; ".js"; ".ts"].
Proof.
  unfold findReactComponents.
  destruct dir as [|[entries|]]; simpl;
    [intros Hin; now apply elem_of_nil in Hin| |
     intros Hin; now apply elem_of_nil in Hin].
  pose proof (forEach_visitEntry_spec entries
                (path_join workspaceRoot projectPath) []) as Hspec.
  destruct (forEach _ entries []) as [r|];
    [|intros Hin; now apply elem_of_nil in Hin].
  destruct Hspec as (_ & found & -> & Hfound). simpl.
  intros Hin. apply Hfound in Hin. clear Hfound.
  induction Hin as [dirPath entries' name _ Hext|? ? ? ? ? _ _ _ IH];
    [|exact IH].
  exists dirPath, name. split; [reflexivity|].
  unfold isReactComponentFile in Hext. simpl in Hext.
  rewrite !elem_of_cons.
  repeat (apply orb_prop in Hext as [Hext|Hext];
          [apply String.eqb_eq in Hext; rewrite Hext; tauto|]).
  discriminate.
Qed.

End DiscoveryProperties.

(** * Properties of the whole analysis *)

Section PipelineProperties.

Context `{JsNumber}.
Variable path_join : string -> string -> string.
Variable path_extname : string -> string.

(** X19: the command analyzes what the search found and nothing else:
    every component it returns comes from a component file of the
    project directory, and when a directory of the project cannot be
    read it returns no component at all. *)
Theorem analysis_follows_search (env : Collaborators)
    (workspaceRoot projectPath : string) (entries : list Dirent) :
  let componentFiles :=
    findReactComponents path_join path_extname workspaceRoot projectPath
      (Present (Some entries)) in
  (forall c, c ∈ analyzeReactComponents env workspaceRoot componentFiles ->
     exists file,
       ComponentFileIn path_join path_extname
         (path_join workspaceRoot projectPath) entries file ∧
       analyzeComponent env workspaceRoot file = Some c ∧
       filePath c = path_relative env workspaceRoot file) ∧
  (UnreadableIn entries ->
   analyzeReactComponents env workspaceRoot componentFiles = []).
Proof.
  intros componentFiles. subst componentFiles.
  unfold findReactComponents, findComponentFilesRecursively.
  pose proof (forEach_visitEntry_spec path_join path_extname entries
                (path_join workspaceRoot projectPath) []) as Hspec.
  destruct (forEach _ entries []) as [r|].
  - destruct Hspec as (Hok & found & -> & Hfound). simpl. split.
    + intros c Hc. rewrite analyzeReactComponents_omap in Hc.
      apply list_elem_of_omap in Hc as (file & Hfile & Hc).
      exists file. split; [now apply Hfound|]. split; [exact Hc|].
      now apply analyzeComponent_filePath.
    + intros Hu. contradiction.
  - split; [|reflexivity].
    intros c Hc. now apply elem_of_nil in Hc.
Qed.

End PipelineProperties.

(** * Properties of the NX workspace analysis *)

Section NxProperties.

Lemma mapHas_elem {V : Type} (o : object V) (k : string) :
  mapHas o k = true <-> k ∈ objectKeys o.
Proof.
  unfold mapHas. rewrite existsb_exists. split.
  - intros (x & Hin & Heq). apply String.eqb_eq in Heq as ->.
    now apply list_elem_of_In.
  - intros Hin. exists k. split; [now apply list_elem_of_In|].
    apply String.eqb_refl.
Qed.

Lemma mapSet_keys {V : Type} (o : object V) (k : string) (v : V) :
  objectKeys (mapSet o k v) =
  if mapHas o k then objectKeys o else objectKeys o ++ [k].
Proof.
  induction o as [|[k' v'] rest IH]; [reflexivity|].
  unfold mapHas, objectKeys in *. simpl.
  rewrite (String.eqb_sym k k').
  destruct (String.eqb k' k) eqn:Heq; simpl.
  - apply String.eqb_eq in Heq as ->. reflexivity.
  - rewrite IH. now destruct (existsb _ _).
Qed.

Lemma mapSet_elem {V : Type} (o : object V) (k : string) (v : V)
    (kv : string * V) :
  kv ∈ mapSet o k v -> kv = (k, v) ∨ kv ∈ o.
Proof.
  induction o as [|[k' v'] rest IH]; simpl.
  - rewrite list_elem_of_singleton. tauto.
  - destruct (String.eqb k' k); rewrite !elem_of_cons; tauto.
Qed.

Lemma mapSet_keys_NoDup {V : Type} (o : object V) (k : string) (v : V) :
  NoDup (objectKeys o) -> NoDup (objectKeys (mapSet o k v)).
Proof.
  intros Hnd. rewrite mapSet_keys.
  destruct (mapHas o k) eqn:Hhas; [exact Hnd|].
  apply NoDup_app. split; [exact Hnd|]. split; [|apply NoDup_singleton].
  intros x Hx Hk. apply list_elem_of_singleton in Hk as ->.
  apply mapHas_elem in Hx. congruence.
Qed.

Lemma mapSet_fresh {V : Type} (o : object V) (k : string) (v : V) :
  mapHas o k = false -> mapSet o k v = o ++ [(k, v)].
Proof.
  induction o as [|[k' v'] rest IH]; [reflexivity|].
  unfold mapHas, objectKeys in *. simpl.
  rewrite (String.eqb_sym k k').
  destruct (String.eqb k' k); simpl; [discriminate|].
  intros Hrest. now rewrite IH.
Qed.

(** The projects of a workspace have distinct keys, and each is filed
    under its own name. *)
Lemma getProjects_keys (w : Workspace) :
  NoDup (objectKeys (getProjects w)) ∧
  forall entry, entry ∈ getProjects w ->
    project_name (snd entry) = fst entry ∧
    truthy (project_projectType (snd entry)) = true.
Proof.
  assert (Hfold : forall ps : object ProjectConfig,
    let m := fold_left
        (fun projectsMap entry =>
           mapSet projectsMap (fst entry)
             (toProjectInfo (fst entry) (snd entry))) ps [] in
    NoDup (objectKeys m) ∧
    forall entry, entry ∈ m ->
      project_name (snd entry) = fst entry ∧
      truthy (project_projectType (snd entry)) = true).
  { intros ps.
    apply (fold_left_invariant
             (fun m : object ProjectInfo =>
                NoDup (objectKeys m) ∧
                forall entry, entry ∈ m ->
                  project_name (snd entry) = fst entry ∧
                  truthy (project_projectType (snd entry)) = true)).
    - split; [constructor|]. intros entry Hin. now apply elem_of_nil in Hin.
    - intros m [k c] _ [Hnd Hnames]. split; [now apply mapSet_keys_NoDup|].
      intros entry Hin. apply mapSet_elem in Hin as [->|Hin];
        [|now apply Hnames].
      split; [reflexivity|]. simpl.
      destruct (config_projectType c) as [[|a t]|]; reflexivity. }
  assert (Hnil : NoDup (objectKeys (@nil (string * ProjectInfo))) ∧
                 forall entry, entry ∈ @nil (string * ProjectInfo) ->
                   project_name (snd entry) = fst entry ∧
                   truthy (project_projectType (snd entry)) = true).
  { split; [constructor|]. intros entry Hin. now apply elem_of_nil in Hin. }
  unfold getProjects.
  destruct (workspaceJson w) as [| |c]; [|exact Hnil|apply Hfold].
  destruct (angularJson w) as [| |c]; [exact Hnil|exact Hnil|apply Hfold].
Qed.

Lemma spread_keys_NoDup {V : Type} (a b : option (object V)) :
  NoDup (objectKeys (spread a b)).
Proof.
  unfold spread.
  apply (fold_left_invariant (fun o : object V => NoDup (objectKeys o))).
  - apply (fold_left_invariant (fun o : object V => NoDup (objectKeys o)));
      [constructor|].
    intros o kv _ Hnd. now apply mapSet_keys_NoDup.
  - intros o kv _ Hnd. now apply mapSet_keys_NoDup.
Qed.

Lemma projectDependencies_app (projects : object ProjectInfo)
    (projectName : string) (packageJson' : PackageJson)
    (dependencies : list DependencyInfo) :
  projectDependencies projects projectName packageJson' dependencies =
  dependencies ++
  map (fun depName =>
         {| sourceProject := projectName; targetProject := depName |})
    (List.filter (mapHas projects)
       (objectKeys (spread (package_dependencies packageJson')
                           (package_devDependencies packageJson')))).
Proof.
  unfold projectDependencies.
  generalize (spread (package_dependencies packageJson')
                     (package_devDependencies packageJson')) as deps.
  intros deps. revert dependencies.
  induction deps as [|[depName depVersion] deps IH]; intros dependencies;
    simpl; [now rewrite app_nil_r|].
  rewrite IH. destruct (mapHas projects depName); [|reflexivity].
  simpl. now rewrite <- app_assoc.
Qed.

(** The outer loop of [getDependencies] over a part of the projects. *)
Lemma forEach_visitProject (w : Workspace) (projects : object ProjectInfo)
    (part : object ProjectInfo) :
  forall dependencies r,
    forEach (visitProject w projects) part dependencies = Some r ->
    NoDup (objectKeys part) ->
    NoDup dependencies ->
    (forall dep, dep ∈ dependencies -> sourceProject dep ∉ objectKeys part) ->
    NoDup r ∧
    forall dep, dep ∈ r ->
      dep ∈ dependencies ∨
      (sourceProject dep ∈ objectKeys part ∧
       targetProject dep ∈ objectKeys projects).
Proof.
  induction part as [|[projectName projectInfo] part IH];
    intros dependencies r.
  - simpl. intros [= <-] _ Hnd _. split; [exact Hnd|]. now left.
  - rewrite forEach_cons.
    destruct (visitProject w projects (projectName, projectInfo) dependencies)
      as [dependencies'|] eqn:Hvisit; [|discriminate].
    intros Hr Hkeys Hnd Hfresh.
    unfold objectKeys in Hkeys, Hfresh |- *. simpl in Hkeys, Hfresh |- *.
    apply NoDup_cons in Hkeys as [Hname Hkeys].
    assert (Hstep : NoDup dependencies' ∧
              forall dep, dep ∈ dependencies' ->
                dep ∈ dependencies ∨
                (sourceProject dep = projectName ∧
                 targetProject dep ∈ objectKeys projects)).
    { unfold visitProject in Hvisit. simpl in Hvisit.
      destruct (project_root projectInfo) as [root|]; [|discriminate].
      destruct (packageJson w root) as [| |packageJson'];
        [|discriminate|]; injection Hvisit as <-.
      - split; [exact Hnd|]. now left.
      - rewrite projectDependencies_app. split.
        + apply NoDup_app. split; [exact Hnd|]. split.
          * intros dep Hdep Hnew.
            change (map ?f ?l) with (f <$> l) in Hnew.
            apply list_elem_of_fmap in Hnew as (depName & -> & _).
            apply (Hfresh _ Hdep). simpl. apply list_elem_of_here.
          * change (map ?f ?l) with (f <$> l).
            apply NoDup_fmap_2_strong.
            -- intros a b _ _ [=]. assumption.
            -- apply NoDup_ListNoDup, List.NoDup_filter, NoDup_ListNoDup,
                 spread_keys_NoDup.
        + intros dep Hdep. apply elem_of_app in Hdep as [Hdep|Hdep];
            [now left|right].
          change (map ?f ?l) with (f <$> l) in Hdep.
          apply list_elem_of_fmap in Hdep as (depName & -> & Hdep).
          simpl. split; [reflexivity|].
          apply list_elem_of_In, List.filter_In in Hdep as [_ Hdep].
          now apply mapHas_elem. }
    destruct Hstep as [Hnd' Hdeps'].
    destruct (IH dependencies' r Hr Hkeys Hnd') as [Hndr Hdepsr].
    { intros dep Hdep. destruct (Hdeps' dep Hdep) as [Hold|[-> _]].
      - intros Hin. apply (Hfresh dep Hold). now apply list_elem_of_further.
      - exact Hname. }
    split; [exact Hndr|].
    intros dep Hdep. destruct (Hdepsr dep Hdep) as [Hold|[Hsource Htarget]].
    + destruct (Hdeps' dep Hold) as [Hold'|[-> Htarget]]; [now left|right].
      split; [apply list_elem_of_here|exact Htarget].
    + right. split; [now apply list_elem_of_further|exact Htarget].
Qed.

Lemma getDependencies_facts (w : Workspace) :
  NoDup (getDependencies w) ∧
  forall dep, dep ∈ getDependencies w ->
    sourceProject dep ∈ objectKeys (getProjects w) ∧
    targetProject dep ∈ objectKeys (getProjects w).
Proof.
  unfold getDependencies.
  destruct (forEach (visitProject w (getProjects w)) (getProjects w) [])
    as [r|] eqn:Hr.
  - destruct (forEach_visitProject w (getProjects w) (getProjects w) [] r Hr)
      as [Hnd Hdeps].
    + apply getProjects_keys.
    + constructor.
    + intros dep Hdep. now apply elem_of_nil in Hdep.
    + split; [exact Hnd|]. intros dep Hdep.
      destruct (Hdeps dep Hdep) as [Hnil|Hends]; [|exact Hends].
      now apply elem_of_nil in Hnil.
  - split; [constructor|]. intros dep Hdep. now apply elem_of_nil in Hdep.
Qed.

(** X20: the graph handed to the view is well formed: the node ids are
    the project names, without repetition; no edge is drawn twice, even
    for a package listed under both [dependencies] and
    [devDependencies]; and both ends of every edge are nodes of the
    graph, so packages that are not projects of the workspace never
    appear. *)
Theorem dependency_graph_well_formed (w : Workspace)
    (nodes : list GraphNode) (edges : list GraphEdge) :
  dependencyGraph w = Some (nodes, edges) ->
  map node_id nodes = objectKeys (getProjects w) ∧
  NoDup (map node_id nodes) ∧
  NoDup edges ∧
  forall edge, edge ∈ edges ->
    edge_from edge ∈ map node_id nodes ∧ edge_to edge ∈ map node_id nodes.
Proof.
  unfold dependencyGraph. destruct (isNxWorkspace w); [|discriminate].
  intros [= <- <-].
  destruct (getProjects_keys w) as [Hkeys Hnames].
  destruct (getDependencies_facts w) as [Hnd Hends].
  assert (Hids : map node_id
                   (map (fun entry : string * ProjectInfo =>
                           toGraphNode (snd entry)) (getProjects w)) =
                 objectKeys (getProjects w)).
  { rewrite map_map. unfold objectKeys. apply map_ext_in.
    intros entry Hin. simpl. apply Hnames. now apply list_elem_of_In. }
  rewrite Hids. split; [reflexivity|]. split; [exact Hkeys|]. split.
  - change (map ?f ?l) with (f <$> l). apply NoDup_fmap_2_strong; [|exact Hnd].
    intros [a b] [c d] _ _ [= -> -> _]. reflexivity.
  - intros edge Hedge. change (map ?f ?l) with (f <$> l) in Hedge.
    apply list_elem_of_fmap in Hedge as (dep & -> & Hdep). simpl.
    now apply Hends.
Qed.

Lemma forEach_fails {A R : Type} (body : A -> R -> option R) (x : A)
    (l : list A) :
  (forall acc, body x acc = None) -> x ∈ l ->
  forall acc, forEach body l acc = None.
Proof.
  intros Hx. induction l as [|y l IH]; intros Hin acc.
  - now apply elem_of_nil in Hin.
  - rewrite forEach_cons. apply elem_of_cons in Hin as [<-|Hin].
    + now rewrite Hx.
    + destruct (body y acc); [now apply IH|reflexivity].
Qed.

(** X21: one bad project empties the dependencies of the whole
    workspace: when some project has no [root], or a [package.json]
    that does not parse, [getDependencies] returns no dependency, also
    none of those found for the projects before it. *)
Theorem bad_project_empties_dependencies (w : Workspace)
    (entry : string * ProjectInfo) :
  entry ∈ getProjects w ->
  (project_root (snd entry) = None ∨
   exists root, project_root (snd entry) = Some root ∧
                packageJson w root = Unparsable) ->
  getDependencies w = [].
Proof.
  intros Hin Hbad. unfold getDependencies.
  rewrite (forEach_fails (visitProject w (getProjects w)) entry);
    [reflexivity| |exact Hin].
  intros acc. unfold visitProject.
  destruct Hbad as [-> | (root & -> & ->)]; reflexivity.
Qed.

Lemma fold_mapSet_fresh {V C : Type} (f : string * C -> V)
    (ps : object C) :
  forall acc : object V,
    NoDup (objectKeys acc ++ objectKeys ps) ->
    fold_left (fun m entry => mapSet m (fst entry) (f entry)) ps acc =
    acc ++ map (fun entry => (fst entry, f entry)) ps.
Proof.
  induction ps as [|[k c] ps IH]; intros acc Hnd; simpl;
    [now rewrite app_nil_r|].
  unfold objectKeys in Hnd. simpl in Hnd.
  rewrite mapSet_fresh.
  - rewrite IH; [now rewrite <- app_assoc|].
    unfold objectKeys. rewrite map_app. simpl.
    now rewrite <- app_assoc.
  - destruct (mapHas acc k) eqn:Hhas; [|reflexivity].
    apply mapHas_elem in Hhas.
    apply NoDup_app in Hnd as (_ & Hdisjoint & _).
    exfalso. apply (Hdisjoint k Hhas). apply list_elem_of_here.
Qed.

(** X22: [getProjects] has one entry per project of the configuration,
    in the order of the file, each under its own name; the
    configuration is [workspace.json] when that file exists, and
    [angular.json] is read only when it does not. *)
Theorem getProjects_one_per_project (w : Workspace) (c : WorkspaceConfig)
    (ps : object ProjectConfig) :
  workspaceJson w = Parsed c ∨
  (workspaceJson w = NoFile ∧ angularJson w = Parsed c) ->
  config_projects c = Some ps ->
  NoDup (objectKeys ps) ->
  getProjects w =
  map (fun entry => (fst entry, toProjectInfo (fst entry) (snd entry))) ps.
Proof.
  intros Hfile Hps Hnd. unfold getProjects.
  assert (Hfold :
    fold_left
      (fun projectsMap entry =>
         mapSet projectsMap (fst entry)
           (toProjectInfo (fst entry) (snd entry)))
      (default [] (config_projects c)) [] =
    map (fun entry => (fst entry, toProjectInfo (fst entry) (snd entry))) ps).
  { rewrite Hps. simpl.
    apply (fold_mapSet_fresh
             (fun entry => toProjectInfo (fst entry) (snd entry)) ps []).
    exact Hnd. }
  destruct Hfile as [-> | [-> ->]]; exact Hfold.
Qed.

End NxProperties.

(** * Properties of the component server *)

Section ServerProperties.

Variable listens : nat -> bool.

Lemma probe_spec (remaining : nat) :
  forall port,
    match probe listens remaining port with
    | Some found =>
        port <= found < port + remaining ∧ listens found = true ∧
        forall other, port <= other < found -> listens other = false
    | None =>
        forall other, port <= other < port + remaining ->
          listens other = false
    end.
Proof.
  induction remaining as [|remaining IH]; intros port; simpl.
  - intros other Hother. lia.
  - destruct (listens port) eqn:Hport.
    + split; [lia|]. split; [exact Hport|]. intros other Hother. lia.
    + specialize (IH (S port)).
      destruct (probe listens remaining (S port)) as [found|].
      * destruct IH as (Hrange & Hfound & Hleast).
        split; [lia|]. split; [exact Hfound|].
        intros other Hother.
        destruct (decide (other = port)) as [->|Hne]; [exact Hport|].
        apply Hleast. lia.
      * intros other Hother.
        destruct (decide (other = port)) as [->|Hne]; [exact Hport|].
        apply IH. lia.
Qed.

(** X23: [findAvailablePort] returns the lowest port of the range on
    which a server can listen, and fails exactly when there is none. *)
Theorem findAvailablePort_least (start last : nat) :
  match findAvailablePort listens start last with
  | Some port =>
      start <= port <= last ∧ listens port = true ∧
      forall other, start <= other < port -> listens other = false
  | None =>
      forall other, start <= other <= last -> listens other = false
  end.
Proof.
  unfold findAvailablePort.
  pose proof (probe_spec (S last - start) start) as Hspec.
  destruct (probe listens (S last - start) start) as [port|].
  - destruct Hspec as (Hrange & Hport & Hleast).
    split; [lia|]. split; [exact Hport|exact Hleast].
  - intros other Hother. apply Hspec. lia.
Qed.

End ServerProperties.

(** * The further properties at work *)

Section AtWork.
#[local] Existing Instance decimal_numbers.

(** X1 at work: the last candidate beside a PascalCase file name. *)
Lemma extractComponentName_shape_witness :
  extractComponentName "src/Panels.tsx" twoComponentsFile =
    Some "Second (Panels)" ∧
  (isPascalCase "Second (Panels)" = true ∨
   exists found,
     isPascalCase found = true ∧
     isPascalCase (fileNameWithoutExt "src/Panels.tsx") = true ∧
     found <> fileNameWithoutExt "src/Panels.tsx" ∧
     "Second (Panels)" =
       found +:+ " (" +:+ fileNameWithoutExt "src/Panels.tsx" +:+ ")").
Proof.
  split; [reflexivity|].
  apply (extractComponentName_shape "src/Panels.tsx" twoComponentsFile).
  reflexivity.
Defined.

(** X2 at work: [src/components/Button.tsx]. *)
Lemma fileNameWithoutExt_base_witness :
  fileNameWithoutExt "src/components/Button.tsx" = "Button" ∧
  fileNameWithoutExt "src/components/Button" = "Button".
Proof.
  apply (fileNameWithoutExt_base "src/components" "Button" "tsx" "/").
  - left. reflexivity.
  - reflexivity.
  - reflexivity.
Defined.

(** X3 at work: [useEffect] is called twice in [Feed]; the entry is
    that of the first call, with its empty dependency array. *)
Lemma hook_entry_is_first_call_witness :
  exists c,
    extractComponentDetails feedFile
      (emptyComponentInfo "Feed" "src/Feed.tsx") = Some c ∧
    map hook_dependencies
      (filter (fun h => hook_name h = "useEffect") (hooks c)) = [Some []].
Proof.
  destruct (extractComponentDetails feedFile
              (emptyComponentInfo "Feed" "src/Feed.tsx")) as [c|] eqn:Hc;
    [|vm_compute in Hc; discriminate].
  exists c. split; [reflexivity|].
  rewrite (hook_entry_is_first_call feedFile
             (emptyComponentInfo "Feed" "src/Feed.tsx") c "useEffect" Hc).
  reflexivity.
Defined.

(** X4 at work: inside the function [Form] the first [useState] call
    throws and so does the extraction; at the top level of a module
    the same two calls leave the state of the first. *)
Lemma states_from_first_useState_witness :
  extractComponentDetails formFile
    (emptyComponentInfo "Form" "src/Form.tsx") = None ∧
  exists c,
    extractComponentDetails formModule
      (emptyComponentInfo "Form" "src/Form.tsx") = Some c ∧
    map state_name (states c) = ["a"].
Proof.
  split.
  - apply (proj1 (states_from_first_useState formFile
                    (emptyComponentInfo "Form" "src/Form.tsx"))).
    eexists. split; reflexivity.
  - destruct (extractComponentDetails formModule
                (emptyComponentInfo "Form" "src/Form.tsx")) as [c|] eqn:Hc;
      [|vm_compute in Hc; discriminate].
    exists c. split; [reflexivity|].
    rewrite (proj2 (states_from_first_useState formModule
                      (emptyComponentInfo "Form" "src/Form.tsx")) c Hc).
    reflexivity.
Defined.

(** X24 at work: the component [Form], with its two states declared in
    the function. *)
Lemma analysis_fails_on_state_in_function_witness :
  firstCall "useState" (traverse formFile) = Some formPath ∧
  extractStateFromUseState formPath = None ∧
  analyzeComponent (collaboratorsFor formFile (Some buttonDocs))
    "/ws" "/ws/src/Form.tsx" = None.
Proof.
  split; [reflexivity|].
  apply (analysis_fails_on_state_in_function
           (collaboratorsFor formFile (Some buttonDocs))
           "/ws" "/ws/src/Form.tsx" "source text" formFile formPath
           "a" "setA" [] (Some (path_node formPath)));
    reflexivity.
Defined.

(** X5 at work: the context of [Themed]. *)
Lemma contexts_from_first_useContext_witness :
  exists c,
    extractComponentDetails themedFile
      (emptyComponentInfo "Themed" "src/Themed.tsx") = Some c ∧
    map context_name (contexts c) = ["ThemeContext"].
Proof.
  destruct (extractComponentDetails themedFile
              (emptyComponentInfo "Themed" "src/Themed.tsx")) as [c|] eqn:Hc;
    [|vm_compute in Hc; discriminate].
  exists c. split; [reflexivity|].
  rewrite (contexts_from_first_useContext themedFile
             (emptyComponentInfo "Themed" "src/Themed.tsx") c Hc).
  reflexivity.
Defined.

(** X7 at work: the one redux entry of [Cart]. *)
Lemma storeUsage_map_of_sets_witness :
  exists c,
    extractComponentDetails cartFile
      (emptyComponentInfo "Cart" "src/Cart.tsx") = Some c ∧
    map store_type (storesOf c) = [redux] ∧
    NoDup (map store_type (storesOf c)) ∧
    forall s, s ∈ storesOf c ->
      NoDup (store_selectors s) ∧ NoDup (store_actions s).
Proof.
  eexists. split; [reflexivity|]. split; [reflexivity|].
  apply (storeUsage_map_of_sets cartFile
           (emptyComponentInfo "Cart" "src/Cart.tsx") _ eq_refl).
Defined.

(** X8 at work: the redux entry of [Cart] has the one action that
    stands for [useDispatch]. *)
Lemma actions_only_dispatch_witness :
  exists c s,
    extractComponentDetails cartFile
      (emptyComponentInfo "Cart" "src/Cart.tsx") = Some c ∧
    storesOf c = [s] ∧
    (store_actions s = [] ∨
     (store_type s = redux ∧ store_actions s = [dispatchMarker])).
Proof.
  eexists _, _. split; [reflexivity|]. split; [reflexivity|].
  apply (actions_only_dispatch cartFile
           (emptyComponentInfo "Cart" "src/Cart.tsx") _ _ eq_refl).
  apply list_elem_of_here.
Defined.

(** X9 at work: the redux entry of [Cart] comes with its hooks. *)
Lemma store_entry_has_hook_witness :
  exists c s,
    extractComponentDetails cartFile
      (emptyComponentInfo "Cart" "src/Cart.tsx") = Some c ∧
    storesOf c = [s] ∧
    exists h,
      h ∈ storeHooks (store_type s) ∧ h ∈ map hook_name (hooks c).
Proof.
  eexists _, _. split; [reflexivity|]. split; [reflexivity|].
  apply (store_entry_has_hook cartFile
           (emptyComponentInfo "Cart" "src/Cart.tsx") _ _ eq_refl).
  apply list_elem_of_here.
Defined.

(** X10 at work: the one heading of [Cart]. *)
Lemma store_headings_witness :
  exists c,
    extractComponentDetails cartFile
      (emptyComponentInfo "Cart" "src/Cart.tsx") = Some c ∧
    map (fun s => getStoreTypeName (store_type s)) (storesOf c) = ["Redux"] ∧
    NoDup (map (fun s => getStoreTypeName (store_type s)) (storesOf c)).
Proof.
  eexists. split; [reflexivity|]. split; [reflexivity|].
  apply (store_headings cartFile
           (emptyComponentInfo "Cart" "src/Cart.tsx") _ eq_refl).
Defined.

(** X11 at work: two documented components; the props are those of
    the first, and the property without a type is [unknown]. *)
Lemma props_from_first_doc_witness :
  exists r,
    analyzeComponent (collaboratorsFor greetingFile (Some buttonDocs))
      "/ws" "src/Greeting.tsx" = Some r ∧
    map prop_name (props r) = ["label"; "onPress"] ∧
    map prop_type (props r) = ["string"; "unknown"] ∧
    description r = Some "A button.".
Proof.
  destruct (props_from_first_doc
              (collaboratorsFor greetingFile (Some buttonDocs))
              "/ws" "src/Greeting.tsx" "source text" greetingFile "Greeting"
              _
              (hd {| doc_description := EmptyString; doc_props := [] |}
                  buttonDocs)
              (tl buttonDocs) eq_refl eq_refl eq_refl eq_refl eq_refl)
    as (r & Hr & Hprops & Hnames & _ & Hdescription & _).
  exists r. split; [exact Hr|]. split; [exact Hnames|].
  split; [rewrite Hprops; reflexivity|exact Hdescription].
Defined.

(** X12 at work: the same file with the props tool throwing and with
    the props tool answering. *)
Lemma analysis_independent_of_props_tool_witness :
  (hooks <$> analyzeComponent (collaboratorsFor cartFile None)
               "/ws" "src/Cart.tsx") =
  (hooks <$> analyzeComponent (collaboratorsFor cartFile (Some buttonDocs))
               "/ws" "src/Cart.tsx").
Proof.
  pose proof (analysis_independent_of_props_tool
                (collaboratorsFor cartFile None)
                (collaboratorsFor cartFile (Some buttonDocs))
                "/ws" "src/Cart.tsx" eq_refl eq_refl eq_refl) as Hfacts.
  cbv zeta in Hfacts.
  destruct (analyzeComponent (collaboratorsFor cartFile None)
              "/ws" "src/Cart.tsx") as [r|],
           (analyzeComponent (collaboratorsFor cartFile (Some buttonDocs))
              "/ws" "src/Cart.tsx") as [r'|];
    try discriminate Hfacts; [|reflexivity].
  injection Hfacts as _ _ Hhooks _ _ _. simpl. now rewrite Hhooks.
Defined.

(** X13 at work: a state that is declared and never used is counted
    once. *)
Lemma returned_states_are_counted_witness :
  exists r s,
    analyzeComponent (collaboratorsFor greetingFile None)
      "/ws" "src/Greeting.tsx" = Some r ∧
    states r = [s] ∧
    exists k, state_usageCount s = Some (S k).
Proof.
  eexists _, _. split; [reflexivity|]. split; [reflexivity|].
  eapply (returned_states_are_counted (collaboratorsFor greetingFile None)
            "/ws" "src/Greeting.tsx"); [reflexivity|].
  apply list_elem_of_here.
Defined.

(** X15 at work: [const [x, setX] = useState("hi")]. *)
Lemma hook_value_lists_state_witness :
  exists s,
    extractStateFromUseState greetingPath = Some (Some s) ∧
    hook_value (extractHookInfo greetingPath) = Some "[x, setX]" ∧
    exists rest init,
      path_parent greetingPath =
        VariableDeclarator
          (ArrayPattern (Some (Identifier (state_name s)) ::
                         Some (Identifier (state_setter s)) :: rest)) init ∧
      hook_value (extractHookInfo greetingPath) =
      Some ("[" +:+
            join ", " (state_name s :: state_setter s ::
                       omap identifierName rest) +:+ "]").
Proof.
  eexists. split; [reflexivity|]. split; [reflexivity|].
  apply hook_value_lists_state. reflexivity.
Defined.


(** X17 at work: [assets] cannot be read, and [App.tsx], found before
    it, is not returned either. *)
Lemma unreadable_directory_empties_search_witness :
  findReactComponents joinSegments extensionOf "/ws" "shop"
    (Present (Some lockedListing)) = [].
Proof.
  apply (proj2 (unreadable_directory_empties_search joinSegments extensionOf
                  "/ws" "shop" lockedListing)).
  eapply unreadable_below.
  - apply list_elem_of_further, list_elem_of_here.
  - reflexivity.
  - eapply unreadable_here.
    + apply list_elem_of_further, list_elem_of_here.
    + reflexivity.
Defined.

(** X18 at work: [Button.jsx]. *)
Lemma found_files_have_react_extension_witness :
  exists dirPath name,
    "/ws/shop/components/Button.jsx" = joinSegments dirPath name ∧
    extensionOf name ∈ [".jsx"; ".tsx"; ".js"; ".ts"].
Proof.
  apply (found_files_have_react_extension joinSegments extensionOf
           "/ws" "shop" (Present (Some shopListing))).
  apply list_elem_of_further, list_elem_of_here.
Defined.

(** X20 at work: [ui] is listed twice by [shop] and drawn once;
    [react] is no project and is not drawn. *)
Lemma dependency_graph_well_formed_witness :
  exists nodes edges,
    dependencyGraph shopWorkspace = Some (nodes, edges) ∧
    map node_id nodes = ["shop"; "ui"] ∧
    map edge_to edges = ["ui"] ∧
    NoDup edges ∧
    forall edge, edge ∈ edges ->
      edge_from edge ∈ map node_id nodes ∧ edge_to edge ∈ map node_id nodes.
Proof.
  eexists _, _. split; [reflexivity|].
  split; [reflexivity|]. split; [reflexivity|].
  apply (dependency_graph_well_formed shopWorkspace _ _ eq_refl).
Defined.

(** X21 at work: the [package.json] of [ui] does not parse, and the
    dependency of [shop] on [ui] is lost with it. *)
Lemma bad_project_empties_dependencies_witness :
  map targetProject (getDependencies shopWorkspace) = ["ui"] ∧
  getDependencies brokenWorkspace = [].
Proof.
  split; [reflexivity|].
  apply (bad_project_empties_dependencies brokenWorkspace
           ("ui", {| project_name := "ui";
                     project_root := Some "libs/ui";
                     project_sourceRoot := Some "libs/ui";
                     project_projectType := "library" |})).
  - apply list_elem_of_further, list_elem_of_here.
  - right. exists "libs/ui". split; reflexivity.
Defined.

(** X22 at work: [workspace.json] beside an [angular.json] that does
    not parse. *)
Lemma getProjects_one_per_project_witness :
  objectKeys (getProjects shopWorkspaceWithAngular) = ["shop"; "ui"].
Proof.
  rewrite (getProjects_one_per_project shopWorkspaceWithAngular
             shopWorkspaceJson
             (default [] (config_projects shopWorkspaceJson))
             (or_introl eq_refl) eq_refl).
  - reflexivity.
  - apply NoDup_cons_2; [|apply NoDup_singleton].
    intros Hin. apply list_elem_of_singleton in Hin. discriminate.
Defined.

(** X23 at work: ports 3000 and 3001 are taken, 3002 is returned. *)
Lemma findAvailablePort_least_witness :
  findAvailablePort portFree 3000 3100 = Some 3002 ∧
  (3000 <= 3002 <= 3100 ∧ portFree 3002 = true ∧
   forall other, 3000 <= other < 3002 -> portFree other = false).
Proof.
  split; [vm_compute; reflexivity|].
  exact (findAvailablePort_least portFree 3000 3100).
Defined.

End AtWork.
